(** * Model capability synchronisation of the chatbot: a shallow embedding

    The development follows the three sources of the capability pipeline:
    - [lib/scrapers/model-capabilities.ts]: the static mapping and its lookup,
    - [lib/scrapers/vercel-models.ts]: the best-effort page scraper,
    - the capability sync route: [POST] (apply) and [GET] (preview),
    and two of its neighbours: the models sync route, which copies the
    language models of the gateway into the store, and the capability
    buttons of [components/multimodal-input.tsx], which read the prices.

    Module [JS] holds the part of ECMAScript the sources rely on: strings
    as sequences of UTF-16 code units, numbers as binary64 floats, the
    values a JSON payload is made of, [parseFloat], strict equality and a
    backtracking matcher for the regular expressions of the scraper.

    Part I translates the sources. Part II proves, about the matcher,
    that it finds a match exactly when the text contains a text of the
    pattern and that its bounds on iteration are never reached; about
    the route, when a second run of [POST] changes nothing, its
    handling of a write that fails in part, what the fields of the two
    reports count, and what a model named after a member of
    [Object.prototype] does to them; about
    the scraper, the contract of [parsePricing], that no failure of the
    fetch escapes, and the record a row of the models table yields. The
    modules whose names end in [Properties] add what else the code
    shows: how requests are turned away and failures reported, what the
    reports add up to, how the lookups of the mapping agree, what the
    rows and payloads of the page can and cannot yield, and how the
    models route and the buttons read ids and prices. *)

From Stdlib Require Import ZArith NArith List Bool Lia String Ascii.
From Stdlib Require Import Floats DecimalString.
Import ListNotations.

Set Implicit Arguments.
Set Warnings "-register-all".

(* ================================================================== *)
(** * Part I: definitions                                              *)
(* ================================================================== *)

Module JS.

(** ** Strings *)

(** A string is a sequence of UTF-16 code units. *)
Definition jsstring := list N.

(** An ASCII literal of the source, as a string. *)
Definition js (s : string) : jsstring :=
  List.map N_of_ascii (list_ascii_of_string s).

(** [String.prototype.length] is [List.length]; [a + b] is [a ++ b]. *)

(** [a === b] on two strings. *)
Fixpoint jsstring_eqb (a b : jsstring) : bool :=
  match a, b with
  | [], [] => true
  | x :: a', y :: b' => N.eqb x y && jsstring_eqb a' b'
  | _, _ => false
  end.

(** [s.startsWith(p)] *)
Fixpoint startsWith (s p : jsstring) : bool :=
  match p, s with
  | [], _ => true
  | c :: p', x :: s' => N.eqb c x && startsWith s' p'
  | _ :: _, [] => false
  end.

(** WhiteSpace and LineTerminator code points: what [\s] matches and what
    [parseFloat] skips at the start of its argument. *)
Definition isWhiteSpace (c : N) : bool :=
  ((9 <=? c) && (c <=? 13) || (c =? 32) || (c =? 160) || (c =? 5760)
   || (8192 <=? c) && (c <=? 8202) || (c =? 8232) || (c =? 8233)
   || (c =? 8239) || (c =? 8287) || (c =? 12288) || (c =? 65279))%N.

Definition isLineTerminator (c : N) : bool :=
  ((c =? 10) || (c =? 13) || (c =? 8232) || (c =? 8233))%N.

Definition isDigit (c : N) : bool := ((48 <=? c) && (c <=? 57))%N.

(** ** Numbers *)

(** A Number is an IEEE 754 binary64 value. *)
Definition number := spec_float.

Definition NaN : number := S754_nan.

(** [Number.isNaN] *)
Definition Number_isNaN (x : number) : bool :=
  match x with S754_nan => true | _ => false end.

(** [x === y] on two Numbers: IEEE equality, so [NaN] differs from itself
    and the two zeros are equal. *)
Definition number_eqb (x y : number) : bool := SFeqb x y.

(** A finite number other than the two zeros. *)
Definition finiteNonZero (x : number) : bool :=
  match x with S754_finite _ _ _ => true | _ => false end.

(** The Number value of the decimal [(-1)^neg * m * 10^e]: the nearest
    binary64 value, ties to even. *)
Definition number_of_decimal (neg : bool) (m : positive) (e : Z) : number :=
  match e with
  | Zneg k =>
      SFdiv prec emax (S754_finite neg m 0) (S754_finite false (Pos.pow 10 k) 0)
  | _ => binary_round prec emax neg (m * Z.to_pos (10 ^ e)) 0
  end.

(** A value of type [number | null | undefined]: what reading a price
    off an object gives. [Known None] is [null]; [Undefined] is what the
    read of a property the object does not have gives. *)
Inductive optional : Type :=
| Undefined
| Known (p : option number).

(** ** [parseFloat] *)

(** The digits at the head of [s], read as a decimal numeral continuing
    [acc], their number, and the rest of [s]. *)
Fixpoint readDigits (s : jsstring) (acc : N) (n : nat) : N * nat * jsstring :=
  match s with
  | c :: t => if isDigit c then readDigits t (10 * acc + (c - 48))%N (S n)
              else (acc, n, s)
  | [] => (acc, n, s)
  end.

(** ExponentPart, when one starts [s]: [e] or [E], an optional sign and at
    least one digit. *)
Definition readExponent (s : jsstring) : Z :=
  match s with
  | c :: t =>
      if ((c =? 101) || (c =? 69))%N then
        let '(neg, t') :=
          match t with
          | d :: u => if (d =? 45)%N then (true, u)
                      else if (d =? 43)%N then (false, u) else (false, t)
          | [] => (false, t)
          end in
        let '(x, n, _) := readDigits t' 0%N 0 in
        match n with
        | O => 0%Z
        | S _ => if neg then (- Z.of_N x)%Z else Z.of_N x
        end
      else 0%Z
  | [] => 0%Z
  end.

(** StrUnsignedDecimalLiteral: the longest prefix of [s] that is one, as
    its Number value with sign [neg]; [NaN] when no prefix is. *)
Definition readUnsigned (neg : bool) (s : jsstring) : number :=
  if startsWith s (js "Infinity") then S754_infinity neg
  else
    let '(ip, ni, r1) := readDigits s 0%N 0 in
    let '(m, nf, r2) :=
      match r1 with
      | c :: t => if (c =? 46)%N then readDigits t ip 0 else (ip, 0, r1)
      | [] => (ip, 0, r1)
      end in
    match ni + nf with
    | O => NaN
    | S _ =>
        match m with
        | N0 => S754_zero neg
        | Npos p => number_of_decimal neg p (readExponent r2 - Z.of_nat nf)
        end
    end.

Fixpoint trimStart (s : jsstring) : jsstring :=
  match s with
  | c :: t => if isWhiteSpace c then trimStart t else s
  | [] => []
  end.

(** [parseFloat(s)] for a string [s]. *)
Definition parseFloat (s : jsstring) : number :=
  match trimStart s with
  | c :: t =>
      if (c =? 45)%N then readUnsigned true t
      else if (c =? 43)%N then readUnsigned false t
      else readUnsigned false (c :: t)
  | [] => NaN
  end.

(** A decimal numeric literal of the source ([0.02], [0.025], ...). *)
Definition lit (s : string) : number := parseFloat (js s).

(** ** Values *)

(** The values a parsed JSON text is made of, and [undefined]. *)
Inductive value : Type :=
| VUndefined
| VNull
| VBoolean (b : bool)
| VNumber (n : number)
| VString (s : jsstring)
| VArray (items : list value)
| VObject (props : list (jsstring * value)).

(** [ToBoolean]: what [!v] and [if (v)] test. *)
Definition truthy (v : value) : bool :=
  match v with
  | VUndefined | VNull => false
  | VBoolean b => b
  | VNumber n =>
      match n with S754_zero _ | S754_nan => false | _ => true end
  | VString s => match s with [] => false | _ :: _ => true end
  | VArray _ | VObject _ => true
  end.

(** [v === null || v === undefined] *)
Definition nullish (v : value) : bool :=
  match v with VUndefined | VNull => true | _ => false end.

(** [a ?? b] *)
Definition coalesce (a b : value) : value := if nullish a then b else a.

(** An own property of an object literal or of a parsed JSON object. *)
Fixpoint lookup {A : Type} (o : list (jsstring * A)) (key : jsstring) : option A :=
  match o with
  | [] => None
  | (k, v) :: o' => if jsstring_eqb k key then Some v else lookup o' key
  end.

(** [v.key], for the property names the scraper reads ([props],
    [pageProps], [models], [data], [id], [imageGen], [webSearch],
    [capabilities]): none of them is defined by a prototype, so only an
    object can have one, and every primitive or array answers
    [undefined]. Reading a property of [null] or [undefined] throws a
    TypeError: [None]. *)
Definition get (v : value) (key : jsstring) : option value :=
  match v with
  | VUndefined | VNull => None
  | VObject props =>
      Some match lookup props key with Some x => x | None => VUndefined end
  | _ => Some VUndefined
  end.

(** [v?.key] *)
Definition getOpt (v : value) (key : jsstring) : value :=
  match get v key with Some x => x | None => VUndefined end.

Definition isHighSurrogate (c : N) : bool := ((55296 <=? c) && (c <=? 56319))%N.
Definition isLowSurrogate (c : N) : bool := ((56320 <=? c) && (c <=? 57343))%N.

(** The code points of a string, each as a string: what [for ... of]
    iterates over. *)
Fixpoint codePoints (s : jsstring) : list jsstring :=
  match s with
  | [] => []
  | c :: t =>
      match t with
      | d :: u =>
          if isHighSurrogate c && isLowSurrogate d
          then [c; d] :: match codePoints t with _ :: r => r | [] => [] end
          else [c] :: codePoints t
      | [] => [[c]]
      end
  end.

(** The elements [for (const x of v)] visits; [None] when [v] is not
    iterable (a TypeError). *)
Definition iterate (v : value) : option (list value) :=
  match v with
  | VArray items => Some items
  | VString s => Some (List.map VString (codePoints s))
  | _ => None
  end.

(** ** Thrown values *)

(** What a [catch] clause receives: an [Error] object with its [name] and
    [message], or a value that is not an [Error]. *)
Inductive thrown : Type :=
| ErrorObject (name message : jsstring)
| NotAnError.

(** [new Error(message)] *)
Definition Error (message : jsstring) : thrown := ErrorObject (js "Error") message.

(** [error instanceof Error ? error.message : "Unknown error"] *)
Definition messageOf (e : thrown) : jsstring :=
  match e with
  | ErrorObject _ message => message
  | NotAnError => js "Unknown error"
  end.

(** [Error.prototype.toString]: how a template literal renders an error. *)
Definition errorToString (name message : jsstring) : jsstring :=
  match name, message with
  | [], _ => message
  | _, [] => name
  | _, _ => name ++ js ": " ++ message
  end.

(** A natural number in decimal, as a template literal renders it. *)
Definition natToString (n : N) : jsstring :=
  js (NilEmpty.string_of_uint (N.to_uint n)).

(** ** Regular expressions *)

(** The patterns of the scraper use literal characters, [.], the classes
    [\s], [\S] and [\d], bracketed classes of those, sequence,
    alternation, the quantifiers [*], [+], [?] (greedy or lazy) and one
    capturing group that no quantifier encloses. *)
Inductive cls : Type :=
| CChar (c : N)
| CWhite
| CNonWhite
| CDigit.

Inductive regex : Type :=
| REmpty
| RChar (c : N)
| RDot
| RClass (invert : bool) (items : list cls)
| RSeq (r1 r2 : regex)
| RAlt (r1 r2 : regex)
| RStar (greedy : bool) (r : regex)
| RPlus (greedy : bool) (r : regex)
| ROpt (greedy : bool) (r : regex)
| RGroup (n : nat) (r : regex).

(** The flags [i] and [s]; [g] is the business of the caller. *)
Record flags : Type := { ignoreCase : bool; dotAll : bool }.

(** A run of literal characters. *)
Fixpoint RLit (s : jsstring) : regex :=
  match s with
  | [] => REmpty
  | [c] => RChar c
  | c :: t => RSeq (RChar c) (RLit t)
  end.

Definition captures := list (nat * jsstring).

(** [Canonicalize] without the [u] flag maps a character to its upper
    case. The patterns below are made of ASCII characters, white space
    and the em dash, and no character outside ASCII has one of those as
    its upper case, so folding the ASCII letters decides every
    comparison the same way. *)
Definition canonicalize (fl : flags) (c : N) : N :=
  if ignoreCase fl && ((97 <=? c) && (c <=? 122))%N then (c - 32)%N else c.

Definition cls_match (fl : flags) (x : N) (i : cls) : bool :=
  match i with
  | CChar c => (canonicalize fl c =? canonicalize fl x)%N
  | CWhite => isWhiteSpace x
  | CNonWhite => negb (isWhiteSpace x)
  | CDigit => isDigit x
  end.

Section Matcher.

Variable fl : flags.
Variable R : Type.

(** A continuation receives the rest of the input and the captures. *)
Definition cont : Type := jsstring -> captures -> option R.

Definition single (p : N -> bool) (s : jsstring) (caps : captures) (k : cont)
  : option R :=
  match s with
  | x :: t => if p x then k t caps else None
  | [] => None
  end.

(** RepeatMatcher with no lower bound: an iteration that consumes nothing
    fails, so [S (List.length s)] iterations are never exhausted on [s]. *)
Fixpoint repeat (mr : jsstring -> captures -> cont -> option R)
    (greedy : bool) (fuel : nat) (s : jsstring) (caps : captures) (k : cont)
  : option R :=
  match fuel with
  | O => k s caps
  | S fuel' =>
      let again (_ : unit) :=
        mr s caps (fun s' caps' =>
          if (List.length s' <? List.length s)%nat
          then repeat mr greedy fuel' s' caps' k else None) in
      if greedy
      then match again tt with Some x => Some x | None => k s caps end
      else match k s caps with Some x => Some x | None => again tt end
  end.

(** The backtracking matcher of the language specification, in
    continuation-passing style: alternatives are tried left to right. *)
Fixpoint matcher (r : regex) (s : jsstring) (caps : captures) (k : cont)
  {struct r} : option R :=
  match r with
  | REmpty => k s caps
  | RChar c =>
      single (fun x => (canonicalize fl c =? canonicalize fl x)%N) s caps k
  | RDot => single (fun x => dotAll fl || negb (isLineTerminator x)) s caps k
  | RClass invert items =>
      single (fun x => xorb invert (existsb (cls_match fl x) items)) s caps k
  | RSeq r1 r2 => matcher r1 s caps (fun s' caps' => matcher r2 s' caps' k)
  | RAlt r1 r2 =>
      match matcher r1 s caps k with
      | Some x => Some x
      | None => matcher r2 s caps k
      end
  | RStar greedy r' => repeat (matcher r') greedy (S (List.length s)) s caps k
  | RPlus greedy r' =>
      matcher r' s caps (fun s' caps' =>
        repeat (matcher r') greedy (S (List.length s')) s' caps' k)
  | ROpt greedy r' =>
      let once (_ : unit) :=
        matcher r' s caps (fun s' caps' =>
          if (List.length s' <? List.length s)%nat then k s' caps' else None) in
      if greedy
      then match once tt with Some x => Some x | None => k s caps end
      else match k s caps with Some x => Some x | None => once tt end
  | RGroup n r' =>
      matcher r' s caps (fun s' caps' =>
        k s' ((n, firstn (List.length s - List.length s') s) :: caps'))
  end.

End Matcher.

(** A successful match: the text before it, the matched text ([match[0]]),
    the captures and the text after it. *)
Record match_result : Type := {
  before : jsstring;
  matched : jsstring;
  groups : captures;
  after : jsstring
}.

(** [match[n]] for a group that took part in the match. *)
Definition group (m : match_result) (n : nat) : jsstring :=
  match List.find (fun p => Nat.eqb (fst p) n) (groups m) with
  | Some p => snd p
  | None => []
  end.

(** A match starting at the head of [s]: the rest and the captures. *)
Definition match_here (fl : flags) (r : regex) (s : jsstring)
  : option (jsstring * captures) :=
  matcher fl r s [] (fun s' caps => Some (s', caps)).

(** The leftmost match in [s]: [r.exec(s)] from index 0, [s.match(r)]
    without the [g] flag. *)
Fixpoint search (fl : flags) (r : regex) (s : jsstring) : option match_result :=
  match match_here fl r s with
  | Some (rest, caps) =>
      Some {| before := []; matched := firstn (List.length s - List.length rest) s;
              groups := caps; after := rest |}
  | None =>
      match s with
      | [] => None
      | c :: t =>
          match search fl r t with
          | Some m => Some {| before := c :: before m; matched := matched m;
                              groups := groups m; after := after m |}
          | None => None
          end
      end
  end.

(** [r.test(s)] *)
Definition test (fl : flags) (r : regex) (s : jsstring) : bool :=
  match search fl r s with Some _ => true | None => false end.

(** The texts a pattern stands for, whatever the order in which the
    matcher tries them. *)
Inductive Lang (fl : flags) : regex -> jsstring -> Prop :=
| LEmpty : Lang fl REmpty []
| LChar c x :
    canonicalize fl c = canonicalize fl x -> Lang fl (RChar c) [x]
| LDot x :
    dotAll fl || negb (isLineTerminator x) = true -> Lang fl RDot [x]
| LClass invert items x :
    xorb invert (existsb (cls_match fl x) items) = true ->
    Lang fl (RClass invert items) [x]
| LSeq r1 r2 w1 w2 :
    Lang fl r1 w1 -> Lang fl r2 w2 -> Lang fl (RSeq r1 r2) (w1 ++ w2)
| LAltL r1 r2 w : Lang fl r1 w -> Lang fl (RAlt r1 r2) w
| LAltR r1 r2 w : Lang fl r2 w -> Lang fl (RAlt r1 r2) w
| LStarNil greedy r : Lang fl (RStar greedy r) []
| LStarCons greedy r w1 w2 :
    Lang fl r w1 -> Lang fl (RStar greedy r) w2 ->
    Lang fl (RStar greedy r) (w1 ++ w2)
| LPlus greedy r w1 w2 :
    Lang fl r w1 -> Lang fl (RStar greedy r) w2 ->
    Lang fl (RPlus greedy r) (w1 ++ w2)
| LOptNone greedy r : Lang fl (ROpt greedy r) []
| LOptSome greedy r w : Lang fl r w -> Lang fl (ROpt greedy r) w
| LGroup n r w : Lang fl r w -> Lang fl (RGroup n r) w.

(** Whether the pattern stands for the empty text. *)
Fixpoint nullable (r : regex) : bool :=
  match r with
  | REmpty | RStar _ _ | ROpt _ _ => true
  | RChar _ | RDot | RClass _ _ => false
  | RSeq r1 r2 => nullable r1 && nullable r2
  | RAlt r1 r2 => nullable r1 || nullable r2
  | RPlus _ r' | RGroup _ r' => nullable r'
  end.

(** [s] contains a text the pattern stands for. *)
Definition mentions (fl : flags) (r : regex) (s : jsstring) : Prop :=
  exists x w y, s = x ++ w ++ y /\ Lang fl r w.

(** [s.includes(t)] *)
Fixpoint includes (s t : jsstring) : bool :=
  startsWith s t ||
  match s with
  | [] => false
  | _ :: s' => includes s' t
  end.

(** [s.replace(r, by)] with the [g] flag and a replacement text without
    [$] patterns: every match, left to right, is replaced; after an empty
    match the search resumes one character further. *)
Fixpoint replaceAll_from (fuel : nat) (fl : flags) (r : regex) (by_ : jsstring)
    (s : jsstring) : jsstring :=
  match fuel with
  | O => s
  | S fuel' =>
      match search fl r s with
      | None => s
      | Some m =>
          match matched m, after m with
          | [], [] => before m ++ by_
          | [], c :: t =>
              before m ++ by_ ++ c :: replaceAll_from fuel' fl r by_ t
          | _ :: _, rest =>
              before m ++ by_ ++ replaceAll_from fuel' fl r by_ rest
          end
      end
  end.

Definition replaceAll (fl : flags) (r : regex) (by_ s : jsstring) : jsstring :=
  replaceAll_from (S (List.length s)) fl r by_ s.

End JS.

(* ------------------------------------------------------------------ *)
(** ** [lib/scrapers/model-capabilities.ts]: the static mapping        *)
(* ------------------------------------------------------------------ *)

(** The two prices as they are read off the result of a lookup in the
    mapping. *)
Module Prices.
Import JS.

Record t : Type := {
  pricingImageGen : optional;
  pricingWebSearch : optional
}.

End Prices.

Module Capabilities.
Import JS.

(** [null] is [None]: the capability is not supported. *)
Record ModelCapabilities : Type := {
  pricingImageGen : option number;
  pricingWebSearch : option number
}.

Definition caps (imageGen webSearch : option number) : ModelCapabilities :=
  {| pricingImageGen := imageGen; pricingWebSearch := webSearch |}.

(** The object literal, its properties in the order they are written:
    the order [Object.keys] and [Object.entries] follow. *)
Definition MODEL_CAPABILITIES : list (jsstring * ModelCapabilities) := [
  (js "openai/gpt-5", caps (Some (lit "0.02")) (Some (lit "0.025")));
  (js "openai/gpt-5-chat", caps (Some (lit "0.02")) (Some (lit "0.025")));
  (js "openai/gpt-5-mini", caps (Some (lit "0.02")) (Some (lit "0.025")));
  (js "openai/gpt-5.2", caps (Some (lit "0.02")) (Some (lit "0.025")));
  (js "openai/gpt-4o", caps (Some (lit "0.02")) None);
  (js "openai/gpt-4o-mini", caps (Some (lit "0.02")) None);
  (js "google/gemini-2.5-flash", caps (Some (lit "0.02")) None);
  (js "google/gemini-2.5-flash-lite", caps (Some (lit "0.02")) None);
  (js "google/gemini-2.5-pro", caps (Some (lit "0.02")) None);
  (js "google/gemini-3-flash", caps (Some (lit "0.02")) None);
  (js "google/gemini-3-pro-preview", caps (Some (lit "0.02")) None);
  (js "google/gemini-3-pro-image", caps (Some (lit "0.02")) None);
  (js "xai/grok-3", caps None (Some (lit "0.05")));
  (js "xai/grok-3-fast", caps None (Some (lit "0.05")));
  (js "xai/grok-3-mini", caps None (Some (lit "0.05")));
  (js "xai/grok-4", caps None (Some (lit "0.05")));
  (js "perplexity/sonar", caps None (Some (lit "0.005")));
  (js "perplexity/sonar-pro", caps None (Some (lit "0.005")));
  (js "perplexity/sonar-reasoning", caps None (Some (lit "0.005")));
  (js "perplexity/sonar-reasoning-pro", caps None (Some (lit "0.005")))
]%string.

(** The mapping is an object literal, so it inherits the properties of
    [Object.prototype]: these twelve, those of Annex B included. Each is
    a function, or for [__proto__] the prototype itself: a truthy value
    that has neither [pricingImageGen] nor [pricingWebSearch]. Nothing
    in the sources adds a property to the prototype. *)
Definition inheritedKeys : list jsstring :=
  List.map js ["constructor"; "__defineGetter__"; "__defineSetter__";
               "hasOwnProperty"; "__lookupGetter__"; "__lookupSetter__";
               "isPrototypeOf"; "propertyIsEnumerable"; "toString"; "valueOf";
               "__proto__"; "toLocaleString"]%string.

Definition isInherited (key : jsstring) : bool :=
  existsb (jsstring_eqb key) inheritedKeys.

(** What the read [MODEL_CAPABILITIES[modelId]] finds: an entry written
    above, a member inherited from the prototype, or [undefined]. *)
Inductive member : Type :=
| Entry (c : ModelCapabilities)
| Inherited
| NoMember.

(** [MODEL_CAPABILITIES[modelId]]: the key is computed, and a key the
    object does not have itself is looked up in its prototype. *)
Definition readMapping (modelId : jsstring) : member :=
  match lookup MODEL_CAPABILITIES modelId with
  | Some c => Entry c
  | None => if isInherited modelId then Inherited else NoMember
  end.

(** [MODEL_CAPABILITIES[modelId] ?? { pricingImageGen: null,
    pricingWebSearch: null }]. The function returns whatever the read
    finds unless that is [undefined]. Its callers read the two prices of
    the result and nothing else, so the result is given by what these
    two reads yield: the prices of the entry; [null] twice for the
    default; [undefined] twice for an inherited member. *)
Definition getModelCapabilities (modelId : jsstring) : Prices.t :=
  match readMapping modelId with
  | Entry c =>
      {| Prices.pricingImageGen := Known (pricingImageGen c);
         Prices.pricingWebSearch := Known (pricingWebSearch c) |}
  | Inherited =>
      {| Prices.pricingImageGen := Undefined; Prices.pricingWebSearch := Undefined |}
  | NoMember =>
      {| Prices.pricingImageGen := Known None;
         Prices.pricingWebSearch := Known None |}
  end.

(** A price is a finite number other than zero, or [null]. *)
Definition priced (p : option number) : bool :=
  match p with Some x => finiteNonZero x | None => true end.

Definition wellPriced (c : ModelCapabilities) : bool :=
  priced (pricingImageGen c) && priced (pricingWebSearch c).

Inductive capability : Type := imageGen | webSearch.

Definition getModelsWithCapability (capability : capability) : list jsstring :=
  List.map fst
    (List.filter
       (fun entry =>
          match capability with
          | imageGen =>
              match pricingImageGen (snd entry) with Some _ => true | None => false end
          | webSearch =>
              match pricingWebSearch (snd entry) with Some _ => true | None => false end
          end)
       MODEL_CAPABILITIES).

End Capabilities.

(* ------------------------------------------------------------------ *)
(** ** [lib/scrapers/vercel-models.ts]: the page scraper               *)
(* ------------------------------------------------------------------ *)

Module Scraper.
Import JS.

(** [id] is declared a string; a record built from the page payload
    carries whatever truthy value the payload had there. *)
Record ScrapedModelCapabilities : Type := {
  id : value;
  pricingImageGen : option number;
  pricingWebSearch : option number
}.

Record ScrapeResult : Type := {
  models : list ScrapedModelCapabilities;
  errors : list jsstring;
  timestamp : N
}.

(** What [fetch] resolves to: [ok] holds for the statuses 200 to 299, and
    reading the body may fail in turn. *)
Record Response : Type := {
  status : N;
  statusText : jsstring;
  text : thrown + jsstring
}.

Definition ok (response : Response) : bool :=
  ((200 <=? status response) && (status response <=? 299))%N.

Definition quot : N := 34.
Definition emDash : N := 8212.

Definition RCat (rs : list regex) : regex := List.fold_right RSeq REmpty rs.

(** [/[$,\s]/g] *)
Definition currencyNoise : regex := RClass false [CChar 36; CChar 44; CWhite].

(** Parses pricing value from various formats. *)
Definition parsePricing (v : value) : option number :=
  match v with
  | VNull | VUndefined => None
  | VNumber n => Some n
  | VString s =>
      let cleaned :=
        replaceAll {| ignoreCase := false; dotAll := false |} currencyNoise [] s in
      let parsed := parseFloat cleaned in
      if Number_isNaN parsed then None else Some parsed
  | _ => None
  end.

(** [/ \$ ( \d+ \.? \d* ) \/? M? /i], spaced out here for reading. *)
Definition priceRegex : regex :=
  RCat [RChar 36;
        RGroup 1 (RCat [RPlus true (RClass false [CDigit]);
                        ROpt true (RChar 46);
                        RStar true (RClass false [CDigit])]);
        ROpt true (RChar 47);
        ROpt true (RChar 77)].

Definition flags_i : flags := {| ignoreCase := true; dotAll := false |}.

(** Extracts pricing value from a table row for a specific capability. *)
Definition extractPricingFromRow (rowHtml : jsstring) (capability : jsstring)
  : option number :=
  match search flags_i priceRegex rowHtml with
  | Some matches =>
      match group matches 1 with
      | [] => None
      | _ :: _ =>
          let price := parseFloat (group matches 1) in
          if negb (Number_isNaN price) then Some price else None
      end
  | None => None
  end.

(** [/a|b/i], for two keywords. *)
Definition keywords (a b : string) : regex := RAlt (RLit (js a)) (RLit (js b)).

Definition providerPatterns : list (regex * jsstring) := [
  (keywords "openai" "gpt", js "openai");
  (keywords "anthropic" "claude", js "anthropic");
  (keywords "google" "gemini", js "google");
  (keywords "xai" "grok", js "xai");
  (keywords "meta" "llama", js "meta");
  (RLit (js "mistral"), js "mistral");
  (RLit (js "deepseek"), js "deepseek")
]%string.

(** Infers full model ID from slug and HTML context. *)
Definition inferModelId (slug rowHtml : jsstring) : option jsstring :=
  match List.find (fun p => test flags_i (fst p) rowHtml) providerPatterns with
  | Some (_, provider) =>
      let modelName :=
        replaceAll {| ignoreCase := false; dotAll := false |}
                   (RChar 45) (js "-") slug in
      Some (provider ++ js "/" ++ modelName)
  | None =>
      if startsWith slug (js "gpt-") then Some (js "openai/" ++ slug)
      else if startsWith slug (js "claude-") then Some (js "anthropic/" ++ slug)
      else if startsWith slug (js "gemini-") then Some (js "google/" ++ slug)
      else if startsWith slug (js "grok-") then Some (js "xai/" ++ slug)
      else None
  end.

Definition notGt : regex := RClass true [CChar 62].
Definition anyChar : regex := RClass false [CWhite; CNonWhite].

(** [/<tr[^>]*>[\s\S]*?<a[^>]*href=Q\/ai-gateway\/models\/([^Q]+)Q[^>]*>[\s\S]*?<\/tr>/gi],
    with Q for the double quote. *)
Definition modelRowRegex : regex :=
  RCat [RLit (js "<tr"); RStar true notGt; RChar 62;
        RStar false anyChar;
        RLit (js "<a"); RStar true notGt;
        RLit (js "href=" ++ quot :: js "/ai-gateway/models/");
        RGroup 1 (RPlus true (RClass true [CChar quot]));
        RChar quot; RStar true notGt; RChar 62;
        RStar false anyChar;
        RLit (js "</tr>")].

(** [/Image\s+Gen|image[\s-]?gen/i] *)
Definition imageGenRegex : regex :=
  RAlt (RCat [RLit (js "Image"); RPlus true (RClass false [CWhite]); RLit (js "Gen")])
       (RCat [RLit (js "image"); ROpt true (RClass false [CWhite; CChar 45]);
              RLit (js "gen")]).

(** [/Web\s+Search|web[\s-]?search/i] *)
Definition webSearchRegex : regex :=
  RAlt (RCat [RLit (js "Web"); RPlus true (RClass false [CWhite]); RLit (js "Search")])
       (RCat [RLit (js "web"); ROpt true (RClass false [CWhite; CChar 45]);
              RLit (js "search")]).

(** [/—|none|no/i] *)
Definition negationRegex : regex :=
  RAlt (RChar emDash) (RAlt (RLit (js "none")) (RLit (js "no"))).

(** The body of the [while] loop of [extractFromHTML], for one match of
    the row pattern: the record pushed, if any. *)
Definition rowRecord (modelSlug rowHtml : jsstring) : option ScrapedModelCapabilities :=
  let modelId := inferModelId modelSlug rowHtml in
  let hasImageGen :=
    test flags_i imageGenRegex rowHtml && negb (test flags_i negationRegex rowHtml) in
  let hasWebSearch :=
    test flags_i webSearchRegex rowHtml && negb (test flags_i negationRegex rowHtml) in
  let imageGenPrice := extractPricingFromRow rowHtml (js "Image Gen") in
  let webSearchPrice := extractPricingFromRow rowHtml (js "Web Search") in
  match modelId with
  | Some modelId =>
      Some {| id := VString modelId;
              pricingImageGen := if hasImageGen then imageGenPrice else None;
              pricingWebSearch := if hasWebSearch then webSearchPrice else None |}
  | None => None
  end.

(** The [while] loop: [exec] resumes at [lastIndex], the end of the last
    match; the pattern looks at nothing before the place it starts from,
    so this is the leftmost match in the rest of the text. A match is
    never empty, so [S (length html)] rounds are never exhausted. *)
Fixpoint extractFromHTML_loop (fuel : nat) (html : jsstring)
    (models : list ScrapedModelCapabilities) : list ScrapedModelCapabilities :=
  match fuel with
  | O => models
  | S fuel' =>
      match search flags_i modelRowRegex html with
      | None => models
      | Some m =>
          extractFromHTML_loop fuel' (after m)
            match rowRecord (group m 1) (matched m) with
            | Some record => models ++ [record]
            | None => models
            end
      end
  end.

(** Extracts model capabilities from HTML table structure. *)
Definition extractFromHTML (html : jsstring) : list ScrapedModelCapabilities :=
  extractFromHTML_loop (S (List.length html)) html [].

(** The [for ... of] loop of [extractFromNextData]. Reading [id] of a
    [null] or [undefined] entry throws; the enclosing [catch] swallows
    it and the records built so far are returned. *)
Fixpoint nextDataLoop (modelsData : list value)
    (models : list ScrapedModelCapabilities) : list ScrapedModelCapabilities :=
  match modelsData with
  | [] => models
  | modelData :: rest =>
      match get modelData (js "id") with
      | None => models
      | Some modelId =>
          if negb (truthy modelId) then nextDataLoop rest models
          else
            let imageGen :=
              parsePricing
                (coalesce
                   (coalesce (getOpt modelData (js "imageGen"))
                             (getOpt (getOpt modelData (js "capabilities"))
                                     (js "imageGen")))
                   VNull) in
            let webSearch :=
              parsePricing
                (coalesce
                   (coalesce (getOpt modelData (js "webSearch"))
                             (getOpt (getOpt modelData (js "capabilities"))
                                     (js "webSearch")))
                   VNull) in
            nextDataLoop rest
              (models ++ [{| id := modelId;
                             pricingImageGen := imageGen;
                             pricingWebSearch := webSearch |}])
      end
  end.

(** Extracts model capabilities from Next.js [__NEXT_DATA__] JSON. *)
Definition extractFromNextData (nextData : value) : list ScrapedModelCapabilities :=
  let props := getOpt (getOpt nextData (js "props")) (js "pageProps") in
  if negb (truthy props) then []
  else
    let modelsData :=
      coalesce
        (coalesce (getOpt props (js "models"))
                  (getOpt (getOpt props (js "data")) (js "models")))
        (VArray []) in
    match iterate modelsData with
    | Some items => nextDataLoop items []
    | None => []
    end.

(** [/<script[^>]*id=Q__NEXT_DATA__Q[^>]*>(.*?)<\/script>/s], with Q for
    the double quote. *)
Definition nextDataRegex : regex :=
  RCat [RLit (js "<script"); RStar true notGt;
        RLit (js "id=" ++ quot :: js "__NEXT_DATA__" ++ [quot]);
        RStar true notGt; RChar 62;
        RGroup 1 (RStar false RDot);
        RLit (js "</script>")].

Section Scrape.

(** [JSON.parse]: the parsed value, or the message of the SyntaxError it
    throws. *)
Variable JSON_parse : jsstring -> jsstring + value.

(** The [try] block of [scrapeVercelModelsPage]. [errors] is the one
    array the function creates; a throw leaves it as it is at that
    point, so the block answers with the array in both cases. [models]
    is only pushed to by the last statement before the [return], after
    which nothing throws: the [catch] clause finds it empty. *)
Definition scrapeAttempt (fetched : thrown + Response) (now : N)
  : (thrown + ScrapeResult) * list jsstring :=
  let errors : list jsstring := [] in
  let models : list ScrapedModelCapabilities := [] in
  match fetched with
  | inl error => (inl error, errors)
  | inr response =>
      if negb (ok response) then
        (inl (Error (js "Failed to fetch models page: "
                       ++ natToString (status response) ++ js " "
                       ++ statusText response)), errors)
      else
        match text response with
        | inl error => (inl error, errors)
        | inr html =>
            let jsonMatch :=
              search {| ignoreCase := false; dotAll := true |} nextDataRegex html in
            let '(returned, errors) :=
              match jsonMatch with
              | Some m =>
                  match JSON_parse (group m 1) with
                  | inr nextData =>
                      let extracted := extractFromNextData nextData in
                      if (0 <? List.length extracted)%nat
                      then (Some {| models := extracted; errors := errors;
                                    timestamp := now |}, errors)
                      else (None, errors)
                  | inl parseError =>
                      (None,
                       errors ++ [js "Failed to parse Next.js data: "
                                    ++ errorToString (js "SyntaxError") parseError])
                  end
              | None => (None, errors)
              end in
            match returned with
            | Some result => (inr result, errors)
            | None =>
                let tableData := extractFromHTML html in
                let models := models ++ tableData in
                (inr {| models := models; errors := errors; timestamp := now |},
                 errors)
            end
        end
  end.

(** The promise [scrapeVercelModelsPage] returns: fulfilled ([inr]) or
    rejected ([inl]). [fetched] is what [fetch] settles to and [now] what
    [new Date()] reads. *)
Definition scrapeVercelModelsPage (fetched : thrown + Response) (now : N)
  : thrown + ScrapeResult :=
  match scrapeAttempt fetched now with
  | (inr result, _) => inr result
  | (inl error, errors) =>
      inr {| models := [];
             errors := errors ++ [js "Scraping failed: " ++ messageOf error];
             timestamp := now |}
  end.

End Scrape.

End Scraper.

(* ------------------------------------------------------------------ *)
(** ** The model store, as the sync route sees it                      *)
(* ------------------------------------------------------------------ *)

Module Db.
Import JS.

(** The columns of a [Model] row that the sync route reads and writes. *)
Record Model : Type := {
  id : jsstring;
  pricingImageGen : option number;
  pricingWebSearch : option number
}.

(** Modelled from the spec: what a price of a record does to a column
    of its row. The spec knows prices that are a number or absent; a
    price that is [undefined] is none of these and is taken to leave the
    column as it is. *)
Definition column (price : optional) (old : option number) : option number :=
  match price with
  | Known p => p
  | Undefined => old
  end.

(** Modelled from the spec: what an upsert of one capability record
    leaves of a row of the store, whose source is not at hand: the row
    with the id of the record takes its two prices, any other row is
    left as it is. *)
Definition write1 (uid : jsstring) (imageGen webSearch : optional)
    (m : Model) : Model :=
  if jsstring_eqb (id m) uid
  then {| id := id m;
          pricingImageGen := column imageGen (pricingImageGen m);
          pricingWebSearch := column webSearch (pricingWebSearch m) |}
  else m.

End Db.

(** An element of the [updates] array of the route. *)
Module Update.
Import JS.

Record t : Type := {
  id : jsstring;
  pricingImageGen : optional;
  pricingWebSearch : optional
}.

(** The rows once the record [u] is written. *)
Definition write (u : t) (rows : list Db.Model) : list Db.Model :=
  List.map (Db.write1 (id u) (pricingImageGen u) (pricingWebSearch u)) rows.

(** The rows once every record of a batch is written, first to last. *)
Definition writeAll (us : list t) (rows : list Db.Model) : list Db.Model :=
  List.fold_left (fun rows u => write u rows) us rows.

End Update.

(** What [bulkUpdateModelCapabilities] answers with. *)
Module UpdateResult.
Import JS.

Record t : Type := {
  total : nat;
  successful : nat;
  failed : nat;
  errors : list jsstring
}.

End UpdateResult.

Module Store.
Import JS.

(** The two queries of [lib/db/queries] the route awaits, over the state
    [W] of whatever lies behind them, and the clock [new Date()] reads.
    Either query may reject; the read leaves the state alone. *)
Class Ops (W : Type) : Type := {
  getEnabledModels : W -> thrown + list Db.Model;
  bulkUpdateModelCapabilities :
    list Update.t -> W -> (thrown + UpdateResult.t) * W;
  toISOString : W -> jsstring
}.

(** A run of a handler: the state behind the queries and the batches
    handed to [bulkUpdateModelCapabilities] so far, oldest first. *)
Record Sys (W : Type) : Type := {
  world : W;
  bulkCalls : list (list Update.t)
}.

Definition start {W : Type} (w : W) : Sys W := {| world := w; bulkCalls := [] |}.

(** Computations of a handler: they thread [Sys] and may throw. *)
Definition M (W A : Type) : Type := Sys W -> (thrown + A) * Sys W.

Definition ret {W A : Type} (a : A) : M W A := fun sys => (inr a, sys).

Definition bind {W A B : Type} (c : M W A) (k : A -> M W B) : M W B :=
  fun sys =>
    match c sys with
    | (inr a, sys') => k a sys'
    | (inl error, sys') => (inl error, sys')
    end.

(** [await getEnabledModels()] *)
Definition awaitGetEnabledModels {W : Type} `{Ops W} : M W (list Db.Model) :=
  fun sys => (getEnabledModels (world sys), sys).

(** [await bulkUpdateModelCapabilities(updates)] *)
Definition awaitBulkUpdate {W : Type} `{Ops W} (updates : list Update.t)
  : M W UpdateResult.t :=
  fun sys =>
    let '(result, w') := bulkUpdateModelCapabilities updates (world sys) in
    (result, {| world := w'; bulkCalls := bulkCalls sys ++ [updates] |}).

(** [new Date().toISOString()] *)
Definition now {W : Type} `{Ops W} : M W jsstring :=
  fun sys => (inr (toISOString (world sys)), sys).

End Store.

Declare Scope handler_scope.
Delimit Scope handler_scope with handler.
Notation "x <- c ;; k" := (Store.bind c (fun x => k))
  (at level 61, c at next level, right associativity) : handler_scope.

(* ------------------------------------------------------------------ *)
(** ** The capability sync route: [POST] applies, [GET] previews       *)
(* ------------------------------------------------------------------ *)

Module PostSummary.
Record t : Type := {
  totalModels : nat;
  inMapping : nat;
  updated : nat;
  unchanged : nat;
  notInMapping : nat;
  failed : nat
}.
End PostSummary.

Module PostDetails.
Import JS.
Record t : Type := {
  updated : list Update.t;
  notInMapping : list jsstring;
  errors : list jsstring
}.
End PostDetails.

Module PostReport.
Import JS.
Record t : Type := {
  success : bool;
  timestamp : jsstring;
  source : jsstring;
  summary : PostSummary.t;
  details : PostDetails.t
}.
End PostReport.

Module PreviewEntry.
Import JS.
Record t : Type := {
  id : jsstring;
  current : Capabilities.ModelCapabilities;
  new : Prices.t;
  willUpdate : bool;
  inMapping : bool
}.
End PreviewEntry.

Module GetSummary.
Record t : Type := {
  total : nat;
  willUpdate : nat;
  unchanged : nat;
  inMapping : nat;
  notInMapping : nat
}.
End GetSummary.

Module GetReport.
Import JS.
Record t : Type := {
  success : bool;
  timestamp : jsstring;
  source : jsstring;
  mappingVersion : jsstring;
  preview : list PreviewEntry.t;
  summary : GetSummary.t
}.
End GetReport.

Module SyncRoute.
Import JS Store.
Import Capabilities(MODEL_CAPABILITIES, getModelCapabilities, readMapping).
Import Capabilities(Entry, Inherited, NoMember).
Local Open Scope handler_scope.

(** [a !== b] on two values of type [number | null | undefined]. *)
Definition strictNe (a b : optional) : bool :=
  match a, b with
  | Undefined, Undefined => false
  | Known None, Known None => false
  | Known (Some x), Known (Some y) => negb (number_eqb x y)
  | _, _ => true
  end.

Record Request : Type := { x_api_key : option jsstring }.
Record ProcessEnv : Type := { MODELS_SYNC_API_KEY : option jsstring }.

(** What a handler returns: [Response.json(body)], or the response of a
    [ChatSDKError] with its code and cause. *)
Inductive Response (B : Type) : Type :=
| Json (body : B)
| ChatSDKError (code cause : jsstring).
Arguments Json {B} body.
Arguments ChatSDKError {B} code cause.

(** The two checks both handlers start with: [None] lets the request
    through. *)
Definition rejectRequest {B : Type} (env : ProcessEnv) (request : Request)
  : option (Response B) :=
  let apiKey := x_api_key request in
  match MODELS_SYNC_API_KEY env with
  | None | Some [] =>
      Some (ChatSDKError (js "bad_request:api")
                         (js "MODELS_SYNC_API_KEY not configured"))
  | Some expectedApiKey =>
      match apiKey with
      | Some key =>
          if jsstring_eqb key expectedApiKey then None
          else Some (ChatSDKError (js "unauthorized:api") (js "Invalid API key"))
      | None => Some (ChatSDKError (js "unauthorized:api") (js "Invalid API key"))
      end
  end.

(** The precondition of both handlers: a key is configured and the
    request presents it. *)
Definition authorized (env : ProcessEnv) (request : Request) : bool :=
  match MODELS_SYNC_API_KEY env, x_api_key request with
  | Some (c :: expectedApiKey), Some key => jsstring_eqb key (c :: expectedApiKey)
  | _, _ => false
  end.

(** [imageGenChanged || webSearchChanged] *)
Definition changed (existingModel : Db.Model) : bool :=
  let capabilities := getModelCapabilities (Db.id existingModel) in
  let imageGenChanged :=
    strictNe (Known (Db.pricingImageGen existingModel))
             (Prices.pricingImageGen capabilities) in
  let webSearchChanged :=
    strictNe (Known (Db.pricingWebSearch existingModel))
             (Prices.pricingWebSearch capabilities) in
  imageGenChanged || webSearchChanged.

(** [Boolean(MODEL_CAPABILITIES[id])]: an entry is an object and an
    inherited member a function or an object, so what the read finds is
    truthy whenever it finds something. *)
Definition inMapping (modelId : jsstring) : bool :=
  match readMapping modelId with
  | Entry _ | Inherited => true
  | NoMember => false
  end.

Definition unchangedModel (existingModel : Db.Model) : bool :=
  negb (changed existingModel).

(** [!MODEL_CAPABILITIES[existingModel.id]] *)
Definition unmapped (existingModel : Db.Model) : bool :=
  negb (inMapping (Db.id existingModel)).

(** A record carries the prices of the mapping for its id. *)
Definition carriesDesired (u : Update.t) : Prop :=
  Update.pricingImageGen u
    = Prices.pricingImageGen (getModelCapabilities (Update.id u)) /\
  Update.pricingWebSearch u
    = Prices.pricingWebSearch (getModelCapabilities (Update.id u)).

(** The three arrays the loop of [POST] fills. *)
Record Sorted : Type := {
  updates : list Update.t;
  unchanged : list jsstring;
  notInMapping : list jsstring
}.

(** The object pushed to [updates] for a model that changed. *)
Definition desiredUpdate (existingModel : Db.Model) : Update.t :=
  let capabilities := getModelCapabilities (Db.id existingModel) in
  {| Update.id := Db.id existingModel;
     Update.pricingImageGen := Prices.pricingImageGen capabilities;
     Update.pricingWebSearch := Prices.pricingWebSearch capabilities |}.

(** One round of the [for] loop of [POST]. *)
Definition sortModel (acc : Sorted) (existingModel : Db.Model) : Sorted :=
  let notInMapping' :=
    if unmapped existingModel
    then notInMapping acc ++ [Db.id existingModel]
    else notInMapping acc in
  if changed existingModel then
    {| updates := updates acc ++ [desiredUpdate existingModel];
       unchanged := unchanged acc;
       notInMapping := notInMapping' |}
  else
    {| updates := updates acc;
       unchanged := unchanged acc ++ [Db.id existingModel];
       notInMapping := notInMapping' |}.

Definition sortModels (existingModels : list Db.Model) : Sorted :=
  List.fold_left sortModel existingModels
    {| updates := []; unchanged := []; notInMapping := [] |}.

(** The [updateResult] of a run with nothing to update. *)
Definition nothingToUpdate : UpdateResult.t :=
  {| UpdateResult.total := 0; UpdateResult.successful := 0;
     UpdateResult.failed := 0; UpdateResult.errors := [] |}.

(** The [report] object of [POST]. *)
Definition postReport (existingModels : list Db.Model) (sorted : Sorted)
    (updateResult : UpdateResult.t) (timestamp : jsstring) : PostReport.t :=
  {| PostReport.success := true;
     PostReport.timestamp := timestamp;
     PostReport.source := js "static-mapping";
     PostReport.summary :=
       {| PostSummary.totalModels := List.length existingModels;
          PostSummary.inMapping := List.length MODEL_CAPABILITIES;
          PostSummary.updated := UpdateResult.successful updateResult;
          PostSummary.unchanged := List.length (unchanged sorted);
          PostSummary.notInMapping := List.length (notInMapping sorted);
          PostSummary.failed := UpdateResult.failed updateResult |};
     PostReport.details :=
       {| PostDetails.updated :=
            List.map (fun u =>
                        {| Update.id := Update.id u;
                           Update.pricingImageGen := Update.pricingImageGen u;
                           Update.pricingWebSearch := Update.pricingWebSearch u |})
                     (updates sorted);
          PostDetails.notInMapping := firstn 20 (notInMapping sorted);
          PostDetails.errors := UpdateResult.errors updateResult |} |}.

Section Handlers.

Context {W : Type} `{Ops W}.

(** The [try] block of [POST]. *)
Definition applySync : M W PostReport.t :=
  existingModels <- awaitGetEnabledModels ;;
  let sorted := sortModels existingModels in
  updateResult <-
    (if (0 <? List.length (updates sorted))%nat
     then awaitBulkUpdate (updates sorted)
     else ret nothingToUpdate) ;;
  timestamp <- now ;;
  ret (postReport existingModels sorted updateResult timestamp).

Definition POST (env : ProcessEnv) (request : Request) (sys : Sys W)
  : Response PostReport.t * Sys W :=
  match rejectRequest env request with
  | Some response => (response, sys)
  | None =>
      match applySync sys with
      | (inr report, sys') => (Json report, sys')
      | (inl error, sys') =>
          (ChatSDKError (js "bad_request:api")
             (js "Failed to sync capabilities: " ++ messageOf error), sys')
      end
  end.

End Handlers.

(** One round of the [for] loop of [GET]. *)
Definition previewModel (existingModel : Db.Model) : PreviewEntry.t :=
  let capabilities := getModelCapabilities (Db.id existingModel) in
  {| PreviewEntry.id := Db.id existingModel;
     PreviewEntry.current :=
       {| Capabilities.pricingImageGen := Db.pricingImageGen existingModel;
          Capabilities.pricingWebSearch := Db.pricingWebSearch existingModel |};
     PreviewEntry.new :=
       {| Prices.pricingImageGen := Prices.pricingImageGen capabilities;
          Prices.pricingWebSearch := Prices.pricingWebSearch capabilities |};
     PreviewEntry.willUpdate := changed existingModel;
     PreviewEntry.inMapping := inMapping (Db.id existingModel) |}.

(** The [preview] array once the loop of [GET] is through. *)
Definition previewModels (existingModels : list Db.Model) : list PreviewEntry.t :=
  List.fold_left (fun preview existingModel =>
                    preview ++ [previewModel existingModel])
                 existingModels [].

(** The body of the response of [GET]. *)
Definition getReport (preview : list PreviewEntry.t) (timestamp : jsstring)
  : GetReport.t :=
  {| GetReport.success := true;
     GetReport.timestamp := timestamp;
     GetReport.source := js "static-mapping";
     GetReport.mappingVersion := js "2026-01-05";
     GetReport.preview := preview;
     GetReport.summary :=
       {| GetSummary.total := List.length preview;
          GetSummary.willUpdate :=
            List.length (List.filter PreviewEntry.willUpdate preview);
          GetSummary.unchanged :=
            List.length
              (List.filter (fun p => negb (PreviewEntry.willUpdate p)) preview);
          GetSummary.inMapping :=
            List.length (List.filter PreviewEntry.inMapping preview);
          GetSummary.notInMapping :=
            List.length
              (List.filter (fun p => negb (PreviewEntry.inMapping p)) preview) |} |}.

Section Preview.

Context {W : Type} `{Ops W}.

(** The [try] block of [GET]. *)
Definition previewSync : M W GetReport.t :=
  existingModels <- awaitGetEnabledModels ;;
  let preview := previewModels existingModels in
  timestamp <- now ;;
  ret (getReport preview timestamp).

Definition GET (env : ProcessEnv) (request : Request) (sys : Sys W)
  : Response GetReport.t * Sys W :=
  match rejectRequest env request with
  | Some response => (response, sys)
  | None =>
      match previewSync sys with
      | (inr report, sys') => (Json report, sys')
      | (inl error, sys') =>
          (ChatSDKError (js "bad_request:api")
             (js "Failed to preview capabilities: " ++ messageOf error), sys')
      end
  end.

End Preview.

End SyncRoute.

(* ------------------------------------------------------------------ *)
(** ** The models sync route: [POST] copies the language models         *)
(* ------------------------------------------------------------------ *)

(** A model as the gateway lists it: the fields the route reads. A field
    that is [undefined] or [null] is [None]. *)
Module Gateway.
Import JS.

Record Pricing : Type := {
  input : option jsstring;
  output : option jsstring;
  imageGen : option jsstring;
  webSearch : option jsstring
}.

Record Model : Type := {
  id : jsstring;
  name : jsstring;
  description : option jsstring;
  modelType : option jsstring;
  pricing : option Pricing
}.

End Gateway.

(** A row the route hands to [upsertModels]: the columns of the table
    [Model] but [createdAt] and [updatedAt], which are the time of the
    call. *)
Module ModelRow.
Import JS.

Record t : Type := {
  id : jsstring;
  name : jsstring;
  provider : jsstring;
  description : option jsstring;
  modelType : jsstring;
  contextWindow : option number;
  pricingInput : option number;
  pricingOutput : option number;
  pricingImageGen : option number;
  pricingWebSearch : option number;
  isEnabled : bool
}.

End ModelRow.

Module ModelsRoute.
Import JS.

(** [s.split("/")[0]]: the text before the first slash, all of [s] when
    it has none. *)
Fixpoint firstSegment (s : jsstring) : jsstring :=
  match s with
  | [] => []
  | c :: t => if (c =? 47)%N then [] else c :: firstSegment t
  end.

(** Parse pricing values (they come as strings from Gateway API). *)
Definition parsePrice (price : option jsstring) : option number :=
  match price with
  | None | Some [] => None
  | Some price =>
      let parsed := parseFloat price in
      if Number_isNaN parsed then None else Some parsed
  end.

(** [pricing?.field] *)
Definition field (pricing : option Gateway.Pricing)
    (f : Gateway.Pricing -> option jsstring) : option jsstring :=
  match pricing with
  | Some p => f p
  | None => None
  end.

(** [m.modelType === "language"] *)
Definition isLanguage (m : Gateway.Model) : bool :=
  match Gateway.modelType m with
  | Some modelType => jsstring_eqb modelType (js "language")
  | None => false
  end.

(** The callback of [map]: a model of the gateway in the schema of the
    store. *)
Definition toRow (m : Gateway.Model) : ModelRow.t :=
  let pricing := Gateway.pricing m in
  {| ModelRow.id := Gateway.id m;
     ModelRow.name := Gateway.name m;
     ModelRow.provider := firstSegment (Gateway.id m);
     ModelRow.description := Gateway.description m;
     ModelRow.modelType :=
       match Gateway.modelType m with
       | Some modelType => modelType
       | None => js "language"
       end;
     ModelRow.contextWindow := None;
     ModelRow.pricingInput := parsePrice (field pricing Gateway.input);
     ModelRow.pricingOutput := parsePrice (field pricing Gateway.output);
     ModelRow.pricingImageGen := parsePrice (field pricing Gateway.imageGen);
     ModelRow.pricingWebSearch := parsePrice (field pricing Gateway.webSearch);
     ModelRow.isEnabled := true |}.

(** Filter to only language models and transform to our schema. *)
Definition languageModels (models : list Gateway.Model) : list ModelRow.t :=
  List.map toRow (List.filter isLanguage models).

(** What the handler awaits: the gateway, created with an API key, and
    the upsert of [lib/db/queries], over the state [W] of whatever lies
    behind them. Either may reject. *)
Class Ops (W : Type) : Type := {
  getAvailableModels : jsstring -> W -> thrown + list Gateway.Model;
  upsertModels : list ModelRow.t -> W -> option thrown * W
}.

(** A run of the handler: the state behind the two calls and the batches
    handed to [upsertModels] so far, oldest first. *)
Record Sys (W : Type) : Type := {
  world : W;
  upserts : list (list ModelRow.t)
}.

Definition start {W : Type} (w : W) : Sys W := {| world := w; upserts := [] |}.

Record ProcessEnv : Type := {
  MODELS_SYNC_API_KEY : option jsstring;
  AI_GATEWAY_API_KEY : option jsstring
}.

(** The body of the response: [{ success: true, count }]. *)
Record Report : Type := { success : bool; count : nat }.

Section Handler.

Context {W : Type} `{Ops W}.

(** The [try] block of [POST]; what it writes to the console is left
    out. The gateway is created with [AI_GATEWAY_API_KEY], or with the
    empty key when the variable is not set. *)
Definition syncModels (env : ProcessEnv) (sys : Sys W) : (thrown + Report) * Sys W :=
  let apiKey :=
    match AI_GATEWAY_API_KEY env with Some key => key | None => [] end in
  match getAvailableModels apiKey (world sys) with
  | inl error => (inl error, sys)
  | inr models =>
      let languageModels := languageModels models in
      let '(thrown, w') := upsertModels languageModels (world sys) in
      let sys' := {| world := w'; upserts := upserts sys ++ [languageModels] |} in
      match thrown with
      | Some error => (inl error, sys')
      | None =>
          (inr {| success := true; count := List.length languageModels |}, sys')
      end
  end.

Definition POST (env : ProcessEnv) (request : SyncRoute.Request) (sys : Sys W)
  : SyncRoute.Response Report * Sys W :=
  match SyncRoute.rejectRequest
          {| SyncRoute.MODELS_SYNC_API_KEY := MODELS_SYNC_API_KEY env |} request with
  | Some response => (response, sys)
  | None =>
      match syncModels env sys with
      | (inr report, sys') => (SyncRoute.Json report, sys')
      | (inl error, sys') =>
          (SyncRoute.ChatSDKError (js "bad_request:api")
             (js "Failed to sync models from gateway: " ++ messageOf error), sys')
      end
  end.

End Handler.

End ModelsRoute.

(* ------------------------------------------------------------------ *)
(** ** [components/multimodal-input.tsx]: the capability buttons        *)
(* ------------------------------------------------------------------ *)

Module MultimodalInput.
Import JS.

(** [status] of the chat. *)
Inductive status : Type := submitted | streaming | ready | error.

(** [models?.find((m) => m.id === selectedModelId)]; [models] is
    [undefined] ([None]) until the list of models is loaded. A
    [ChatModel] has the columns of a row of the store. *)
Definition selectedModel (models : option (list Db.Model))
    (selectedModelId : jsstring) : option Db.Model :=
  match models with
  | Some models => List.find (fun m => jsstring_eqb (Db.id m) selectedModelId) models
  | None => None
  end.

(** [selectedModel?.pricingWebSearch !== null]: of no model the price is
    [undefined], which is not [null]. *)
Definition supportsWebSearch (models : option (list Db.Model))
    (selectedModelId : jsstring) : bool :=
  match selectedModel models selectedModelId with
  | Some m => match Db.pricingWebSearch m with Some _ => true | None => false end
  | None => true
  end.

(** [selectedModel?.pricingImageGen !== null] *)
Definition supportsImageGen (models : option (list Db.Model))
    (selectedModelId : jsstring) : bool :=
  match selectedModel models selectedModelId with
  | Some m => match Db.pricingImageGen m with Some _ => true | None => false end
  | None => true
  end.

Definition isReasoningModel (selectedModelId : jsstring) : bool :=
  includes selectedModelId (js "reasoning") || includes selectedModelId (js "think").

Definition isReady (s : status) : bool :=
  match s with ready => true | _ => false end.

(** The [disabled] attribute of the button of [PureWebSearchButton]. *)
Definition webSearchDisabled (s : status) (models : option (list Db.Model))
    (selectedModelId : jsstring) : bool :=
  negb (isReady s) || negb (supportsWebSearch models selectedModelId)
  || isReasoningModel selectedModelId.

(** The [disabled] attribute of the button of [PureImageGenButton]. *)
Definition imageGenDisabled (s : status) (models : option (list Db.Model))
    (selectedModelId : jsstring) : bool :=
  negb (isReady s) || negb (supportsImageGen models selectedModelId)
  || isReasoningModel selectedModelId.

End MultimodalInput.

(* ------------------------------------------------------------------ *)
(** ** A store to run the handlers against                             *)
(* ------------------------------------------------------------------ *)

Module ListStore.
Import JS.

(** Modelled from the spec: the queries [getEnabledModels] and
    [bulkUpdateModelCapabilities] of [lib/db/queries], which the route
    imports and the sources at hand do not contain. The spec gives them
    as [getCurrentModels() -> sequence of ModelCapabilityRecord], a read
    of the durable store, and [bulkUpsertCapabilities(records) ->
    {total, successful, failed, errors}], a durable write with
    per-record success reporting, all-or-nothing per record and not
    transactional across records; an unreachable store makes a query
    fail as a whole. Here the store is the list of its rows, [rejects]
    says which records it refuses and with which description, and
    [unreachable] holds the error every query throws when it is down. *)
Record t : Type := {
  rows : list Db.Model;
  rejects : Update.t -> option jsstring;
  unreachable : option thrown;
  clock : jsstring
}.

(** Modelled from the spec: the batch goes record by record; a refused
    record counts as failed and adds its description to the errors, the
    others are written. *)
Fixpoint bulk (rejects : Update.t -> option jsstring) (us : list Update.t)
    (rows : list Db.Model) (done : UpdateResult.t) : UpdateResult.t * list Db.Model :=
  match us with
  | [] => (done, rows)
  | u :: us' =>
      match rejects u with
      | Some description =>
          bulk rejects us' rows
            {| UpdateResult.total := UpdateResult.total done;
               UpdateResult.successful := UpdateResult.successful done;
               UpdateResult.failed := S (UpdateResult.failed done);
               UpdateResult.errors := UpdateResult.errors done ++ [description] |}
      | None =>
          bulk rejects us' (Update.write u rows)
            {| UpdateResult.total := UpdateResult.total done;
               UpdateResult.successful := S (UpdateResult.successful done);
               UpdateResult.failed := UpdateResult.failed done;
               UpdateResult.errors := UpdateResult.errors done |}
      end
  end.

(** Modelled from the spec: the two queries over this store. *)
#[export] Instance ops : Store.Ops t := {
  Store.getEnabledModels w :=
    match unreachable w with
    | Some error => inl error
    | None => inr (rows w)
    end;
  Store.bulkUpdateModelCapabilities us w :=
    match unreachable w with
    | Some error => (inl error, w)
    | None =>
        let '(result, rows') :=
          bulk (rejects w) us (rows w)
               {| UpdateResult.total := List.length us;
                  UpdateResult.successful := 0;
                  UpdateResult.failed := 0;
                  UpdateResult.errors := [] |} in
        (inr result,
         {| rows := rows'; rejects := rejects w;
            unreachable := unreachable w; clock := clock w |})
    end;
  Store.toISOString w := clock w
}.

(** The records of a batch the store takes. *)
Definition accepted (w : t) (us : list Update.t) : list Update.t :=
  List.filter (fun u => match rejects w u with None => true | Some _ => false end) us.

End ListStore.

(* ------------------------------------------------------------------ *)
(** ** Concrete runs                                                   *)
(* ------------------------------------------------------------------ *)

Module Scenario.
Import JS.

Definition model (modelId : string) (imageGen webSearch : option number) : Db.Model :=
  {| Db.id := js modelId; Db.pricingImageGen := imageGen;
     Db.pricingWebSearch := webSearch |}.

Definition env : SyncRoute.ProcessEnv :=
  {| SyncRoute.MODELS_SYNC_API_KEY := Some (js "secret") |}.

Definition request : SyncRoute.Request :=
  {| SyncRoute.x_api_key := Some (js "secret") |}.

Definition store (rows : list Db.Model) (rejects : Update.t -> option jsstring)
  : ListStore.t :=
  {| ListStore.rows := rows; ListStore.rejects := rejects;
     ListStore.unreachable := None;
     ListStore.clock := js "2026-01-05T00:00:00.000Z" |}.

Definition accepting (u : Update.t) : option jsstring := None.

Definition rejecting (u : Update.t) : option jsstring :=
  Some (js "Failed to update " ++ Update.id u).

Definition rejectingSonar (u : Update.t) : option jsstring :=
  if jsstring_eqb (Update.id u) (js "perplexity/sonar") then rejecting u else None.

(** The model of the scenarios of the spec: no price stored yet. *)
Definition gpt4o : Db.Model := model "openai/gpt-4o" None None.

Definition threeStale : list Db.Model :=
  [gpt4o; model "xai/grok-3" None None; model "perplexity/sonar" None None].

(** The link of the scenario of the spec: the attribute [href] with the
    path of the model [gemini-3-flash] between double quotes. *)
Definition geminiLink : jsstring :=
  js "href=" ++ Scraper.quot :: js "/ai-gateway/models/gemini-3-flash"
     ++ [Scraper.quot].

(** The record the spec expects for it. *)
Definition geminiRecord : Scraper.ScrapedModelCapabilities :=
  {| Scraper.id := VString (js "google/gemini-3-flash");
     Scraper.pricingImageGen := Some (lit "0.02");
     Scraper.pricingWebSearch := None |}.

(** A row with that link and the text [Image Gen $0.02]. *)
Definition geminiRow : jsstring :=
  js "<tr><td><a " ++ geminiLink
     ++ js ">Gemini 3 Flash</a></td><td>Image Gen $0.02</td></tr>".

(** The same row with a class on its first cell. *)
Definition nowrapRow : jsstring :=
  js "<tr><td class=" ++ Scraper.quot :: js "nowrap" ++ Scraper.quot
     :: js "><a " ++ geminiLink
     ++ js ">Gemini 3 Flash</a></td><td>Image Gen $0.02</td></tr>".

(** Twenty-one models the mapping does not know: [local/m0] to
    [local/m20]. *)
Definition strangers : list Db.Model :=
  List.map (fun n => {| Db.id := js "local/m" ++ natToString (N.of_nat n);
                        Db.pricingImageGen := None;
                        Db.pricingWebSearch := None |})
           (List.seq 0 21).

(** A row for the model [gpt-5-nano], with a price for image
    generation. *)
Definition nanoRow : jsstring :=
  js "<tr><td><a href=" ++ Scraper.quot :: js "/ai-gateway/models/gpt-5-nano"
     ++ Scraper.quot :: js ">GPT-5</a></td><td>Image Gen $0.02</td></tr>".

(** The page payload with the array [items] at [props.pageProps.models]. *)
Definition pageWith (items : list value) : value :=
  VObject [(js "props",
            VObject [(js "pageProps", VObject [(js "models", VArray items)])])].

(** A page that carries a payload and no table; a response with it. *)
Definition payloadPage : jsstring :=
  js "<html><script id=" ++ Scraper.quot :: js "__NEXT_DATA__" ++ Scraper.quot
     :: js ">{}</script></html>".

Definition payloadResponse : Scraper.Response :=
  {| Scraper.status := 200; Scraper.statusText := js "OK";
     Scraper.text := inr payloadPage |}.

(** Three models of a gateway: two language models and one for
    embeddings. *)
Definition catalogue : list Gateway.Model :=
  [{| Gateway.id := js "openai/gpt-4o"; Gateway.name := js "GPT-4o";
      Gateway.description := None; Gateway.modelType := Some (js "language");
      Gateway.pricing :=
        Some {| Gateway.input := Some (js "0.0000025");
                Gateway.output := Some (js "0.00001");
                Gateway.imageGen := Some (js "0.02");
                Gateway.webSearch := None |} |};
   {| Gateway.id := js "openai/text-embedding-3-small";
      Gateway.name := js "text-embedding-3-small";
      Gateway.description := None; Gateway.modelType := Some (js "embedding");
      Gateway.pricing := None |};
   {| Gateway.id := js "xai/grok-3"; Gateway.name := js "Grok 3";
      Gateway.description := Some (js "xAI flagship");
      Gateway.modelType := Some (js "language");
      Gateway.pricing :=
        Some {| Gateway.input := Some (js "0.000003");
                Gateway.output := Some (js "");
                Gateway.imageGen := None;
                Gateway.webSearch := Some (js "free") |} |}].

(** A gateway that lists [catalogue] and a store that keeps the rows of
    the last upsert. *)
Definition gateway : ModelsRoute.Ops (list ModelRow.t) :=
  {| ModelsRoute.getAvailableModels := fun _ _ => inr catalogue;
     ModelsRoute.upsertModels := fun rows _ => (None, rows) |}.

(** A gateway that cannot be reached. *)
Definition gatewayDown : ModelsRoute.Ops (list ModelRow.t) :=
  {| ModelsRoute.getAvailableModels :=
       fun _ _ => inl (Error (js "fetch failed"));
     ModelsRoute.upsertModels := fun rows _ => (None, rows) |}.

Definition modelsEnv : ModelsRoute.ProcessEnv :=
  {| ModelsRoute.MODELS_SYNC_API_KEY := Some (js "secret");
     ModelsRoute.AI_GATEWAY_API_KEY := None |}.

(** Rows named after members of [Object.prototype], without prices. *)
Definition constructorRow : Db.Model := model "constructor" None None.

Definition prototypeRows : list Db.Model :=
  [constructorRow; model "toString" None None; model "__proto__" None None].

(** The model [openai/gpt-4o] with the prices of the mapping. *)
Definition gpt4oSynced : Db.Model := model "openai/gpt-4o" (Some (lit "0.02")) None.

(** A store that cannot be reached. *)
Definition down : ListStore.t :=
  {| ListStore.rows := [gpt4o]; ListStore.rejects := accepting;
     ListStore.unreachable := Some (Error (js "connection refused"));
     ListStore.clock := [] |}.

(** A store that answers the read with its rows and fails every write. *)
Definition readOnly : Store.Ops (list Db.Model) :=
  {| Store.getEnabledModels := fun rows => inr rows;
     Store.bulkUpdateModelCapabilities :=
       fun _ rows => (inl (Error (js "cannot execute UPDATE in a read-only transaction")), rows);
     Store.toISOString := fun _ => js "2026-01-05T00:00:00.000Z" |}.

(** A model the mapping does not know, with a price left in the store. *)
Definition retired : Db.Model := model "local/retired" (Some (lit "0.02")) None.

End Scenario.

(* ================================================================== *)
(** * Part II: properties                                              *)
(* ================================================================== *)

Unset Implicit Arguments.

Module NumberFacts.
Import JS.

Lemma jsstring_eqb_eq (a b : jsstring) : jsstring_eqb a b = true <-> a = b.
Proof.
  revert b; induction a as [|x a IH]; intros [|y b]; simpl;
    try (split; [discriminate | congruence]); [tauto|].
  rewrite andb_true_iff, N.eqb_eq, IH.
  split; [intros [-> ->]; reflexivity | intros E; inversion E; auto].
Qed.

Lemma jsstring_eqb_refl (a : jsstring) : jsstring_eqb a a = true.
Proof. apply jsstring_eqb_eq; reflexivity. Qed.

(** Strict equality with a finite number other than zero holds for that
    very number only. *)
Lemma number_eqb_finite (x y : number) :
  finiteNonZero y = true -> (number_eqb x y = true <-> x = y).
Proof.
  destruct y as [| | |sy my ey]; try discriminate; intros _.
  unfold number_eqb, SFeqb.
  destruct x as [sx|sx| |sx mx ex]; simpl;
    try (split; [discriminate | congruence]).
  - destruct sy; split; (discriminate || congruence).
  - destruct sx; split; (discriminate || congruence).
  - change (PosDef.Pos.compare_cont Eq mx my) with (Pos.compare mx my).
    destruct sx, sy; try (split; [discriminate | congruence]);
      destruct (Z.compare_spec ex ey) as [->| |];
      try (split; [discriminate | intros E; inversion E; lia]);
      destruct (Pos.compare_spec mx my) as [->| |]; simpl;
      try (split; [discriminate | intros E; inversion E; lia]);
      split; reflexivity.
Qed.

Lemma number_eqb_NaN (x : number) : number_eqb x NaN = false /\ number_eqb NaN x = false.
Proof. destruct x as [s|s| |s m e]; split; reflexivity. Qed.

(** Strict equality of two numbers: they are the same number, the two
    zeros counting as one. *)
Lemma number_eqb_true (x y : number) :
  number_eqb x y = true ->
  x = y \/ (exists sx sy, x = S754_zero sx /\ y = S754_zero sy).
Proof.
  destruct y as [sy|sy| |sy my ey].
  - destruct x as [sx|sx| |sx mx ex]; try discriminate.
    + intros _. right. exists sx, sy. split; reflexivity.
    + destruct sx; discriminate.
    + destruct sx; discriminate.
  - destruct x as [sx|sx| |sx mx ex]; try discriminate.
    + destruct sy; discriminate.
    + destruct sx, sy; try discriminate; intros _; left; reflexivity.
    + destruct sy; discriminate.
  - intros H. change S754_nan with NaN in H.
    rewrite (proj1 (number_eqb_NaN x)) in H. discriminate.
  - intros H. left. apply (number_eqb_finite x (S754_finite sy my ey) eq_refl), H.
Qed.

(** Two numbers of the scenarios, as binary64 values. *)
Lemma lit_0_02 : lit "0.02" = S754_finite false 5764607523034235 (-58).
Proof. vm_compute. reflexivity. Qed.

Lemma lit_1234_5 : lit "1234.5" = S754_finite false 5429388417957888 (-42).
Proof. vm_compute. reflexivity. Qed.

(** The parser agrees with the literals of the proof assistant, which
    are read by correct rounding as well. *)
Lemma lit_agrees_with_primitive_floats :
  lit "0.02" = Prim2SF 0x1.47ae147ae147bp-6%float /\
  lit "0.025" = Prim2SF 0x1.999999999999ap-6%float /\
  lit "0.05" = Prim2SF 0x1.999999999999ap-5%float /\
  lit "0.005" = Prim2SF 0x1.47ae147ae147bp-8%float /\
  lit "1234.5" = Prim2SF 1234.5%float /\
  lit "0" = Prim2SF 0%float.
Proof. vm_compute. repeat split. Qed.

End NumberFacts.

Module MappingFacts.
Import JS Capabilities NumberFacts.

Lemma lookup_In (A : Type) (o : list (jsstring * A)) (key : jsstring) (v : A) :
  lookup o key = Some v -> In (key, v) o.
Proof.
  induction o as [|[k x] o IH]; simpl; [discriminate|].
  destruct (jsstring_eqb k key) eqn:E.
  - apply jsstring_eqb_eq in E. intros [= ->]. left; congruence.
  - auto.
Qed.

(** Every price of the mapping is a finite number other than zero. *)
Lemma mapping_priced :
  forall key c, In (key, c) MODEL_CAPABILITIES -> wellPriced c = true.
Proof.
  assert (E : forallb (fun e => wellPriced (snd e)) MODEL_CAPABILITIES = true)
    by (vm_compute; reflexivity).
  rewrite forallb_forall in E. intros key c HIn. exact (E _ HIn).
Qed.

Lemma isInherited_In (key : jsstring) :
  isInherited key = true <-> In key inheritedKeys.
Proof.
  unfold isInherited. rewrite existsb_exists. split.
  - intros [k [Hk E]]. apply jsstring_eqb_eq in E. subst k. exact Hk.
  - intros Hk. exists key. split; [exact Hk | apply jsstring_eqb_refl].
Qed.

(** No key of the mapping is the name of an inherited member. *)
Lemma keys_not_inherited (key : jsstring) (c : ModelCapabilities) :
  lookup MODEL_CAPABILITIES key = Some c -> isInherited key = false.
Proof.
  intros H. apply lookup_In in H.
  assert (E : forallb (fun e => negb (isInherited (fst e))) MODEL_CAPABILITIES = true)
    by (vm_compute; reflexivity).
  rewrite forallb_forall in E. specialize (E _ H). cbn [fst] in E.
  apply negb_true_iff in E. exact E.
Qed.

(** The three things the read of the mapping can find. *)
Lemma readMapping_cases (modelId : jsstring) :
  (exists c, lookup MODEL_CAPABILITIES modelId = Some c /\
             readMapping modelId = Entry c /\ wellPriced c = true) \/
  (lookup MODEL_CAPABILITIES modelId = None /\ isInherited modelId = true /\
   readMapping modelId = Inherited) \/
  (lookup MODEL_CAPABILITIES modelId = None /\ isInherited modelId = false /\
   readMapping modelId = NoMember).
Proof.
  unfold readMapping.
  destruct (lookup MODEL_CAPABILITIES modelId) as [c|] eqn:E.
  - left. exists c. repeat split. eapply mapping_priced, lookup_In, E.
  - destruct (isInherited modelId); [right; left | right; right]; repeat split.
Qed.

(** A number the lookup gives for a price is finite and not zero. *)
Lemma getModelCapabilities_priced (modelId : jsstring) :
  (forall x, Prices.pricingImageGen (getModelCapabilities modelId) = Known (Some x) ->
             finiteNonZero x = true) /\
  (forall x, Prices.pricingWebSearch (getModelCapabilities modelId) = Known (Some x) ->
             finiteNonZero x = true).
Proof.
  unfold getModelCapabilities.
  destruct (readMapping_cases modelId)
    as [[c [_ [-> Hc]]] | [[_ [_ ->]] | [_ [_ ->]]]];
    cbn [Prices.pricingImageGen Prices.pricingWebSearch];
    try (split; intros x H; discriminate H).
  unfold wellPriced, priced in Hc. apply andb_true_iff in Hc as [Hi Hw].
  split; intros x H; injection H as E;
    [rewrite E in Hi; exact Hi | rewrite E in Hw; exact Hw].
Qed.

(** For an id that names no inherited member the lookup gives two
    prices that are a number or [null]. *)
Lemma getModelCapabilities_known (modelId : jsstring) :
  isInherited modelId = false ->
  exists a b,
    getModelCapabilities modelId
    = {| Prices.pricingImageGen := Known a; Prices.pricingWebSearch := Known b |}.
Proof.
  intros Hn. unfold getModelCapabilities.
  destruct (readMapping_cases modelId)
    as [[c [_ [-> _]]] | [[_ [Hi _]] | [_ [_ ->]]]]; eauto; congruence.
Qed.

(** For the name of an inherited member it gives [undefined] twice. *)
Lemma getModelCapabilities_inherited (modelId : jsstring) :
  isInherited modelId = true ->
  getModelCapabilities modelId
  = {| Prices.pricingImageGen := Undefined; Prices.pricingWebSearch := Undefined |}.
Proof.
  intros Hi. unfold getModelCapabilities.
  destruct (readMapping_cases modelId)
    as [[c [Hc _]] | [[_ [_ ->]] | [_ [Hn _]]]]; [|reflexivity|congruence].
  rewrite (keys_not_inherited _ _ Hc) in Hi. discriminate.
Qed.

Lemma mapping_has_20_entries : List.length MODEL_CAPABILITIES = 20.
Proof. reflexivity. Qed.

Lemma mapping_keys_distinct : NoDup (List.map fst MODEL_CAPABILITIES).
Proof.
  assert (E : forall l : list jsstring,
             (fix distinct (l : list jsstring) : bool :=
                match l with
                | [] => true
                | k :: l' => negb (existsb (jsstring_eqb k) l') && distinct l'
                end) l = true -> NoDup l).
  { induction l as [|k l IH]; [constructor|].
    rewrite andb_true_iff, negb_true_iff. intros [Hk Hl].
    constructor; [|auto]. intros HIn.
    assert (existsb (jsstring_eqb k) l = true) as Hx
      by (apply existsb_exists; exists k; split; [exact HIn | apply jsstring_eqb_refl]).
    congruence. }
  apply E. vm_compute. reflexivity.
Qed.

(** The ids with an image generation price come in the order of the
    mapping: the six of OpenAI, then the six of Google. *)
Lemma models_with_image_generation :
  getModelsWithCapability imageGen
  = List.map js ["openai/gpt-5"; "openai/gpt-5-chat"; "openai/gpt-5-mini";
                 "openai/gpt-5.2"; "openai/gpt-4o"; "openai/gpt-4o-mini";
                 "google/gemini-2.5-flash"; "google/gemini-2.5-flash-lite";
                 "google/gemini-2.5-pro"; "google/gemini-3-flash";
                 "google/gemini-3-pro-preview"; "google/gemini-3-pro-image"]%string.
Proof. vm_compute. reflexivity. Qed.

End MappingFacts.

Module SyncFacts.
Import JS Store SyncRoute NumberFacts MappingFacts.
Import Capabilities(MODEL_CAPABILITIES, getModelCapabilities, priced, wellPriced).
Import Capabilities(readMapping, isInherited, inheritedKeys, Entry, Inherited, NoMember).
Import (hints) ListStore.

(** Against a price the lookup gives, [!==] is plain difference. *)
Lemma strictNe_priced (a : option number) (d : optional) :
  (forall x, d = Known (Some x) -> finiteNonZero x = true) ->
  (strictNe (Known a) d = false <-> Known a = d).
Proof.
  destruct d as [|[y|]], a as [x|]; cbn [strictNe]; intros Hd;
    try (split; [discriminate | congruence]); [|tauto].
  rewrite negb_false_iff, (number_eqb_finite x y (Hd y eq_refl)).
  split; congruence.
Qed.

Lemma changed_false_iff (m : Db.Model) :
  changed m = false <->
  Known (Db.pricingImageGen m)
    = Prices.pricingImageGen (getModelCapabilities (Db.id m)) /\
  Known (Db.pricingWebSearch m)
    = Prices.pricingWebSearch (getModelCapabilities (Db.id m)).
Proof.
  unfold changed. rewrite orb_false_iff.
  destruct (getModelCapabilities_priced (Db.id m)) as [Hi Hw].
  rewrite (strictNe_priced _ _ Hi), (strictNe_priced _ _ Hw). tauto.
Qed.

(** A row named after an inherited member always counts as changed, and
    the record pushed for it has no price at all. *)
Lemma inherited_name_is_always_changed (m : Db.Model) :
  In (Db.id m) inheritedKeys ->
  changed m = true /\ inMapping (Db.id m) = true /\
  desiredUpdate m
  = {| Update.id := Db.id m; Update.pricingImageGen := Undefined;
       Update.pricingWebSearch := Undefined |}.
Proof.
  intros Hin. apply isInherited_In in Hin.
  unfold changed, desiredUpdate, inMapping.
  rewrite (getModelCapabilities_inherited _ Hin).
  destruct (readMapping_cases (Db.id m))
    as [[c [Hc _]] | [[_ [_ ->]] | [_ [Hn _]]]]; [| |congruence].
  - rewrite (keys_not_inherited _ _ Hc) in Hin. discriminate.
  - split; [|split; reflexivity].
    cbn [Prices.pricingImageGen]. destruct (Db.pricingImageGen m); reflexivity.
Qed.

(** What [!MODEL_CAPABILITIES[id]] tests: neither an entry nor an
    inherited member. *)
Lemma unmapped_iff (m : Db.Model) :
  unmapped m = true <->
  lookup MODEL_CAPABILITIES (Db.id m) = None /\ ~ In (Db.id m) inheritedKeys.
Proof.
  unfold unmapped, inMapping. rewrite <- isInherited_In.
  destruct (readMapping_cases (Db.id m))
    as [[c [Hc [-> _]]] | [[Hc [Hi ->]] | [Hc [Hn ->]]]]; cbn [negb].
  - split; [discriminate | intros [H _]; congruence].
  - split; [discriminate | intros [_ H]; contradiction].
  - split; [intros _; split; [exact Hc | congruence] | reflexivity].
Qed.

(** What [Boolean(MODEL_CAPABILITIES[id])] tests: an entry or an
    inherited member, never both. *)
Lemma inMapping_split (modelId : jsstring) :
  inMapping modelId
  = match lookup MODEL_CAPABILITIES modelId with Some _ => true | None => false end
    || isInherited modelId /\
  (match lookup MODEL_CAPABILITIES modelId with Some _ => true | None => false end
   && isInherited modelId = false).
Proof.
  unfold inMapping.
  destruct (readMapping_cases modelId)
    as [[c [Hc [-> _]]] | [[Hc [Hi ->]] | [Hc [Hn ->]]]]; rewrite Hc.
  - rewrite (keys_not_inherited _ _ Hc). split; reflexivity.
  - rewrite Hi. split; reflexivity.
  - rewrite Hn. split; reflexivity.
Qed.

Lemma sortModels_from (ms : list Db.Model) (acc : Sorted) :
  List.fold_left sortModel ms acc =
  {| updates := updates acc ++ List.map desiredUpdate (List.filter changed ms);
     unchanged := unchanged acc ++ List.map Db.id (List.filter unchangedModel ms);
     notInMapping := notInMapping acc ++ List.map Db.id (List.filter unmapped ms) |}.
Proof.
  revert acc; induction ms as [|m ms IH]; intros acc; simpl.
  - rewrite !app_nil_r. destruct acc; reflexivity.
  - rewrite IH. unfold sortModel, unchangedModel, unmapped.
    destruct (changed m), (inMapping (Db.id m)); simpl;
      rewrite <- ?app_assoc; reflexivity.
Qed.

Lemma sortModels_spec (ms : list Db.Model) :
  sortModels ms =
  {| updates := List.map desiredUpdate (List.filter changed ms);
     unchanged := List.map Db.id (List.filter unchangedModel ms);
     notInMapping := List.map Db.id (List.filter unmapped ms) |}.
Proof. unfold sortModels. rewrite sortModels_from. reflexivity. Qed.
Lemma authorized_passes (B : Type) (env : ProcessEnv) (request : Request) :
  authorized env request = true -> @rejectRequest B env request = None.
Proof.
  unfold authorized, rejectRequest.
  destruct (MODELS_SYNC_API_KEY env) as [[|c k]|]; try discriminate.
  destruct (x_api_key request) as [key|]; [|discriminate].
  intros ->. reflexivity.
Qed.

Lemma copy_updates (us : list Update.t) :
  List.map (fun u => {| Update.id := Update.id u;
                        Update.pricingImageGen := Update.pricingImageGen u;
                        Update.pricingWebSearch := Update.pricingWebSearch u |}) us = us.
Proof. induction us as [|[i a b] us IH]; simpl; [|rewrite IH]; reflexivity. Qed.

Section Runs.
Context {W : Type} {ops : Ops W}.

(** What the [try] block of [POST] does once the models are read. *)
Lemma applySync_run (sys : Sys W) (ms : list Db.Model) :
  getEnabledModels (world sys) = inr ms ->
  applySync sys =
  match List.filter changed ms with
  | [] => (inr (postReport ms (sortModels ms) nothingToUpdate
                           (toISOString (world sys))), sys)
  | _ :: _ =>
      match bulkUpdateModelCapabilities (updates (sortModels ms)) (world sys) with
      | (inr result, w') =>
          (inr (postReport ms (sortModels ms) result (toISOString w')),
           {| world := w'; bulkCalls := bulkCalls sys ++ [updates (sortModels ms)] |})
      | (inl error, w') =>
          (inl error,
           {| world := w'; bulkCalls := bulkCalls sys ++ [updates (sortModels ms)] |})
      end
  end.
Proof.
  intros Hread.
  assert (Hlen : (0 <? List.length (updates (sortModels ms)))%nat =
                 match List.filter changed ms with [] => false | _ :: _ => true end).
  { rewrite sortModels_spec. cbn [updates].
    destruct (List.filter changed ms); reflexivity. }
  unfold applySync, bind, awaitGetEnabledModels. rewrite Hread, Hlen.
  destruct (List.filter changed ms) as [|m l].
  - reflexivity.
  - unfold awaitBulkUpdate.
    destruct (bulkUpdateModelCapabilities (updates (sortModels ms)) (world sys))
      as [[error|result] w']; reflexivity.
Qed.

Lemma POST_run (env : ProcessEnv) (request : Request) (sys : Sys W) :
  authorized env request = true ->
  POST env request sys =
  match applySync sys with
  | (inr report, sys') => (Json report, sys')
  | (inl error, sys') =>
      (ChatSDKError (js "bad_request:api")
         (js "Failed to sync capabilities: " ++ messageOf error), sys')
  end.
Proof. intros Ha. unfold POST. rewrite (authorized_passes _ _ _ Ha). reflexivity. Qed.

Lemma previewModels_map (ms : list Db.Model) :
  previewModels ms = List.map previewModel ms.
Proof.
  unfold previewModels.
  enough (forall acc, List.fold_left
            (fun preview existingModel => preview ++ [previewModel existingModel])
            ms acc = acc ++ List.map previewModel ms) as E by apply E.
  induction ms as [|m ms IH]; intros acc; simpl.
  - rewrite app_nil_r; reflexivity.
  - rewrite IH, <- app_assoc. reflexivity.
Qed.

Lemma GET_run (env : ProcessEnv) (request : Request) (sys : Sys W) (ms : list Db.Model) :
  authorized env request = true ->
  getEnabledModels (world sys) = inr ms ->
  GET env request sys =
  (Json (getReport (List.map previewModel ms) (toISOString (world sys))), sys).
Proof.
  intros Ha Hread. unfold GET. rewrite (authorized_passes _ _ _ Ha).
  unfold previewSync, bind, awaitGetEnabledModels. rewrite Hread.
  rewrite previewModels_map. reflexivity.
Qed.

End Runs.
Lemma writeAll_map (us : list Update.t) (rows : list Db.Model) :
  Update.writeAll us rows =
  List.map (fun m => List.fold_left
                       (fun m u => Db.write1 (Update.id u) (Update.pricingImageGen u)
                                             (Update.pricingWebSearch u) m) us m) rows.
Proof.
  unfold Update.writeAll. revert rows; induction us as [|u us IH]; intros rows; simpl.
  - rewrite map_id; reflexivity.
  - rewrite IH. unfold Update.write. rewrite map_map. reflexivity.
Qed.

Lemma write1_id uid a b m : Db.id (Db.write1 uid a b m) = Db.id m.
Proof. unfold Db.write1. destruct (jsstring_eqb (Db.id m) uid); reflexivity. Qed.

(** Writing the record of the mapping for a row whose lookup gives
    prices leaves no difference with the mapping. *)
Lemma written_row_agrees (u : Update.t) (m : Db.Model) (a b : option number) :
  carriesDesired u ->
  Db.id m = Update.id u ->
  getModelCapabilities (Db.id m)
    = {| Prices.pricingImageGen := Known a; Prices.pricingWebSearch := Known b |} ->
  changed {| Db.id := Db.id m;
             Db.pricingImageGen :=
               Db.column (Update.pricingImageGen u) (Db.pricingImageGen m);
             Db.pricingWebSearch :=
               Db.column (Update.pricingWebSearch u) (Db.pricingWebSearch m) |}
  = false.
Proof.
  intros [Hi Hw] Hid Hget. apply changed_false_iff.
  cbn [Db.id Db.pricingImageGen Db.pricingWebSearch].
  rewrite Hi, Hw, <- Hid, Hget. cbn. split; reflexivity.
Qed.

(** Writing records of the mapping into a row leaves no difference with
    the mapping, provided the row agreed already, or one record is for
    it and its id names no inherited member. *)
Lemma written_row_unchanged (us : list Update.t) (m : Db.Model) :
  Forall carriesDesired us ->
  changed m = false \/
  (isInherited (Db.id m) = false /\ exists u, In u us /\ Update.id u = Db.id m) ->
  changed (List.fold_left
             (fun m u => Db.write1 (Update.id u) (Update.pricingImageGen u)
                                   (Update.pricingWebSearch u) m) us m) = false.
Proof.
  intros Hus; revert m; induction Hus as [|u us Hu Hus IH]; intros m Hm; simpl.
  - destruct Hm as [Hm|[_ [u [[] _]]]]; exact Hm.
  - apply IH. unfold Db.write1.
    destruct (jsstring_eqb (Db.id m) (Update.id u)) eqn:E.
    + left. apply jsstring_eqb_eq in E.
      assert (Hk : exists a b,
                getModelCapabilities (Db.id m)
                = {| Prices.pricingImageGen := Known a;
                     Prices.pricingWebSearch := Known b |}).
      { destruct Hm as [Hm | [Hn _]]; [|exact (getModelCapabilities_known _ Hn)].
        apply changed_false_iff in Hm as [Hi Hw].
        exists (Db.pricingImageGen m), (Db.pricingWebSearch m).
        destruct (getModelCapabilities (Db.id m)) as [i w].
        cbn in Hi, Hw. rewrite Hi, Hw. reflexivity. }
      destruct Hk as [a [b Hk]]. exact (written_row_agrees u m a b Hu E Hk).
    + destruct Hm as [Hm|[Hn [v [[->|Hv] Hid]]]].
      * left; exact Hm.
      * rewrite Hid, jsstring_eqb_refl in E. discriminate.
      * right. split; [exact Hn|]. exists v; split; assumption.
Qed.

Lemma desiredUpdate_carries (m : Db.Model) : carriesDesired (desiredUpdate m).
Proof. split; reflexivity. Qed.

(** Once the records of a run are written, no row differs from the
    mapping, provided no id names an inherited member. *)
Lemma written_rows_unchanged (ms : list Db.Model) :
  (forall m, In m ms -> ~ In (Db.id m) inheritedKeys) ->
  List.filter changed
    (Update.writeAll (List.map desiredUpdate (List.filter changed ms)) ms) = [].
Proof.
  intros Hord. rewrite writeAll_map.
  set (us := List.map desiredUpdate (List.filter changed ms)).
  assert (Hus : Forall carriesDesired us).
  { apply Forall_forall. intros u Hu. apply in_map_iff in Hu as [m [<- _]].
    apply desiredUpdate_carries. }
  assert (Hms : forall m, In m ms ->
            changed m = false \/
            (isInherited (Db.id m) = false /\
             exists u, In u us /\ Update.id u = Db.id m)).
  { intros m Hm. destruct (changed m) eqn:E; [right|left; reflexivity]. split.
    - destruct (isInherited (Db.id m)) eqn:Hi; [|reflexivity].
      exfalso. apply (Hord m Hm). apply isInherited_In. exact Hi.
    - exists (desiredUpdate m). split; [|reflexivity].
      apply in_map, filter_In. split; assumption. }
  clearbody us. clear Hord. induction ms as [|m ms IH]; simpl; [reflexivity|].
  rewrite (written_row_unchanged us m Hus (Hms m (or_introl eq_refl))).
  apply IH. intros m' Hm'. apply Hms. right; exact Hm'.
Qed.

Lemma writeAll_length (us : list Update.t) (rows : list Db.Model) :
  List.length (Update.writeAll us rows) = List.length rows.
Proof. rewrite writeAll_map. apply length_map. Qed.

Lemma filter_nil_all (A : Type) (f : A -> bool) (l : list A) :
  List.filter f l = [] -> List.filter (fun x => negb (f x)) l = l.
Proof.
  induction l as [|x l IH]; simpl; [reflexivity|].
  destruct (f x); [discriminate|]. intros E; simpl. rewrite (IH E). reflexivity.
Qed.

(** A store that refuses nothing writes the whole batch. *)
Lemma bulk_accepting (rejects : Update.t -> option jsstring) (us : list Update.t)
    (rows : list Db.Model) (done : UpdateResult.t) :
  (forall u, In u us -> rejects u = None) ->
  ListStore.bulk rejects us rows done
  = ({| UpdateResult.total := UpdateResult.total done;
        UpdateResult.successful := UpdateResult.successful done + List.length us;
        UpdateResult.failed := UpdateResult.failed done;
        UpdateResult.errors := UpdateResult.errors done |},
     Update.writeAll us rows).
Proof.
  revert rows done; induction us as [|u us IH]; intros rows done Hus; simpl.
  - rewrite Nat.add_0_r. destruct done; reflexivity.
  - rewrite (Hus u (or_introl eq_refl)).
    rewrite IH by (intros v Hv; apply Hus; right; exact Hv).
    cbn. rewrite Nat.add_succ_r. reflexivity.
Qed.

(** After [POST] on a reachable store that refuses nothing, the store
    holds its rows with the records of the run written into them. *)
Lemma accepting_store_holds_what_was_written
    (env : ProcessEnv) (request : Request) (w : ListStore.t) :
  authorized env request = true ->
  ListStore.unreachable w = None ->
  (forall u, ListStore.rejects w u = None) ->
  exists report sys',
    POST env request (start w) = (Json report, sys') /\
    PostSummary.failed (PostReport.summary report) = 0 /\
    getEnabledModels (world sys')
    = inr (Update.writeAll (PostDetails.updated (PostReport.details report))
                           (ListStore.rows w)).
Proof.
  intros Ha Hup Hacc.
  assert (Hread : getEnabledModels w = inr (ListStore.rows w))
    by (cbn; rewrite Hup; reflexivity).
  rewrite (POST_run env request (start w) Ha).
  rewrite (applySync_run (start w) (ListStore.rows w) Hread).
  destruct (List.filter changed (ListStore.rows w)) as [|m l] eqn:E.
  - eexists; eexists. split; [reflexivity|]. split; [reflexivity|].
    cbn [world start PostReport.details postReport PostDetails.updated].
    rewrite copy_updates, sortModels_spec. cbn [updates]. rewrite E.
    exact Hread.
  - cbn [world start bulkUpdateModelCapabilities ListStore.ops]. rewrite Hup.
    rewrite bulk_accepting by (intros u _; apply Hacc).
    cbv beta iota.
    eexists; eexists. split; [reflexivity|]. split; [reflexivity|].
    cbn [world PostReport.details postReport PostDetails.updated
         getEnabledModels ListStore.ops ListStore.unreachable ListStore.rows].
    rewrite copy_updates. reflexivity.
Qed.
End SyncFacts.

Module SyncTheorems.
Import JS Store SyncRoute NumberFacts MappingFacts SyncFacts.
Import Capabilities(MODEL_CAPABILITIES, getModelCapabilities, priced, wellPriced).
Import Capabilities(readMapping, isInherited, inheritedKeys, Entry, Inherited, NoMember).
Import (hints) ListStore.

(** Of two tests that never hold together, the models that pass one or
    the other are those that pass the one and those that pass the
    other. *)
Lemma filter_either (A : Type) (f g : A -> bool) (l : list A) :
  (forall x, f x && g x = false) ->
  List.length (List.filter (fun x => f x || g x) l)
  = List.length (List.filter f l) + List.length (List.filter g l).
Proof.
  intros Hfg. induction l as [|x l IH]; [reflexivity|].
  cbn [List.filter]. specialize (Hfg x).
  destruct (f x), (g x); try discriminate; cbn [orb List.length]; lia.
Qed.

Section Apply.
Context {W : Type} {ops : Ops W}.

Lemma sorted_updates (ms : list Db.Model) :
  updates (sortModels ms) = List.map desiredUpdate (List.filter changed ms).
Proof. rewrite sortModels_spec; reflexivity. Qed.

(** A request that gets past the two checks, a store that answers the
    read and a bulk write that answers: [POST] returns its report. When
    nothing changed the bulk write is not called. *)
Lemma POST_returns (env : ProcessEnv) (request : Request) (w w' : W)
    (ms : list Db.Model) (result : UpdateResult.t) :
  authorized env request = true ->
  getEnabledModels w = inr ms ->
  bulkUpdateModelCapabilities (List.map desiredUpdate (List.filter changed ms)) w
    = (inr result, w') ->
  POST env request (start w) =
  match List.filter changed ms with
  | [] => (Json (postReport ms (sortModels ms) nothingToUpdate (toISOString w)),
           start w)
  | _ :: _ =>
      (Json (postReport ms (sortModels ms) result (toISOString w')),
       {| world := w';
          bulkCalls := [List.map desiredUpdate (List.filter changed ms)] |})
  end.
Proof.
  intros Ha Hread Hbulk. rewrite (POST_run _ _ _ Ha).
  rewrite (applySync_run (start w) ms Hread). cbn [start world bulkCalls].
  rewrite sorted_updates, Hbulk.
  destruct (List.filter changed ms); reflexivity.
Qed.

Lemma report_updated (ms : list Db.Model) (r : UpdateResult.t) (ts : jsstring) :
  PostDetails.updated (PostReport.details (postReport ms (sortModels ms) r ts))
  = List.map desiredUpdate (List.filter changed ms).
Proof. cbn. rewrite copy_updates. apply sorted_updates. Qed.

(** When every stored price is what the lookup gives for it, [POST]
    hands nothing to the bulk write, leaves the store as it is and
    reports no update and no failure. *)
Lemma agreeing_rows_skip_the_write
    (env : ProcessEnv) (request : Request) (w : W) (ms : list Db.Model) :
  authorized env request = true ->
  getEnabledModels w = inr ms ->
  (forall m, In m ms ->
     Known (Db.pricingImageGen m)
       = Prices.pricingImageGen (getModelCapabilities (Db.id m)) /\
     Known (Db.pricingWebSearch m)
       = Prices.pricingWebSearch (getModelCapabilities (Db.id m))) ->
  exists report sys',
    POST env request (start w) = (Json report, sys') /\
    bulkCalls sys' = [] /\
    world sys' = w /\
    PostSummary.updated (PostReport.summary report) = 0 /\
    PostSummary.failed (PostReport.summary report) = 0 /\
    PostDetails.updated (PostReport.details report) = [] /\
    PostDetails.errors (PostReport.details report) = [].
Proof.
  intros Ha Hread Hsame.
  assert (Hnone : List.filter changed ms = []).
  { clear Hread. induction ms as [|m ms IH]; simpl; [reflexivity|].
    rewrite (proj2 (changed_false_iff m) (Hsame m (or_introl eq_refl))).
    apply IH. intros m' Hm'. apply Hsame. right; exact Hm'. }
  rewrite (POST_run _ _ _ Ha), (applySync_run (start w) ms Hread), Hnone.
  eexists; eexists. split; [reflexivity|].
  rewrite report_updated, Hnone. repeat split; reflexivity.
Qed.

(** C4. Whatever the bulk write reports, some records written and some
    refused included, [POST] answers with a report, not with an error:
    its counts are the successes and the failures of the write and its
    errors are those the write described. *)
Theorem apply_reports_partial_failure
    (env : ProcessEnv) (request : Request) (w w' : W) (ms : list Db.Model)
    (result : UpdateResult.t) :
  authorized env request = true ->
  getEnabledModels w = inr ms ->
  List.filter changed ms <> [] ->
  bulkUpdateModelCapabilities (List.map desiredUpdate (List.filter changed ms)) w
    = (inr result, w') ->
  exists report,
    POST env request (start w)
      = (Json report,
         {| world := w';
            bulkCalls := [List.map desiredUpdate (List.filter changed ms)] |}) /\
    PostReport.success report = true /\
    PostSummary.updated (PostReport.summary report) = UpdateResult.successful result /\
    PostSummary.failed (PostReport.summary report) = UpdateResult.failed result /\
    PostDetails.errors (PostReport.details report) = UpdateResult.errors result.
Proof.
  intros Ha Hread Hsome Hbulk.
  rewrite (POST_returns env request w w' ms result Ha Hread Hbulk).
  destruct (List.filter changed ms) as [|m l]; [contradiction|].
  eexists. split; [reflexivity|]. repeat split; reflexivity.
Qed.

(** C1, as the route has it. Run [POST] twice with nothing else touching
    the store, on models none of which is named after a member of
    [Object.prototype]: when the store holds, at the second run, the
    rows of the first run with every record the first run submitted
    written into them, the second run finds every model unchanged,
    reports no update, and does not call the bulk write. *)
Theorem apply_twice_changes_nothing
    (env : ProcessEnv) (request : Request) (w0 : W) (ms : list Db.Model)
    (report1 : PostReport.t) (sys1 : Sys W) :
  (forall m, In m ms -> ~ In (Db.id m) inheritedKeys) ->
  getEnabledModels w0 = inr ms ->
  POST env request (start w0) = (Json report1, sys1) ->
  getEnabledModels (world sys1)
    = inr (Update.writeAll (PostDetails.updated (PostReport.details report1)) ms) ->
  exists report2 sys2,
    POST env request (start (world sys1)) = (Json report2, sys2) /\
    bulkCalls sys2 = [] /\
    world sys2 = world sys1 /\
    PostDetails.updated (PostReport.details report2) = [] /\
    PostSummary.updated (PostReport.summary report2) = 0 /\
    PostSummary.failed (PostReport.summary report2) = 0 /\
    PostSummary.unchanged (PostReport.summary report2) = List.length ms /\
    PostSummary.totalModels (PostReport.summary report2) = List.length ms.
Proof.
  intros Hord Hread Hrun1 Hread2.
  assert (Hpass : @rejectRequest PostReport.t env request = None).
  { unfold POST in Hrun1.
    destruct (@rejectRequest PostReport.t env request) as [response|] eqn:E;
      [|reflexivity].
    injection Hrun1 as -> _. unfold rejectRequest in E.
    destruct (MODELS_SYNC_API_KEY env) as [[|c k]|]; try discriminate.
    destruct (x_api_key request) as [key|]; [|discriminate].
    destruct (jsstring_eqb key (c :: k)); discriminate. }
  assert (Hup : PostDetails.updated (PostReport.details report1)
                = List.map desiredUpdate (List.filter changed ms)).
  { unfold POST in Hrun1. rewrite Hpass in Hrun1.
    rewrite (applySync_run (start w0) ms Hread) in Hrun1.
    destruct (List.filter changed ms) as [|m l] eqn:E.
    - cbv beta iota in Hrun1. injection Hrun1 as <- _.
      rewrite report_updated, E. reflexivity.
    - destruct (bulkUpdateModelCapabilities (updates (sortModels ms))
                  (world (start w0))) as [[error|result] w'];
        [discriminate|].
      cbv beta iota in Hrun1. injection Hrun1 as <- _.
      rewrite report_updated, E. reflexivity. }
  rewrite Hup in Hread2.
  pose proof (written_rows_unchanged ms Hord) as Hnone.
  set (ms2 := Update.writeAll (List.map desiredUpdate (List.filter changed ms)) ms)
    in *.
  unfold POST. rewrite Hpass.
  rewrite (applySync_run (start (world sys1)) ms2 Hread2), Hnone.
  eexists; eexists. split; [reflexivity|].
  rewrite report_updated, Hnone. cbn.
  rewrite sortModels_spec. cbn [unchanged].
  unfold unchangedModel. rewrite length_map, (filter_nil_all _ changed ms2 Hnone).
  unfold ms2. rewrite writeAll_length. repeat split; reflexivity.
Qed.

(** C5, as the route has it. [details.updated] of [POST] is the batch
    handed to the bulk write: the record of every model whose stored
    prices differ from what the lookup gives, in the order of the
    models, whatever the bulk write reports for them; when it is empty
    no write is made. [summary.updated] and [summary.failed] are the
    numbers the write answers with. The [preview] array of [GET] has
    one entry per model, changed or not; the desired side of its
    entries with [willUpdate] set is that same list of records. *)
Theorem updated_lists_every_changed_model
    (env : ProcessEnv) (request : Request) (w w' : W) (ms : list Db.Model)
    (result : UpdateResult.t) :
  authorized env request = true ->
  getEnabledModels w = inr ms ->
  bulkUpdateModelCapabilities (List.map desiredUpdate (List.filter changed ms)) w
    = (inr result, w') ->
  (exists report sys',
     POST env request (start w) = (Json report, sys') /\
     PostDetails.updated (PostReport.details report)
       = List.map desiredUpdate (List.filter changed ms) /\
     bulkCalls sys'
       = match PostDetails.updated (PostReport.details report) with
         | [] => []
         | _ :: _ => [PostDetails.updated (PostReport.details report)]
         end /\
     PostSummary.updated (PostReport.summary report)
       = match PostDetails.updated (PostReport.details report) with
         | [] => 0
         | _ :: _ => UpdateResult.successful result
         end /\
     PostSummary.failed (PostReport.summary report)
       = match PostDetails.updated (PostReport.details report) with
         | [] => 0
         | _ :: _ => UpdateResult.failed result
         end) /\
  (exists report,
     GET env request (start w) = (Json report, start w) /\
     List.map PreviewEntry.id (GetReport.preview report) = List.map Db.id ms /\
     List.map (fun p =>
                 {| Update.id := PreviewEntry.id p;
                    Update.pricingImageGen :=
                      Prices.pricingImageGen (PreviewEntry.new p);
                    Update.pricingWebSearch :=
                      Prices.pricingWebSearch (PreviewEntry.new p) |})
              (List.filter PreviewEntry.willUpdate (GetReport.preview report))
       = List.map desiredUpdate (List.filter changed ms)).
Proof.
  intros Ha Hread Hbulk. split.
  - rewrite (POST_returns env request w w' ms result Ha Hread Hbulk).
    destruct (List.filter changed ms) as [|m l] eqn:E;
      eexists; eexists; (split; [reflexivity|]);
      rewrite report_updated, E; repeat split; reflexivity.
  - rewrite (GET_run env request (start w) ms Ha Hread).
    eexists. split; [reflexivity|]. cbn [GetReport.preview getReport]. split.
    + rewrite map_map. reflexivity.
    + clear. induction ms as [|m ms IH]; simpl; [reflexivity|].
      destruct (changed m); simpl; rewrite IH; reflexivity.
Qed.

(** What the two [inMapping] fields count. That of [POST] is the number
    of entries of the mapping, whatever the models are; that of [GET]
    is the number of models for which the read of the mapping finds
    something: those with an entry and those named after an inherited
    member. *)
Lemma inMapping_counts
    (env : ProcessEnv) (request : Request) (w w' : W) (ms : list Db.Model)
    (result : UpdateResult.t) :
  authorized env request = true ->
  getEnabledModels w = inr ms ->
  bulkUpdateModelCapabilities (List.map desiredUpdate (List.filter changed ms)) w
    = (inr result, w') ->
  (exists report sys',
     POST env request (start w) = (Json report, sys') /\
     PostSummary.inMapping (PostReport.summary report)
       = List.length MODEL_CAPABILITIES /\
     PostSummary.inMapping (PostReport.summary report) = 20) /\
  (exists report,
     GET env request (start w) = (Json report, start w) /\
     GetSummary.inMapping (GetReport.summary report)
       = List.length
           (List.filter
              (fun m => match lookup MODEL_CAPABILITIES (Db.id m) with
                        | Some _ => true
                        | None => false
                        end) ms)
         + List.length (List.filter (fun m => isInherited (Db.id m)) ms)).
Proof.
  intros Ha Hread Hbulk. split.
  - rewrite (POST_returns env request w w' ms result Ha Hread Hbulk).
    destruct (List.filter changed ms) as [|m l];
      eexists; eexists; (split; [reflexivity|]); split; reflexivity.
  - rewrite (GET_run env request (start w) ms Ha Hread).
    eexists. split; [reflexivity|].
    cbn [GetReport.summary getReport GetSummary.inMapping].
    rewrite <- filter_either by (intros m; apply (inMapping_split (Db.id m))).
    clear. induction ms as [|m ms IH]; [reflexivity|].
    cbn [List.map List.filter]. unfold previewModel at 1. cbn [PreviewEntry.inMapping].
    rewrite (proj1 (inMapping_split (Db.id m))).
    destruct (_ || _); cbn [List.length]; rewrite IH; reflexivity.
Qed.

(** What the two [notInMapping] fields of [POST] hold: the list, the
    ids of the first twenty models for which the read of the mapping
    finds nothing, in the order of the models; the count, the number of
    all of them. Beyond twenty the list is shorter than the count. *)
Lemma notInMapping_counts
    (env : ProcessEnv) (request : Request) (w w' : W) (ms : list Db.Model)
    (result : UpdateResult.t) :
  authorized env request = true ->
  getEnabledModels w = inr ms ->
  bulkUpdateModelCapabilities (List.map desiredUpdate (List.filter changed ms)) w
    = (inr result, w') ->
  exists report sys',
    POST env request (start w) = (Json report, sys') /\
    PostDetails.notInMapping (PostReport.details report)
      = firstn 20 (List.map Db.id (List.filter unmapped ms)) /\
    PostSummary.notInMapping (PostReport.summary report)
      = List.length (List.filter unmapped ms) /\
    List.length (PostDetails.notInMapping (PostReport.details report)) <= 20 /\
    (20 < List.length (List.filter unmapped ms) ->
     List.length (PostDetails.notInMapping (PostReport.details report))
       < PostSummary.notInMapping (PostReport.summary report)).
Proof.
  intros Ha Hread Hbulk.
  rewrite (POST_returns env request w w' ms result Ha Hread Hbulk).
  assert (Hn : notInMapping (sortModels ms) = List.map Db.id (List.filter unmapped ms))
    by (rewrite sortModels_spec; reflexivity).
  destruct (List.filter changed ms) as [|m l];
    eexists; eexists; (split; [reflexivity|]);
    cbn [postReport PostReport.details PostReport.summary
         PostDetails.notInMapping PostSummary.notInMapping];
    rewrite Hn, length_firstn, length_map;
    repeat split; lia.
Qed.

(** C2. [GET] yields one entry per model, in the order of the models.
    Each entry holds the stored prices and the prices read off what the
    lookup gives, and [willUpdate] is [imageGenChanged ||
    webSearchChanged], each the [!==] of the stored and the desired
    price. Against what the lookup gives [!==] is plain difference: a
    field is unchanged exactly when both sides are absent or both are
    the same number. The loop of [POST] sorts the models by the same
    test. Whatever the two sides, an absent price equals an absent one
    only, and a number equals the same number only, the two zeros
    counting as one; a desired price that is [undefined], as for a
    model named after an inherited member, differs from every stored
    price. *)
Theorem diff_is_absence_aware_and_ordered
    (env : ProcessEnv) (request : Request) (w : W) (ms : list Db.Model) :
  authorized env request = true ->
  getEnabledModels w = inr ms ->
  exists report,
    GET env request (start w) = (Json report, start w) /\
    List.length (GetReport.preview report) = List.length ms /\
    List.map PreviewEntry.id (GetReport.preview report) = List.map Db.id ms /\
    Forall2
      (fun m p =>
         let desired := getModelCapabilities (Db.id m) in
         let imageGenChanged :=
           strictNe (Known (Db.pricingImageGen m)) (Prices.pricingImageGen desired) in
         let webSearchChanged :=
           strictNe (Known (Db.pricingWebSearch m)) (Prices.pricingWebSearch desired) in
         PreviewEntry.current p
           = Capabilities.caps (Db.pricingImageGen m) (Db.pricingWebSearch m) /\
         PreviewEntry.new p = desired /\
         PreviewEntry.willUpdate p = imageGenChanged || webSearchChanged /\
         (imageGenChanged = false <->
          Known (Db.pricingImageGen m) = Prices.pricingImageGen desired) /\
         (webSearchChanged = false <->
          Known (Db.pricingWebSearch m) = Prices.pricingWebSearch desired))
      ms (GetReport.preview report) /\
    updates (sortModels ms)
      = List.map desiredUpdate
          (List.filter (fun m => PreviewEntry.willUpdate (previewModel m)) ms) /\
    unchanged (sortModels ms)
      = List.map Db.id
          (List.filter (fun m => negb (PreviewEntry.willUpdate (previewModel m))) ms) /\
    (forall b, strictNe (Known None) b = false <-> b = Known None) /\
    (forall x b, strictNe (Known (Some x)) b = false ->
       exists y, b = Known (Some y) /\
         (x = y \/ exists sx sy, x = S754_zero sx /\ y = S754_zero sy)) /\
    (forall a, strictNe (Known a) Undefined = true).
Proof.
  intros Ha Hread. rewrite (GET_run env request (start w) ms Ha Hread).
  eexists. split; [reflexivity|]. cbn [GetReport.preview getReport].
  split; [apply length_map|]. split; [rewrite map_map; reflexivity|].
  split; [|rewrite sortModels_spec; repeat split; try reflexivity].
  2: { destruct b as [|[y|]]; [discriminate | discriminate | reflexivity]. }
  2: { intros ->. reflexivity. }
  2: { intros x [|[y|]]; cbn [strictNe]; [discriminate| |discriminate].
       rewrite negb_false_iff. intros H. exists y. split; [reflexivity|].
       apply number_eqb_true, H. }
  2: { destruct a as [x|]; reflexivity. }
  clear. induction ms as [|m ms IH]; simpl; constructor; [|exact IH].
  destruct (getModelCapabilities_priced (Db.id m)) as [Hi Hw].
  split; [reflexivity|].
  split; [unfold previewModel; cbn [PreviewEntry.new];
          destruct (getModelCapabilities (Db.id m)); reflexivity|].
  split; [reflexivity|]. split; apply strictNe_priced; assumption.
Qed.

End Apply.

(** C3 fails on a row named after a member of [Object.prototype]. The
    row [constructor], without prices, is no key of the mapping, and
    the default of the lookup is no price either; yet the read of the
    mapping finds the inherited member, the prices read off it are
    [undefined], and [POST] hands the row to the bulk write. Where
    every stored price is what the lookup gives, as with no model at
    all, [POST] does skip the write. *)
Theorem unchanged_row_named_constructor_is_written :
  lookup MODEL_CAPABILITIES (Db.id Scenario.constructorRow) = None /\
  Db.pricingImageGen Scenario.constructorRow = None /\
  Db.pricingWebSearch Scenario.constructorRow = None /\
  (exists report sys',
     POST Scenario.env Scenario.request
          (start (Scenario.store [Scenario.constructorRow] Scenario.accepting))
       = (Json report, sys') /\
     bulkCalls sys'
       = [[{| Update.id := js "constructor"; Update.pricingImageGen := Undefined;
              Update.pricingWebSearch := Undefined |}]] /\
     PostDetails.updated (PostReport.details report)
       = [{| Update.id := js "constructor"; Update.pricingImageGen := Undefined;
             Update.pricingWebSearch := Undefined |}] /\
     PostSummary.unchanged (PostReport.summary report) = 0) /\
  (forall (W : Type) (ops : Ops W) (env : ProcessEnv) (request : Request) (w : W)
          (ms : list Db.Model),
     authorized env request = true ->
     getEnabledModels w = inr ms ->
     (forall m, In m ms ->
        Known (Db.pricingImageGen m)
          = Prices.pricingImageGen (getModelCapabilities (Db.id m)) /\
        Known (Db.pricingWebSearch m)
          = Prices.pricingWebSearch (getModelCapabilities (Db.id m))) ->
     exists report sys',
       POST env request (start w) = (Json report, sys') /\
       bulkCalls sys' = [] /\
       world sys' = w /\
       PostSummary.updated (PostReport.summary report) = 0 /\
       PostSummary.failed (PostReport.summary report) = 0 /\
       PostDetails.updated (PostReport.details report) = [] /\
       PostDetails.errors (PostReport.details report) = []).
Proof.
  split; [reflexivity|]. split; [reflexivity|]. split; [reflexivity|]. split.
  - eexists; eexists. split; [vm_compute; reflexivity|].
    repeat split; vm_compute; reflexivity.
  - intros W ops. apply agreeing_rows_skip_the_write.
Qed.

(** C9 fails on a row named after a member of [Object.prototype]. Of
    the two rows [openai/gpt-4o] and [constructor] one has an entry in
    the mapping; [GET] counts two in the mapping and none outside it,
    and [POST] counts twenty. In general [POST] counts the entries of
    the mapping, and [GET] the models that have an entry together with
    those named after an inherited member. *)
Theorem inMapping_counts_a_row_named_constructor :
  List.length
    (List.filter
       (fun m => match lookup MODEL_CAPABILITIES (Db.id m) with
                 | Some _ => true
                 | None => false
                 end)
       [Scenario.gpt4oSynced; Scenario.constructorRow]) = 1 /\
  (exists report sys',
     POST Scenario.env Scenario.request
          (start (Scenario.store [Scenario.gpt4oSynced; Scenario.constructorRow]
                                 Scenario.accepting))
       = (Json report, sys') /\
     PostSummary.inMapping (PostReport.summary report) = 20) /\
  (exists report,
     GET Scenario.env Scenario.request
         (start (Scenario.store [Scenario.gpt4oSynced; Scenario.constructorRow]
                                Scenario.accepting))
       = (Json report,
          start (Scenario.store [Scenario.gpt4oSynced; Scenario.constructorRow]
                                Scenario.accepting)) /\
     GetSummary.inMapping (GetReport.summary report) = 2 /\
     GetSummary.notInMapping (GetReport.summary report) = 0) /\
  (forall (W : Type) (ops : Ops W) (env : ProcessEnv) (request : Request) (w w' : W)
          (ms : list Db.Model) (result : UpdateResult.t),
     authorized env request = true ->
     getEnabledModels w = inr ms ->
     bulkUpdateModelCapabilities (List.map desiredUpdate (List.filter changed ms)) w
       = (inr result, w') ->
     (exists report sys',
        POST env request (start w) = (Json report, sys') /\
        PostSummary.inMapping (PostReport.summary report)
          = List.length MODEL_CAPABILITIES /\
        PostSummary.inMapping (PostReport.summary report) = 20) /\
     (exists report,
        GET env request (start w) = (Json report, start w) /\
        GetSummary.inMapping (GetReport.summary report)
          = List.length
              (List.filter
                 (fun m => match lookup MODEL_CAPABILITIES (Db.id m) with
                           | Some _ => true
                           | None => false
                           end) ms)
            + List.length (List.filter (fun m => isInherited (Db.id m)) ms))).
Proof.
  split; [vm_compute; reflexivity|]. split.
  { eexists; eexists. split; [vm_compute; reflexivity|]. reflexivity. }
  split.
  { eexists. split; [vm_compute; reflexivity|]. split; reflexivity. }
  intros W ops. apply inMapping_counts.
Qed.

(** C10 fails on rows named after members of [Object.prototype]. None
    of the rows [constructor], [toString] and [__proto__] has an entry
    in the mapping; [POST] counts none of them as not in the mapping
    and lists none. With one model of the mapping and twenty-one
    ordinary ids outside it, it counts twenty-one and lists the first
    twenty. In general the list and the count are over the models for
    which the read of the mapping finds nothing, neither an entry nor
    an inherited member; the list stops at twenty. *)
Theorem notInMapping_misses_rows_named_after_the_prototype :
  Forall (fun m => lookup MODEL_CAPABILITIES (Db.id m) = None) Scenario.prototypeRows /\
  (exists report sys',
     POST Scenario.env Scenario.request
          (start (Scenario.store Scenario.prototypeRows Scenario.accepting))
       = (Json report, sys') /\
     PostSummary.totalModels (PostReport.summary report) = 3 /\
     PostSummary.notInMapping (PostReport.summary report) = 0 /\
     PostDetails.notInMapping (PostReport.details report) = [] /\
     List.length (PostDetails.updated (PostReport.details report)) = 3) /\
  (exists report sys',
     POST Scenario.env Scenario.request
          (start (Scenario.store (Scenario.gpt4oSynced :: Scenario.strangers)
                                 Scenario.accepting))
       = (Json report, sys') /\
     PostSummary.totalModels (PostReport.summary report) = 22 /\
     PostSummary.notInMapping (PostReport.summary report) = 21 /\
     PostDetails.notInMapping (PostReport.details report)
       = firstn 20 (List.map Db.id Scenario.strangers)) /\
  (forall m, unmapped m = true <->
             lookup MODEL_CAPABILITIES (Db.id m) = None /\
             ~ In (Db.id m) inheritedKeys) /\
  (forall (W : Type) (ops : Ops W) (env : ProcessEnv) (request : Request) (w w' : W)
          (ms : list Db.Model) (result : UpdateResult.t),
     authorized env request = true ->
     getEnabledModels w = inr ms ->
     bulkUpdateModelCapabilities (List.map desiredUpdate (List.filter changed ms)) w
       = (inr result, w') ->
     exists report sys',
       POST env request (start w) = (Json report, sys') /\
       PostDetails.notInMapping (PostReport.details report)
         = firstn 20 (List.map Db.id (List.filter unmapped ms)) /\
       PostSummary.notInMapping (PostReport.summary report)
         = List.length (List.filter unmapped ms) /\
       List.length (PostDetails.notInMapping (PostReport.details report)) <= 20 /\
       (20 < List.length (List.filter unmapped ms) ->
        List.length (PostDetails.notInMapping (PostReport.details report))
          < PostSummary.notInMapping (PostReport.summary report))).
Proof.
  split; [repeat constructor|]. split.
  { eexists; eexists. split; [vm_compute; reflexivity|].
    repeat split; vm_compute; reflexivity. }
  split.
  { eexists; eexists. split; [vm_compute; reflexivity|].
    repeat split; vm_compute; reflexivity. }
  split; [exact unmapped_iff|].
  intros W ops. apply notInMapping_counts.
Qed.

(** Two models: one whose entry in the mapping prices image generation
    and which has no price stored yet, and one named after an inherited
    member. Both will update; the desired prices of the second are
    [undefined]. *)
Lemma diff_is_absence_aware_and_ordered_witness :
  exists report,
    GET Scenario.env Scenario.request
        (start (Scenario.store [Scenario.gpt4o; Scenario.constructorRow]
                               Scenario.accepting))
      = (Json report,
         start (Scenario.store [Scenario.gpt4o; Scenario.constructorRow]
                               Scenario.accepting)) /\
    List.map PreviewEntry.willUpdate (GetReport.preview report) = [true; true] /\
    List.map PreviewEntry.new (GetReport.preview report)
      = [{| Prices.pricingImageGen := Known (Some (lit "0.02"));
            Prices.pricingWebSearch := Known None |};
         {| Prices.pricingImageGen := Undefined;
            Prices.pricingWebSearch := Undefined |}] /\
    GetSummary.willUpdate (GetReport.summary report) = 2 /\
    GetSummary.unchanged (GetReport.summary report) = 0.
Proof.
  destruct (diff_is_absence_aware_and_ordered Scenario.env Scenario.request
              (Scenario.store [Scenario.gpt4o; Scenario.constructorRow]
                              Scenario.accepting)
              [Scenario.gpt4o; Scenario.constructorRow]) as [report [Hrun _]];
    [reflexivity | reflexivity |].
  exists report. split; [exact Hrun|].
  vm_compute in Hrun. injection Hrun as <-. vm_compute. repeat split.
Defined.

(** The scenario of the spec: the first run hands the one changed record
    to the bulk write, once; the second run hands it nothing. *)
Lemma apply_twice_changes_nothing_witness :
  exists report1 sys1,
    POST Scenario.env Scenario.request
         (start (Scenario.store [Scenario.gpt4o] Scenario.accepting))
      = (Json report1, sys1) /\
    bulkCalls sys1 = [[desiredUpdate Scenario.gpt4o]] /\
    exists report2 sys2,
      POST Scenario.env Scenario.request (start (world sys1)) = (Json report2, sys2) /\
      bulkCalls sys2 = [] /\
      world sys2 = world sys1 /\
      PostDetails.updated (PostReport.details report2) = [] /\
      PostSummary.updated (PostReport.summary report2) = 0 /\
      PostSummary.failed (PostReport.summary report2) = 0 /\
      PostSummary.unchanged (PostReport.summary report2) = 1 /\
      PostSummary.totalModels (PostReport.summary report2) = 1.
Proof.
  eexists; eexists. split; [vm_compute; reflexivity|].
  split; [vm_compute; reflexivity|].
  eapply (apply_twice_changes_nothing Scenario.env Scenario.request
            (Scenario.store [Scenario.gpt4o] Scenario.accepting) [Scenario.gpt4o]).
  - intros m [<- | []] Hin. apply isInherited_In in Hin. vm_compute in Hin.
    discriminate.
  - reflexivity.
  - vm_compute. reflexivity.
  - vm_compute. reflexivity.
Defined.

(** C1 does not hold as stated: with a store that refuses the one
    changed record, the first run writes nothing, nothing else touches
    the store, and the second run finds the model changed again and
    hands it to the bulk write again. *)
Lemma second_run_rewrites_a_refused_record :
  exists report1 sys1 report2 sys2,
    POST Scenario.env Scenario.request
         (start (Scenario.store [Scenario.gpt4o] Scenario.rejecting))
      = (Json report1, sys1) /\
    PostSummary.failed (PostReport.summary report1) = 1 /\
    world sys1 = Scenario.store [Scenario.gpt4o] Scenario.rejecting /\
    POST Scenario.env Scenario.request (start (world sys1)) = (Json report2, sys2) /\
    bulkCalls sys2 = [[desiredUpdate Scenario.gpt4o]] /\
    PostDetails.updated (PostReport.details report2) = [desiredUpdate Scenario.gpt4o] /\
    PostSummary.unchanged (PostReport.summary report2) = 0 /\
    bulkCalls sys2 <> [].
Proof.
  eexists; eexists; eexists; eexists.
  split; [vm_compute; reflexivity|]. split; [reflexivity|]. split; [reflexivity|].
  split; [vm_compute; reflexivity|].
  repeat split; try (vm_compute; reflexivity). discriminate.
Qed.

(** C5 does not hold as stated. With a store that refuses the one
    changed record, nothing is written and [summary.updated] is 0, yet
    [details.updated] lists that record. And [GET] on a model that
    agrees with the mapping, where no model would change, answers with
    a preview that lists the model. *)
Lemma updated_lists_more_than_was_changed :
  (exists report sys',
     POST Scenario.env Scenario.request
          (start (Scenario.store [Scenario.gpt4o] Scenario.rejecting))
       = (Json report, sys') /\
     PostDetails.updated (PostReport.details report) = [desiredUpdate Scenario.gpt4o] /\
     ListStore.accepted (Scenario.store [Scenario.gpt4o] Scenario.rejecting)
                        [desiredUpdate Scenario.gpt4o] = [] /\
     PostDetails.updated (PostReport.details report)
       <> ListStore.accepted (Scenario.store [Scenario.gpt4o] Scenario.rejecting)
                             [desiredUpdate Scenario.gpt4o] /\
     PostSummary.updated (PostReport.summary report) = 0 /\
     PostSummary.failed (PostReport.summary report) = 1 /\
     ListStore.rows (world sys') = [Scenario.gpt4o]) /\
  (exists report,
     GET Scenario.env Scenario.request
         (start (Scenario.store [Scenario.gpt4oSynced] Scenario.accepting))
       = (Json report,
          start (Scenario.store [Scenario.gpt4oSynced] Scenario.accepting)) /\
     List.filter changed [Scenario.gpt4oSynced] = [] /\
     List.map PreviewEntry.id (GetReport.preview report) = [js "openai/gpt-4o"] /\
     List.map PreviewEntry.willUpdate (GetReport.preview report) = [false] /\
     GetReport.preview report <> []).
Proof.
  split.
  - eexists; eexists. split; [vm_compute; reflexivity|].
    repeat split; try (vm_compute; reflexivity). vm_compute. discriminate.
  - eexists. split; [vm_compute; reflexivity|].
    repeat split; try (vm_compute; reflexivity). discriminate.
Qed.

(** Three changed records, one of which the store refuses: all three
    are listed and handed over, two are counted as updated. *)
Lemma updated_lists_every_changed_model_witness :
  (exists report sys',
     POST Scenario.env Scenario.request
          (start (Scenario.store Scenario.threeStale Scenario.rejectingSonar))
       = (Json report, sys') /\
     PostDetails.updated (PostReport.details report)
       = List.map desiredUpdate (List.filter changed Scenario.threeStale) /\
     bulkCalls sys' = [PostDetails.updated (PostReport.details report)] /\
     PostSummary.updated (PostReport.summary report) = 2 /\
     PostSummary.failed (PostReport.summary report) = 1) /\
  (exists report,
     GET Scenario.env Scenario.request
         (start (Scenario.store Scenario.threeStale Scenario.rejectingSonar))
       = (Json report,
          start (Scenario.store Scenario.threeStale Scenario.rejectingSonar)) /\
     List.map PreviewEntry.id (GetReport.preview report)
       = List.map Db.id Scenario.threeStale /\
     List.map (fun p =>
                 {| Update.id := PreviewEntry.id p;
                    Update.pricingImageGen :=
                      Prices.pricingImageGen (PreviewEntry.new p);
                    Update.pricingWebSearch :=
                      Prices.pricingWebSearch (PreviewEntry.new p) |})
              (List.filter PreviewEntry.willUpdate (GetReport.preview report))
       = List.map desiredUpdate (List.filter changed Scenario.threeStale)).
Proof.
  destruct (updated_lists_every_changed_model Scenario.env Scenario.request
              (Scenario.store Scenario.threeStale Scenario.rejectingSonar)
              (snd (bulkUpdateModelCapabilities
                      (List.map desiredUpdate (List.filter changed Scenario.threeStale))
                      (Scenario.store Scenario.threeStale Scenario.rejectingSonar)))
              Scenario.threeStale
              {| UpdateResult.total := 3; UpdateResult.successful := 2;
                 UpdateResult.failed := 1;
                 UpdateResult.errors := [js "Failed to update perplexity/sonar"] |})
    as [[report [sys' [Hrun [Hup [Hcalls [Hu Hf]]]]]] Hget].
  - reflexivity.
  - reflexivity.
  - vm_compute. reflexivity.
  - split; [|exact Hget].
    exists report, sys'. split; [exact Hrun|]. split; [exact Hup|].
    rewrite Hcalls, Hu, Hf, Hup. vm_compute. repeat split.
Defined.

(** Three changed records, one of which the store refuses: two updated,
    one failed, one error, and a report all the same. *)
Lemma apply_reports_partial_failure_witness :
  exists report sys',
    POST Scenario.env Scenario.request
         (start (Scenario.store Scenario.threeStale Scenario.rejectingSonar))
      = (Json report, sys') /\
    PostReport.success report = true /\
    PostSummary.updated (PostReport.summary report) = 2 /\
    PostSummary.failed (PostReport.summary report) = 1 /\
    PostDetails.errors (PostReport.details report)
      = [js "Failed to update perplexity/sonar"].
Proof.
  destruct (apply_reports_partial_failure Scenario.env Scenario.request
              (Scenario.store Scenario.threeStale Scenario.rejectingSonar)
              (snd (bulkUpdateModelCapabilities
                      (List.map desiredUpdate (List.filter changed Scenario.threeStale))
                      (Scenario.store Scenario.threeStale Scenario.rejectingSonar)))
              Scenario.threeStale
              {| UpdateResult.total := 3; UpdateResult.successful := 2;
                 UpdateResult.failed := 1;
                 UpdateResult.errors := [js "Failed to update perplexity/sonar"] |})
    as [report [Hrun [Hs [Hu [Hf He]]]]].
  - reflexivity.
  - reflexivity.
  - vm_compute. discriminate.
  - vm_compute. reflexivity.
  - exists report. eexists. split; [exact Hrun|]. auto.
Defined.

End SyncTheorems.


Module RegexFacts.
Import JS.

Section Soundness.
Variable fl : flags.
Variable R : Type.

(** What a continuation is called with is what is left of the input
    once a text of the pattern is taken off its front. *)
Local Abbreviation sound_at r mr :=
  (forall (s : jsstring) (caps : captures) (k : cont R) (x : R),
     mr s caps k = Some x ->
     exists w s' caps', s = w ++ s' /\ Lang fl r w /\ k s' caps' = Some x).

Lemma single_sound (p : N -> bool) (s : jsstring) (caps : captures) (k : cont R) (x : R) :
  single p s caps k = Some x ->
  exists c s', s = c :: s' /\ p c = true /\ k s' caps = Some x.
Proof.
  destruct s as [|c s']; simpl; [discriminate|].
  destruct (p c) eqn:E; [|discriminate]. intros H. exists c, s'. auto.
Qed.

Lemma repeat_sound (r : regex) (greedy : bool) :
  sound_at r (matcher fl (R:=R) r) ->
  forall fuel, sound_at (RStar greedy r) (repeat (matcher fl r) greedy fuel).
Proof.
  intros Hr fuel; induction fuel as [|fuel IH]; intros s caps k x; simpl.
  - intros H. exists [], s, caps. repeat split; [constructor | exact H].
  - assert (Hagain :
      matcher fl r s caps
        (fun s' caps' =>
           if (List.length s' <? List.length s)%nat
           then repeat (matcher fl r) greedy fuel s' caps' k else None) = Some x ->
      exists w s' caps', s = w ++ s' /\ Lang fl (RStar greedy r) w /\ k s' caps' = Some x).
    { intros H. apply Hr in H as [w1 [s1 [c1 [-> [Hw1 H]]]]].
      destruct (List.length s1 <? List.length (w1 ++ s1))%nat; [|discriminate].
      apply IH in H as [w2 [s2 [c2 [-> [Hw2 H]]]]].
      exists (w1 ++ w2), s2, c2. rewrite app_assoc.
      repeat split; [constructor; assumption | exact H]. }
    assert (Hleave : k s caps = Some x ->
      exists w s' caps', s = w ++ s' /\ Lang fl (RStar greedy r) w /\ k s' caps' = Some x).
    { intros H. exists [], s, caps. repeat split; [constructor | exact H]. }
    destruct greedy.
    + destruct (matcher fl r s caps _) eqn:E.
      * intros [= <-]. apply Hagain. reflexivity.
      * exact Hleave.
    + destruct (k s caps) eqn:E.
      * intros [= <-]. apply Hleave. reflexivity.
      * exact Hagain.
Qed.

Theorem matcher_sound (r : regex) : sound_at r (matcher fl (R:=R) r).
Proof.
  induction r as [|c| |invert items|r1 IH1 r2 IH2|r1 IH1 r2 IH2
                  |greedy r IH|greedy r IH|greedy r IH|n r IH];
    intros s caps k x; cbn [matcher].
  - intros H. exists [], s, caps. repeat split; [constructor | exact H].
  - intros H. apply single_sound in H as [a [s' [-> [Ha H]]]].
    exists [a], s', caps. repeat split; [|exact H].
    constructor. apply N.eqb_eq. exact Ha.
  - intros H. apply single_sound in H as [a [s' [-> [Ha H]]]].
    exists [a], s', caps. repeat split; [constructor; exact Ha | exact H].
  - intros H. apply single_sound in H as [a [s' [-> [Ha H]]]].
    exists [a], s', caps. repeat split; [constructor; exact Ha | exact H].
  - intros H. apply IH1 in H as [w1 [s1 [c1 [-> [Hw1 H]]]]].
    apply IH2 in H as [w2 [s2 [c2 [-> [Hw2 H]]]]].
    exists (w1 ++ w2), s2, c2. rewrite app_assoc.
    repeat split; [constructor; assumption | exact H].
  - destruct (matcher fl r1 s caps k) eqn:E.
    + intros [= <-]. apply IH1 in E as [w [s' [c' [-> [Hw H]]]]].
      exists w, s', c'. repeat split; [apply LAltL; exact Hw | exact H].
    + intros H. apply IH2 in H as [w [s' [c' [-> [Hw H]]]]].
      exists w, s', c'. repeat split; [apply LAltR; exact Hw | exact H].
  - apply (repeat_sound r greedy IH).
  - intros H. apply IH in H as [w1 [s1 [c1 [-> [Hw1 H]]]]].
    apply (repeat_sound r greedy IH) in H as [w2 [s2 [c2 [-> [Hw2 H]]]]].
    exists (w1 ++ w2), s2, c2. rewrite app_assoc.
    repeat split; [constructor; assumption | exact H].
  - assert (Honce :
      matcher fl r s caps
        (fun s' caps' =>
           if (List.length s' <? List.length s)%nat then k s' caps' else None) = Some x ->
      exists w s' caps', s = w ++ s' /\ Lang fl (ROpt greedy r) w /\ k s' caps' = Some x).
    { intros H. apply IH in H as [w [s' [c' [-> [Hw H]]]]].
      destruct (List.length s' <? List.length (w ++ s'))%nat; [|discriminate].
      exists w, s', c'. repeat split; [apply LOptSome; exact Hw | exact H]. }
    assert (Hleave : k s caps = Some x ->
      exists w s' caps', s = w ++ s' /\ Lang fl (ROpt greedy r) w /\ k s' caps' = Some x).
    { intros H. exists [], s, caps. repeat split; [constructor | exact H]. }
    destruct greedy.
    + destruct (matcher fl r s caps _) eqn:E.
      * intros [= <-]. apply Honce. reflexivity.
      * exact Hleave.
    + destruct (k s caps) eqn:E.
      * intros [= <-]. apply Hleave. reflexivity.
      * exact Honce.
  - intros H. apply IH in H as [w [s' [c' [-> [Hw H]]]]].
    exists w, s', ((n, firstn (List.length (w ++ s') - List.length s') (w ++ s')) :: c').
    repeat split; [constructor; exact Hw | exact H].
Qed.

End Soundness.

Section Completeness.
Variable fl : flags.
Variable R : Type.

(** A continuation that accepts what is left, whatever the captures,
    makes the matcher succeed on every text of the pattern. *)
Local Abbreviation complete_at r mr :=
  (forall (w s' : jsstring) (caps : captures) (k : cont R),
     Lang fl r w -> (forall c, k s' c <> None) -> mr (w ++ s') caps k <> None).

Lemma single_complete (p : N -> bool) (x : N) (s' : jsstring) (caps : captures)
    (k : cont R) :
  p x = true -> (forall c, k s' c <> None) -> single p ([x] ++ s') caps k <> None.
Proof. intros Hp Hk. simpl. rewrite Hp. apply Hk. Qed.

Lemma shorter_tail (w s' : jsstring) :
  w <> [] -> (List.length s' <? List.length (w ++ s'))%nat = true.
Proof.
  intros Hw. apply Nat.ltb_lt. rewrite length_app.
  destruct w; [contradiction|simpl; lia].
Qed.

Lemma repeat_complete (r : regex) (greedy : bool) :
  complete_at r (matcher fl (R:=R) r) ->
  forall w, Lang fl (RStar greedy r) w ->
  forall fuel s' caps (k : cont R),
    List.length (w ++ s') < fuel -> (forall c, k s' c <> None) ->
    repeat (matcher fl r) greedy fuel (w ++ s') caps k <> None.
Proof.
  intros Hr w Hw. remember (RStar greedy r) as rs eqn:Ers.
  induction Hw as [| | | | | | |g r0|g r0 w1 w2 Hw1 _ Hw2 IH2| | | |];
    try discriminate; injection Ers as -> ->;
    intros fuel s' caps k Hfuel Hk.
  - destruct fuel as [|fuel]; [apply Hk|]. cbn [repeat app].
    destruct greedy.
    + destruct (matcher fl r s' caps _); [discriminate | apply Hk].
    + destruct (k s' caps) eqn:E; [discriminate | exfalso; exact (Hk caps E)].
  - destruct w1 as [|a w1]; [apply (IH2 eq_refl); assumption|].
    destruct fuel as [|fuel]; [inversion Hfuel|].
    assert (Hagain :
      matcher fl r (((a :: w1) ++ w2) ++ s') caps
        (fun s'' caps' =>
           if (List.length s'' <? List.length (((a :: w1) ++ w2) ++ s'))%nat
           then repeat (matcher fl r) greedy fuel s'' caps' k else None) <> None).
    { rewrite <- app_assoc. apply Hr; [exact Hw1|]. intros c.
      rewrite shorter_tail by discriminate.
      apply (IH2 eq_refl); [|exact Hk].
      rewrite <- app_assoc in Hfuel. simpl in Hfuel. rewrite length_app in Hfuel. lia. }
    cbn [repeat]. destruct greedy.
    + destruct (matcher fl r _ caps _); [discriminate | contradiction].
    + destruct (k _ caps); [discriminate | exact Hagain].
Qed.

Theorem matcher_complete (r : regex) : complete_at r (matcher fl (R:=R) r).
Proof.
  induction r as [|c| |invert items|r1 IH1 r2 IH2|r1 IH1 r2 IH2
                  |greedy r IH|greedy r IH|greedy r IH|n r IH];
    intros w s' caps k Hw Hk; inversion Hw; subst; cbn [matcher].
  - apply Hk.
  - apply single_complete; [apply N.eqb_eq; assumption | exact Hk].
  - apply single_complete; assumption.
  - apply single_complete; assumption.
  - rewrite <- app_assoc. apply IH1; [assumption|]. intros c.
    apply IH2; assumption.
  - destruct (matcher fl r1 (w ++ s') caps k) eqn:E; [discriminate|].
    exfalso. refine (IH1 w s' caps k _ Hk E). assumption.
  - destruct (matcher fl r1 (w ++ s') caps k); [discriminate|].
    apply IH2; assumption.
  - apply (repeat_complete r greedy IH); [constructor | simpl; lia | exact Hk].
  - apply (repeat_complete r greedy IH);
      [constructor; assumption | simpl; lia | exact Hk].
  - rewrite <- app_assoc. apply IH; [assumption|]. intros c.
    apply (repeat_complete r greedy IH); [assumption | lia | exact Hk].
  - cbn [app]. destruct greedy.
    + destruct (matcher fl r s' caps _); [discriminate | apply Hk].
    + destruct (k s' caps) eqn:E; [discriminate | exfalso; exact (Hk caps E)].
  - destruct w as [|a w].
    + cbn [app]. destruct greedy.
      * destruct (matcher fl r s' caps _); [discriminate | apply Hk].
      * destruct (k s' caps) eqn:E; [discriminate | exfalso; exact (Hk caps E)].
    + assert (Honce :
        matcher fl r ((a :: w) ++ s') caps
          (fun s'' caps' =>
             if (List.length s'' <? List.length ((a :: w) ++ s'))%nat
             then k s'' caps' else None) <> None).
      { apply IH; [assumption|]. intros c.
        rewrite shorter_tail by discriminate. apply Hk. }
      destruct greedy.
      * destruct (matcher fl r _ caps _); [discriminate | contradiction].
      * destruct (k _ caps); [discriminate | exact Honce].
  - apply IH; [assumption|]. intros c. apply Hk.
Qed.

End Completeness.

(** [test] decides whether the text contains a match of the pattern. *)
Theorem test_mentions (fl : flags) (r : regex) (s : jsstring) :
  test fl r s = true <-> mentions fl r s.
Proof.
  unfold test, mentions. split.
  - induction s as [|c s IH]; cbn [search]; unfold match_here.
    + destruct (matcher fl r [] [] _) as [[rest caps]|] eqn:E; [|discriminate].
      intros _. apply matcher_sound in E as [w [s' [c' [Hs [Hw _]]]]].
      exists [], w, s'. split; [exact Hs | exact Hw].
    + destruct (matcher fl r (c :: s) [] _) as [[rest caps]|] eqn:E.
      * intros _. apply matcher_sound in E as [w [s' [c' [Hs [Hw _]]]]].
        exists [], w, s'. split; [exact Hs | exact Hw].
      * intros H. destruct (search fl r s) eqn:E'; [|discriminate].
        destruct (IH eq_refl) as [x [w [y [-> Hw]]]].
        exists (c :: x), w, y. split; [reflexivity | exact Hw].
  - intros [x [w [y [-> Hw]]]]. induction x as [|c x IH].
    + cbn [app].
      assert (H : match_here fl r (w ++ y) <> None).
      { apply matcher_complete; [exact Hw | discriminate]. }
      destruct (w ++ y); cbn [search];
        destruct (match_here fl r _) as [[rest caps]|]; try reflexivity;
        contradiction.
    + cbn [app search]. destruct (match_here fl r _) as [[rest caps]|]; [reflexivity|].
      destruct (search fl r (x ++ w ++ y)); [reflexivity | discriminate].
Qed.

Lemma test_false_not_mentions (fl : flags) (r : regex) (s : jsstring) :
  ~ mentions fl r s -> test fl r s = false.
Proof.
  intros H. destruct (test fl r s) eqn:E; [|reflexivity].
  exfalso. apply H, test_mentions, E.
Qed.

(** A text taken whole by the matcher is a text of the pattern. *)
Lemma whole_match_Lang (fl : flags) (r : regex) (w : jsstring) :
  matcher fl r w []
    (fun s' _ => match s' with [] => Some tt | _ :: _ => None end) = Some tt ->
  Lang fl r w.
Proof.
  intros H. apply matcher_sound in H as [w' [s' [c' [-> [Hw H]]]]].
  destruct s'; [|discriminate]. rewrite app_nil_r. exact Hw.
Qed.

Lemma Lang_nil_nullable (fl : flags) (r : regex) (w : jsstring) :
  Lang fl r w -> w = [] -> nullable r = true.
Proof.
  induction 1 as [ |c x H|x H|invert items x H|r1 r2 w1 w2 _ IH1 _ IH2
                  |r1 r2 w _ IH|r1 r2 w _ IH|g r|g r w1 w2 _ _ _ _
                  |g r w1 w2 _ IH1 _ _| |g r w _ _|n r w _ IH];
    intros E; cbn [nullable]; try reflexivity; try discriminate.
  - apply app_eq_nil in E as [E1 E2]. rewrite IH1, IH2 by assumption. reflexivity.
  - rewrite IH by assumption. reflexivity.
  - rewrite IH by assumption. apply orb_true_r.
  - apply app_eq_nil in E as [E1 E2]. auto.
  - auto.
Qed.

Lemma match_here_parts (fl : flags) (r : regex) (s rest : jsstring) (caps : captures) :
  match_here fl r s = Some (rest, caps) ->
  s = firstn (List.length s - List.length rest) s ++ rest /\
  Lang fl r (firstn (List.length s - List.length rest) s).
Proof.
  unfold match_here. intros E.
  apply matcher_sound in E as [w [s' [c' [-> [Hw [= <- _]]]]]].
  rewrite length_app, Nat.add_sub, firstn_app, Nat.sub_diag, firstn_all.
  cbn [firstn]. rewrite app_nil_r. split; [reflexivity | exact Hw].
Qed.

Lemma search_eq (fl : flags) (r : regex) (s : jsstring) :
  search fl r s =
  match match_here fl r s with
  | Some (rest, caps) =>
      Some {| before := []; matched := firstn (List.length s - List.length rest) s;
              groups := caps; after := rest |}
  | None =>
      match s with
      | [] => None
      | c :: t =>
          match search fl r t with
          | Some m => Some {| before := c :: before m; matched := matched m;
                              groups := groups m; after := after m |}
          | None => None
          end
      end
  end.
Proof. destruct s; reflexivity. Qed.

(** A match found by [search] splits the text in three, and what was
    matched is a text of the pattern. *)
Lemma search_parts (fl : flags) (r : regex) (s : jsstring) (m : match_result) :
  search fl r s = Some m ->
  s = before m ++ matched m ++ after m /\ Lang fl r (matched m).
Proof.
  revert m. induction s as [|c s IH]; intros m; rewrite search_eq;
    destruct (match_here fl r _) as [[rest caps]|] eqn:E.
  - intros [= <-]. apply match_here_parts in E. exact E.
  - discriminate.
  - intros [= <-]. apply match_here_parts in E. exact E.
  - destruct (search fl r s) as [m'|]; [|discriminate].
    intros [= <-]. cbn [before matched after].
    destruct (IH m' eq_refl) as [Hs Hw]. split; [|exact Hw].
    cbn [app]. rewrite <- Hs. reflexivity.
Qed.

(** What comes after a match that is not empty is shorter than the text. *)
Lemma search_advances (fl : flags) (r : regex) (s : jsstring) (m : match_result) :
  nullable r = false -> search fl r s = Some m ->
  List.length (after m) < List.length s.
Proof.
  intros Hr Hm. apply search_parts in Hm as [Hs Hw].
  destruct (matched m) as [|a w] eqn:E.
  - rewrite (Lang_nil_nullable fl r [] Hw eq_refl) in Hr. discriminate.
  - rewrite Hs, !length_app. simpl. lia.
Qed.

Section Fuel.
Variable fl : flags.
Variable R : Type.

Local Abbreviation respects mr :=
  (forall (s : jsstring) (caps : captures) (k1 k2 : cont R),
     (forall s' caps', k1 s' caps' = k2 s' caps') ->
     mr s caps k1 = mr s caps k2).

Lemma repeat_ext (mr : jsstring -> captures -> cont R -> option R) (greedy : bool) :
  respects mr -> forall fuel, respects (repeat mr greedy fuel).
Proof.
  intros Hmr fuel; induction fuel as [|fuel IH]; intros s caps k1 k2 Hk;
    cbn [repeat]; [apply Hk|].
  rewrite (Hk s caps).
  rewrite (Hmr s caps _
             (fun s' caps' =>
                if (List.length s' <? List.length s)%nat
                then repeat mr greedy fuel s' caps' k2 else None)).
  - reflexivity.
  - intros s' caps'. destruct (List.length s' <? List.length s)%nat;
      [apply IH; exact Hk | reflexivity].
Qed.

Lemma matcher_ext (r : regex) : respects (matcher fl (R:=R) r).
Proof.
  induction r as [|c| |invert items|r1 IH1 r2 IH2|r1 IH1 r2 IH2
                  |greedy r IH|greedy r IH|greedy r IH|n r IH];
    intros s caps k1 k2 Hk; cbn [matcher].
  - apply Hk.
  - destruct s; cbn [single]; [reflexivity|]. rewrite Hk; reflexivity.
  - destruct s; cbn [single]; [reflexivity|]. rewrite Hk; reflexivity.
  - destruct s; cbn [single]; [reflexivity|]. rewrite Hk; reflexivity.
  - apply IH1. intros s' caps'. apply IH2, Hk.
  - rewrite (IH1 s caps k1 k2 Hk), (IH2 s caps k1 k2 Hk). reflexivity.
  - apply (repeat_ext (matcher fl r) greedy IH), Hk.
  - apply IH. intros s' caps'. apply (repeat_ext (matcher fl r) greedy IH), Hk.
  - rewrite (Hk s caps).
    rewrite (IH s caps _
               (fun s' caps' =>
                  if (List.length s' <? List.length s)%nat then k2 s' caps' else None)).
    + reflexivity.
    + intros s' caps'. rewrite Hk. reflexivity.
  - apply IH. intros s' caps'. apply Hk.
Qed.

(** The rounds [matcher] grants a star are never used up: any number
    beyond the length of the text gives the same result. *)
Theorem repeat_enough_fuel (r : regex) (greedy : bool) (f1 f2 : nat)
    (s : jsstring) (caps : captures) (k : cont R) :
  List.length s < f1 -> List.length s < f2 ->
  repeat (matcher fl r) greedy f1 s caps k = repeat (matcher fl r) greedy f2 s caps k.
Proof.
  revert f2 s caps. induction f1 as [|f1 IH]; intros f2 s caps H1 H2; [inversion H1|].
  destruct f2 as [|f2]; [inversion H2|]. cbn [repeat].
  rewrite (matcher_ext r s caps _
             (fun s' caps' =>
                if (List.length s' <? List.length s)%nat
                then repeat (matcher fl r) greedy f2 s' caps' k else None)).
  - reflexivity.
  - intros s' caps'. destruct (List.length s' <? List.length s)%nat eqn:E;
      [|reflexivity].
    apply Nat.ltb_lt in E. apply IH; lia.
Qed.

End Fuel.

(** Likewise for the rounds of a global replacement. *)
Theorem replaceAll_enough_fuel (fl : flags) (r : regex) (by_ : jsstring)
    (f1 f2 : nat) (s : jsstring) :
  List.length s < f1 -> List.length s < f2 ->
  replaceAll_from f1 fl r by_ s = replaceAll_from f2 fl r by_ s.
Proof.
  revert f2 s. induction f1 as [|f1 IH]; intros f2 s H1 H2; [inversion H1|].
  destruct f2 as [|f2]; [inversion H2|]. cbn [replaceAll_from].
  destruct (search fl r s) as [m|] eqn:E; [|reflexivity].
  apply search_parts in E as [Hs _].
  assert (Hlen : List.length s
                 = List.length (before m) + List.length (matched m)
                   + List.length (after m))
    by (rewrite Hs at 1; rewrite !length_app; lia).
  destruct (matched m) as [|a w], (after m) as [|c t]; try reflexivity;
    simpl in Hlen; rewrite (IH f2); try reflexivity; simpl; lia.
Qed.

End RegexFacts.

Module ScraperFacts.
Import JS Scraper NumberFacts RegexFacts.

Lemma ltb_tail (A : Type) (a : A) (t : list A) :
  (List.length t <? List.length (a :: t))%nat = true.
Proof. apply Nat.ltb_lt. simpl. lia. Qed.

Section SingleCharacter.
Variable fl : flags.
Variable R : Type.
Variables (invert : bool) (items : list cls).

Local Abbreviation inClass x := (xorb invert (existsb (cls_match fl x) items)).

(** A greedy star over a class takes a character of the class and goes
    on; what follows the star is tried only when going on failed. *)
Lemma star_class_step (fuel : nat) (x : N) (t : jsstring) (caps : captures)
    (k : cont R) :
  inClass x = true ->
  repeat (matcher fl (RClass invert items)) true (S fuel) (x :: t) caps k =
  match repeat (matcher fl (RClass invert items)) true fuel t caps k with
  | Some r => Some r
  | None => k (x :: t) caps
  end.
Proof.
  intros Hx. cbn [repeat matcher single]. rewrite Hx, ltb_tail. reflexivity.
Qed.

(** It stops at the end of the text and before a character outside the
    class. *)
Lemma star_class_stop (fuel : nat) (s : jsstring) (caps : captures) (k : cont R) :
  match s with x :: _ => inClass x = false | [] => True end ->
  repeat (matcher fl (RClass invert items)) true fuel s caps k = k s caps.
Proof.
  intros Hs. destruct fuel as [|fuel]; [reflexivity|].
  destruct s as [|x t]; cbn [repeat matcher single]; [reflexivity|].
  rewrite Hs. reflexivity.
Qed.

End SingleCharacter.

(** An optional character never fails, and leaves the captures alone. *)
Lemma opt_char_keeps_captures (fl : flags) (c : N) (s : jsstring) (caps : captures)
    (k : cont (jsstring * captures)) :
  (forall s', exists rest, k s' caps = Some (rest, caps)) ->
  exists rest, matcher fl (ROpt true (RChar c)) s caps k = Some (rest, caps).
Proof.
  intros Hk. destruct s as [|a t]; cbn [matcher single].
  - apply Hk.
  - destruct (canonicalize fl c =? canonicalize fl a)%N.
    + rewrite ltb_tail. destruct (Hk t) as [rest ->]. exists rest; reflexivity.
    + apply Hk.
Qed.

Lemma canonicalize_dollar (c : N) :
  (canonicalize flags_i 36 =? canonicalize flags_i c)%N = true -> c = 36%N.
Proof.
  unfold canonicalize; cbn [ignoreCase flags_i andb].
  change ((97 <=? 36) && (36 <=? 122))%N with false. cbv iota.
  destruct ((97 <=? c)%N && (c <=? 122)%N) eqn:E.
  - apply andb_true_iff in E as [E1 E2]. apply N.leb_le in E1, E2.
    intros H. apply N.eqb_eq in H. lia.
  - intros H. apply N.eqb_eq in H. auto.
Qed.

Lemma price_not_here (c : N) (s : jsstring) :
  c <> 36%N -> match_here flags_i priceRegex (c :: s) = None.
Proof.
  intros Hc. unfold match_here, priceRegex, RCat. cbn [fold_right matcher single].
  destruct (canonicalize flags_i 36 =? canonicalize flags_i c)%N eqn:E;
    [|reflexivity].
  apply canonicalize_dollar in E. contradiction.
Qed.

Lemma search_skip (fl : flags) (r : regex) (pre s : jsstring) (m : match_result) :
  (forall c t, In c pre -> match_here fl r (c :: t) = None) ->
  search fl r s = Some m ->
  search fl r (pre ++ s)
  = Some {| before := pre ++ before m; matched := matched m;
            groups := groups m; after := after m |}.
Proof.
  intros Hpre Hs. induction pre as [|c pre IH]; cbn [app].
  - rewrite Hs. destruct m; reflexivity.
  - cbn [search]. rewrite (Hpre c (pre ++ s) (or_introl eq_refl)).
    rewrite IH; [reflexivity|]. intros c' t Hc'. apply Hpre. right; exact Hc'.
Qed.

Section Steps.
Variable fl : flags.
Variable R : Type.
Implicit Types (s t : jsstring) (caps : captures) (k : cont R).

Lemma step_seq r1 r2 s caps k :
  matcher fl (RSeq r1 r2) s caps k
  = matcher fl r1 s caps (fun s' caps' => matcher fl r2 s' caps' k).
Proof. reflexivity. Qed.

Lemma step_empty s caps k : matcher fl REmpty s caps k = k s caps.
Proof. reflexivity. Qed.

Lemma step_char c x t caps k :
  (canonicalize fl c =? canonicalize fl x)%N = true ->
  matcher fl (RChar c) (x :: t) caps k = k t caps.
Proof. intros H. cbn [matcher single]. rewrite H. reflexivity. Qed.

Lemma step_class invert items x t caps k :
  xorb invert (existsb (cls_match fl x) items) = true ->
  matcher fl (RClass invert items) (x :: t) caps k = k t caps.
Proof. intros H. cbn [matcher single]. rewrite H. reflexivity. Qed.

Lemma step_group n r s caps k :
  matcher fl (RGroup n r) s caps k
  = matcher fl r s caps
      (fun s' caps' => k s' ((n, firstn (List.length s - List.length s') s) :: caps')).
Proof. reflexivity. Qed.

Lemma step_plus greedy r s caps k :
  matcher fl (RPlus greedy r) s caps k
  = matcher fl r s caps
      (fun s' caps' => repeat (matcher fl r) greedy (S (List.length s')) s' caps' k).
Proof. reflexivity. Qed.

Lemma step_star greedy r s caps k :
  matcher fl (RStar greedy r) s caps k
  = repeat (matcher fl r) greedy (S (List.length s)) s caps k.
Proof. reflexivity. Qed.

(** An optional character that is there, before a rest that matches. *)
Lemma step_opt_char c x t caps k (r : R) :
  (canonicalize fl c =? canonicalize fl x)%N = true ->
  k t caps = Some r ->
  matcher fl (ROpt true (RChar c)) (x :: t) caps k = Some r.
Proof.
  intros H Hk. cbn [matcher single]. rewrite H, ltb_tail, Hk. reflexivity.
Qed.

(** A greedy star over a class runs to the end of the characters of the
    class; when the rest matches from there, that is the match. *)
Lemma star_class_run invert items (ds t : jsstring) caps k (r : R) (fuel : nat) :
  Forall (fun x => xorb invert (existsb (cls_match fl x) items) = true) ds ->
  match t with
  | x :: _ => xorb invert (existsb (cls_match fl x) items) = false
  | [] => True
  end ->
  List.length ds < fuel ->
  k t caps = Some r ->
  repeat (matcher fl (RClass invert items)) true fuel (ds ++ t) caps k = Some r.
Proof.
  intros Hds Ht. revert fuel. induction Hds as [|x ds Hx Hds IH]; intros fuel Hfuel Hk.
  - cbn [app]. rewrite star_class_stop; assumption.
  - destruct fuel as [|fuel]; [inversion Hfuel|]. cbn [app].
    rewrite star_class_step by exact Hx.
    rewrite IH; [reflexivity | simpl in Hfuel; lia | exact Hk].
Qed.

End Steps.

(** The rounds [extractFromHTML] grants its loop are never used up: a
    match of the row pattern is never empty. *)
Theorem extractFromHTML_enough_fuel (f1 f2 : nat) (html : jsstring)
    (models : list ScrapedModelCapabilities) :
  List.length html < f1 -> List.length html < f2 ->
  extractFromHTML_loop f1 html models = extractFromHTML_loop f2 html models.
Proof.
  revert f2 html models. induction f1 as [|f1 IH]; intros f2 html models H1 H2;
    [inversion H1|].
  destruct f2 as [|f2]; [inversion H2|]. cbn [extractFromHTML_loop].
  destruct (search flags_i modelRowRegex html) as [m|] eqn:E; [|reflexivity].
  apply search_advances in E; [|reflexivity].
  apply IH; lia.
Qed.

(** The first dollar amount of a text whose first dollar sign starts
    [$0.02], not followed by a further digit. *)
Lemma price_after_plain_text (pre post : jsstring) :
  ~ In 36%N pre ->
  match post with c :: _ => isDigit c = false | [] => True end ->
  exists m, search flags_i priceRegex (pre ++ js "$0.02" ++ post) = Some m /\
            group m 1 = js "0.02".
Proof.
  intros Hpre Hpost.
  assert (Htail : forall caps s, exists rest,
            matcher flags_i (RCat [ROpt true (RChar 47); ROpt true (RChar 77)]) s caps
              (fun s' caps' => Some (s', caps')) = Some (rest, caps)).
  { intros caps s. unfold RCat. cbn [fold_right]. rewrite step_seq.
    apply opt_char_keeps_captures. intros s1. rewrite step_seq.
    apply opt_char_keeps_captures. intros s2. rewrite step_empty.
    exists s2; reflexivity. }
  assert (Hhere : exists rest,
            match_here flags_i priceRegex (js "$0.02" ++ post)
            = Some (rest, [(1, js "0.02")])).
  { destruct (Htail [(1, js "0.02")] post) as [rest Hrest]. exists rest.
    unfold match_here, priceRegex.
    change (js "$0.02" ++ post) with (36 :: 48 :: 46 :: 48 :: 50 :: post)%N.
    change (RCat [RChar 36; ?a; ?b; ?c]) with (RSeq (RChar 36) (RSeq a (RCat [b; c]))).
    rewrite step_seq, step_char by reflexivity. cbv beta.
    rewrite step_seq, step_group.
    change (RCat [?a; ?b; ?c]) with (RSeq a (RSeq b (RSeq c REmpty))).
    rewrite step_seq, step_plus, step_class by reflexivity. cbv beta.
    rewrite (star_class_stop flags_i _ false [CDigit]) by reflexivity.
    rewrite step_seq.
    apply step_opt_char; [reflexivity|].
    rewrite step_seq, step_star.
    apply (star_class_run flags_i _ false [CDigit] [48; 50]%N post);
      [repeat constructor
      | destruct post; [exact I | cbn; rewrite orb_false_r; exact Hpost]
      | simpl; lia |].
    rewrite step_empty.
    change (List.length (48 :: 46 :: 48 :: 50 :: post)%N)
      with (S (S (S (S (List.length post))))).
    replace (S (S (S (S (List.length post)))) - List.length post) with 4 by lia.
    exact Hrest. }
  destruct Hhere as [rest Hhere].
  eexists. split.
  - apply search_skip.
    + intros c t Hc. apply price_not_here. intros ->. contradiction.
    + change (js "$0.02" ++ post) with (36 :: js "0.02" ++ post)%N.
      change (js "$0.02" ++ post) with (36 :: js "0.02" ++ post)%N in Hhere.
      cbn [search]. rewrite Hhere. reflexivity.
  - reflexivity.
Qed.

(** A text of the price pattern starts with a dollar sign and a digit. *)
Lemma price_text_starts (w : jsstring) :
  Lang flags_i priceRegex w ->
  exists d w', w = 36%N :: d :: w' /\ isDigit d = true.
Proof.
  unfold priceRegex, RCat. cbn [fold_right]. intros H.
  repeat match goal with
         | H : Lang _ (RSeq _ _) _ |- _ => inversion H; subst; clear H
         | H : Lang _ (RGroup _ _) _ |- _ => inversion H; subst; clear H
         | H : Lang _ (RPlus _ _) _ |- _ => inversion H; subst; clear H
         | H : Lang _ (RChar _) _ |- _ => inversion H; subst; clear H
         | H : Lang _ (RClass _ _) _ |- _ => inversion H; subst; clear H
         end.
  match goal with
  | Hx : canonicalize _ 36 = canonicalize _ ?x,
    Hd : xorb false (existsb (cls_match _ ?d) [CDigit]) = true |- _ =>
      assert (x = 36%N) as -> by (apply canonicalize_dollar, N.eqb_eq; exact Hx);
      cbn in Hd; rewrite orb_false_r in Hd;
      cbn [app]; eexists; eexists; split; [reflexivity | exact Hd]
  end.
Qed.

(** A dollar sign and a digit are a text of the price pattern. *)
Lemma price_text_shortest (d : N) :
  isDigit d = true -> Lang flags_i priceRegex [36%N; d].
Proof.
  intros Hd. unfold priceRegex, RCat. cbn [fold_right].
  apply (@LSeq flags_i _ _ [36%N] [d]); [constructor; reflexivity|].
  apply (@LSeq flags_i _ _ [d] []); [|].
  - constructor.
    apply (@LSeq flags_i _ _ [d] []).
    + apply (@LPlus flags_i true _ [d] []); [|constructor].
      constructor. cbn. rewrite Hd. reflexivity.
    + apply (@LSeq flags_i _ _ [] []); [constructor|].
      apply (@LSeq flags_i _ _ [] []); constructor.
  - apply (@LSeq flags_i _ _ [] []); [constructor|].
    apply (@LSeq flags_i _ _ [] []); constructor.
Qed.

Lemma search_skip_suffixes (fl : flags) (r : regex) (pre s : jsstring)
    (m : match_result) :
  (forall q c p, pre = q ++ c :: p -> match_here fl r (c :: p ++ s) = None) ->
  search fl r s = Some m ->
  search fl r (pre ++ s)
  = Some {| before := pre ++ before m; matched := matched m;
            groups := groups m; after := after m |}.
Proof.
  intros Hpre Hs. induction pre as [|c pre IH]; cbn [app].
  - rewrite Hs. destruct m; reflexivity.
  - cbn [search]. rewrite (Hpre [] c pre eq_refl).
    rewrite IH; [reflexivity|].
    intros q c' p ->. apply (Hpre (c :: q) c' p). reflexivity.
Qed.

(** Before a text that no digit starts, a text without a currency-formatted
    number holds no start of a match of the price pattern. *)
Lemma no_price_before (pre t : jsstring) :
  ~ mentions flags_i priceRegex pre ->
  match t with c :: _ => isDigit c = false | [] => True end ->
  forall q c p, pre = q ++ c :: p ->
    match_here flags_i priceRegex (c :: p ++ t) = None.
Proof.
  intros Hpre Ht q c p ->.
  destruct (match_here flags_i priceRegex (c :: p ++ t)) as [[rest caps]|] eqn:E;
    [|reflexivity].
  exfalso. apply match_here_parts in E as [Hs Hw].
  apply price_text_starts in Hw as [d [w' [Hw Hd]]].
  rewrite Hw in Hs. injection Hs as -> Hs.
  destruct p as [|e p].
  - cbn [app] in Hs. destruct t as [|c t]; [discriminate|].
    injection Hs as -> _. congruence.
  - injection Hs as -> _. apply Hpre.
    exists q, [36%N; d], p. split; [reflexivity|].
    apply price_text_shortest, Hd.
Qed.

(** The first currency-formatted number of a text in which none comes
    before [Image Gen $0.02], and no digit right after it. *)
Lemma price_found (pre post : jsstring) :
  ~ mentions flags_i priceRegex pre ->
  match post with c :: _ => isDigit c = false | [] => True end ->
  exists m, search flags_i priceRegex (pre ++ js "Image Gen $0.02" ++ post) = Some m /\
            group m 1 = js "0.02".
Proof.
  intros Hpre Hpost.
  destruct (price_after_plain_text (js "Image Gen ") post) as [m [Hm Hg]].
  - vm_compute. intros H. repeat (destruct H as [H|H]; [discriminate|]). exact H.
  - exact Hpost.
  - exists {| before := pre ++ before m; matched := matched m;
              groups := groups m; after := after m |}.
    split; [|exact Hg].
    change (js "Image Gen $0.02" ++ post)
      with (js "Image Gen " ++ js "$0.02" ++ post).
    apply search_skip_suffixes; [|exact Hm].
    apply no_price_before; [exact Hpre | reflexivity].
Qed.
(** A payload without [props.pageProps], or whose models are no array,
    gives no record and no error. *)
Lemma payload_without_models :
  extractFromNextData VNull = [] /\
  extractFromNextData (VObject []) = [] /\
  extractFromNextData
    (VObject [(js "props", VObject [(js "pageProps",
       VObject [(js "models", VNumber (lit "3"))])])]) = [].
Proof. repeat split. Qed.

(** A flat field wins over the one under [capabilities]; an entry
    without id is skipped; a [null] entry ends the loop with what was
    built before it. *)
Lemma payload_with_models :
  extractFromNextData
    (VObject [(js "props", VObject [(js "pageProps", VObject [(js "data",
       VObject [(js "models", VArray [
         VObject [(js "id", VString (js "a/b"));
                  (js "imageGen", VString (js "$0.02"));
                  (js "capabilities",
                   VObject [(js "imageGen", VNumber (lit "5"));
                            (js "webSearch", VString (js "0.05"))])];
         VObject [(js "name", VString (js "nameless"))];
         VNull;
         VObject [(js "id", VString (js "c/d"))]])])])])])
  = [{| Scraper.id := VString (js "a/b");
        Scraper.pricingImageGen := Some (lit "0.02");
        Scraper.pricingWebSearch := Some (lit "0.05") |}].
Proof. vm_compute. reflexivity. Qed.

End ScraperFacts.

Module ScraperTheorems.
Import JS Scraper NumberFacts RegexFacts ScraperFacts.

(** C6. [parsePricing] answers for every value, and nothing in its body
    can throw: [null] and [undefined] give [null], a number is handed
    back as it is, a string is parsed once [$], [,] and white space are
    removed, and gives [null] when no number starts it, and a value of
    any other type gives [null]. *)
Theorem parsePricing_contract :
  parsePricing VNull = None /\
  parsePricing VUndefined = None /\
  parsePricing (VNumber (lit "0")) = Some (lit "0") /\
  (forall n : number, parsePricing (VNumber n) = Some n) /\
  parsePricing (VString (js "$0.02")) = Some (lit "0.02") /\
  parsePricing (VString (js "  $1,234.5 ")) = Some (lit "1234.5") /\
  parsePricing (VString (js "abc")) = None /\
  (forall s : jsstring, parsePricing (VString s) <> Some NaN) /\
  (forall b : bool, parsePricing (VBoolean b) = None) /\
  (forall items : list value, parsePricing (VArray items) = None) /\
  (forall props : list (jsstring * value), parsePricing (VObject props) = None).
Proof.
  repeat split; try reflexivity; try (vm_compute; reflexivity).
  intros s. unfold parsePricing.
  destruct (parseFloat _) eqn:E; simpl; discriminate.
Qed.

Section Scrape.
Variable JSON_parse : jsstring -> jsstring + value.

(** C7. Whatever [fetch] settles to, the promise of
    [scrapeVercelModelsPage] is fulfilled with a [ScrapeResult]. When
    [fetch] rejects, when the status is not a success, or when reading
    the body fails, the result has no model and one error, which
    describes the failure. *)
Theorem scrape_never_throws (fetched : thrown + Response) (now : N) :
  (exists result, scrapeVercelModelsPage JSON_parse fetched now = inr result) /\
  (forall error, fetched = inl error ->
     scrapeVercelModelsPage JSON_parse fetched now
     = inr {| models := [];
              errors := [js "Scraping failed: " ++ messageOf error];
              timestamp := now |}) /\
  (forall response, fetched = inr response -> ok response = false ->
     scrapeVercelModelsPage JSON_parse fetched now
     = inr {| models := [];
              errors := [js "Scraping failed: Failed to fetch models page: "
                           ++ natToString (status response) ++ js " "
                           ++ statusText response];
              timestamp := now |}) /\
  (forall response error, fetched = inr response -> ok response = true ->
     text response = inl error ->
     scrapeVercelModelsPage JSON_parse fetched now
     = inr {| models := [];
              errors := [js "Scraping failed: " ++ messageOf error];
              timestamp := now |}).
Proof.
  split; [|split; [|split]].
  - unfold scrapeVercelModelsPage.
    destruct (scrapeAttempt JSON_parse fetched now) as [[error|result] errors];
      eexists; reflexivity.
  - intros error ->. reflexivity.
  - intros response -> Hok. unfold scrapeVercelModelsPage, scrapeAttempt.
    rewrite Hok. reflexivity.
  - intros response error -> Hok Htext.
    unfold scrapeVercelModelsPage, scrapeAttempt. rewrite Hok, Htext. reflexivity.
Qed.

End Scrape.

(** A 404: no model, and the one error names the status. *)
Lemma scrape_never_throws_witness :
  scrapeVercelModelsPage (fun _ => inl (js "Unexpected end of JSON input"))
    (inr {| status := 404; statusText := js "Not Found"; text := inr [] |}) 0
  = inr {| models := [];
           errors := [js "Scraping failed: Failed to fetch models page: 404 Not Found"];
           timestamp := 0 |}.
Proof.
  destruct (scrape_never_throws (fun _ => inl (js "Unexpected end of JSON input"))
              (inr {| status := 404; statusText := js "Not Found"; text := inr [] |}) 0)
    as [_ [_ [H _]]].
  rewrite (H _ eq_refl eq_refl). reflexivity.
Defined.

Lemma loop_from (fuel : nat) (html : jsstring)
    (models : list ScrapedModelCapabilities) :
  extractFromHTML_loop fuel html models
  = models ++ extractFromHTML_loop fuel html [].
Proof.
  revert html models; induction fuel as [|fuel IH]; intros html models;
    cbn [extractFromHTML_loop]; [rewrite app_nil_r; reflexivity|].
  destruct (search flags_i modelRowRegex html) as [m|];
    [|rewrite app_nil_r; reflexivity].
  rewrite IH. rewrite (IH _ (match rowRecord _ _ with Some _ => _ | None => _ end)).
  destruct (rowRecord _ _); cbn [app]; rewrite <- ?app_assoc, ?app_nil_r; reflexivity.
Qed.

(** The first match of the row pattern gives the first record, if it
    gives one, and the extraction goes on with the text after it. *)
Lemma extract_first_row (html : jsstring) (m : match_result) :
  search flags_i modelRowRegex html = Some m ->
  extractFromHTML html
  = match rowRecord (group m 1) (matched m) with
    | Some record => [record]
    | None => []
    end ++ extractFromHTML (after m).
Proof.
  intros Hm. unfold extractFromHTML at 1.
  cbn [extractFromHTML_loop]. rewrite Hm, loop_from.
  pose proof (search_advances flags_i modelRowRegex html m eq_refl Hm) as Hlt.
  unfold extractFromHTML.
  rewrite (extractFromHTML_enough_fuel (List.length html) (S (List.length (after m))))
    by lia.
  destruct (rowRecord _ _); reflexivity.
Qed.

Lemma mentions_inside (fl : flags) (r : regex) (x w y : jsstring) :
  Lang fl r w -> mentions fl r (x ++ w ++ y).
Proof. intros Hw. exists x, w, y. split; [reflexivity | exact Hw]. Qed.

(** C8, as the scraper has it. Take the first row the row pattern finds
    in a page, with the slug [gemini-3-flash]. When the row holds
    the link of that model and the text [Image Gen $0.02] with no
    currency-formatted number before it and no digit right after it, and
    holds, in any letter case,
    no negation marker (em dash, [none], [no]), none of the keywords
    [openai], [gpt], [anthropic], [claude], and no mention of web search,
    the extraction yields for it the record [google/gemini-3-flash] with
    0.02 for image generation and no price for web search, ahead of the
    records of the rest of the page. *)
Theorem gemini_row_yields_its_record
    (html : jsstring) (m : match_result) (x y pre post : jsstring) :
  search flags_i modelRowRegex html = Some m ->
  group m 1 = js "gemini-3-flash" ->
  matched m = x ++ Scenario.geminiLink ++ y ->
  matched m = pre ++ js "Image Gen $0.02" ++ post ->
  ~ mentions flags_i priceRegex pre ->
  match post with c :: _ => isDigit c = false | [] => True end ->
  ~ mentions flags_i negationRegex (matched m) ->
  ~ mentions flags_i (keywords "openai" "gpt") (matched m) ->
  ~ mentions flags_i (keywords "anthropic" "claude") (matched m) ->
  ~ mentions flags_i webSearchRegex (matched m) ->
  extractFromHTML html = Scenario.geminiRecord :: extractFromHTML (after m).
Proof.
  intros Hm Hslug Hlink Htext Hpre Hpost Hno Hopenai Hanthropic Hweb.
  rewrite (extract_first_row html m Hm), Hslug.
  assert (Hgoogle : test flags_i (keywords "google" "gemini") (matched m) = true).
  { apply test_mentions. rewrite Hlink.
    change Scenario.geminiLink
      with (js "href=" ++ quot :: js "/ai-gateway/models/"
               ++ js "gemini" ++ js "-3-flash" ++ [quot]).
    replace (x ++ (js "href=" ++ quot :: js "/ai-gateway/models/" ++ js "gemini"
                      ++ js "-3-flash" ++ [quot]) ++ y)
      with ((x ++ js "href=" ++ quot :: js "/ai-gateway/models/")
              ++ js "gemini" ++ (js "-3-flash" ++ [quot]) ++ y)
      by (rewrite <- !app_assoc; reflexivity).
    apply mentions_inside, LAltR, whole_match_Lang. vm_compute. reflexivity. }
  assert (Himage : test flags_i imageGenRegex (matched m) = true).
  { apply test_mentions. rewrite Htext.
    change (js "Image Gen $0.02") with (js "Image Gen" ++ js " $0.02").
    rewrite <- app_assoc.
    apply mentions_inside, whole_match_Lang. vm_compute. reflexivity. }
  assert (Hprice : extractPricingFromRow (matched m) (js "Image Gen")
                   = Some (lit "0.02")).
  { destruct (price_found pre post Hpre Hpost) as [pm [Hpm Hgroup]].
    unfold extractPricingFromRow. rewrite Htext, Hpm, Hgroup.
    vm_compute. reflexivity. }
  unfold rowRecord, inferModelId. cbn [providerPatterns List.find fst].
  rewrite (test_false_not_mentions _ _ _ Hopenai).
  rewrite (test_false_not_mentions _ _ _ Hanthropic).
  rewrite Hgoogle, Himage.
  rewrite (test_false_not_mentions _ _ _ Hno).
  rewrite (test_false_not_mentions _ _ _ Hweb).
  cbn [andb negb]. rewrite Hprice.
  change (replaceAll _ (RChar 45) (js "-") (js "gemini-3-flash"))
    with (js "gemini-3-flash").
  reflexivity.
Qed.

(** The row of the scenario, as the whole page. *)
Lemma gemini_row_yields_its_record_witness :
  extractFromHTML Scenario.geminiRow = Scenario.geminiRecord :: extractFromHTML [].
Proof.
  assert (Habsent : forall r s, test flags_i r s = false -> ~ mentions flags_i r s).
  { intros r s Hr Hm. apply test_mentions in Hm. congruence. }
  eapply (gemini_row_yields_its_record Scenario.geminiRow
            {| before := []; matched := Scenario.geminiRow;
               groups := [(1, js "gemini-3-flash")]; after := [] |}
            (js "<tr><td><a ")
            (js ">Gemini 3 Flash</a></td><td>Image Gen $0.02</td></tr>")
            (js "<tr><td><a " ++ Scenario.geminiLink
                ++ js ">Gemini 3 Flash</a></td><td>")
            (js "</td></tr>")).
  - vm_compute. reflexivity.
  - reflexivity.
  - reflexivity.
  - vm_compute. reflexivity.
  - apply Habsent. vm_compute. reflexivity.
  - reflexivity.
  - apply Habsent. vm_compute. reflexivity.
  - apply Habsent. vm_compute. reflexivity.
  - apply Habsent. vm_compute. reflexivity.
  - apply Habsent. vm_compute. reflexivity.
Defined.

(** C8 does not hold as stated: take a row that holds the link, the text
    [Image Gen $0.02] and no mention of web search, and whose first cell
    has the class [nowrap]. The letters [no] of the class count as a
    negation marker, and the record comes without its price. *)
Lemma nowrap_row_loses_its_price :
  includes Scenario.nowrapRow Scenario.geminiLink = true /\
  includes Scenario.nowrapRow (js "Image Gen $0.02") = true /\
  test flags_i webSearchRegex Scenario.nowrapRow = false /\
  extractFromHTML Scenario.nowrapRow
  = [{| id := VString (js "google/gemini-3-flash");
        pricingImageGen := None;
        pricingWebSearch := None |}] /\
  extractFromHTML Scenario.nowrapRow <> [Scenario.geminiRecord].
Proof.
  repeat split; try (vm_compute; reflexivity). vm_compute. discriminate.
Qed.

End ScraperTheorems.
(* ------------------------------------------------------------------ *)
(** ** The capability sync route: rejections, failures, accounting      *)
(* ------------------------------------------------------------------ *)

Module RouteProperties.
Import JS Store SyncRoute NumberFacts MappingFacts SyncFacts.
Import Capabilities(MODEL_CAPABILITIES, getModelCapabilities, priced, wellPriced).
Import Capabilities(readMapping, isInherited, inheritedKeys, Entry, Inherited, NoMember).
Import (hints) ListStore.

(** The message a request is turned away with. *)
Lemma rejectRequest_cases (B : Type) (env : ProcessEnv) (request : Request) :
  MODELS_SYNC_API_KEY env = None \/ MODELS_SYNC_API_KEY env = Some [] \/
  x_api_key request <> MODELS_SYNC_API_KEY env ->
  @rejectRequest B env request =
  Some match MODELS_SYNC_API_KEY env with
       | None | Some [] =>
           ChatSDKError (js "bad_request:api") (js "MODELS_SYNC_API_KEY not configured")
       | Some (_ :: _) => ChatSDKError (js "unauthorized:api") (js "Invalid API key")
       end.
Proof.
  unfold rejectRequest.
  destruct (MODELS_SYNC_API_KEY env) as [[|c k]|] eqn:E; try reflexivity.
  intros [H | [H | H]]; try discriminate.
  destruct (x_api_key request) as [key|]; [|reflexivity].
  destruct (jsstring_eqb key (c :: k)) eqn:Ek; [|reflexivity].
  apply jsstring_eqb_eq in Ek. subst key. contradiction.
Qed.

(** A request is only ever turned away with an error. *)
Lemma rejectRequest_error (B : Type) (env : ProcessEnv) (request : Request)
    (response : Response B) :
  rejectRequest env request = Some response ->
  exists code cause, response = ChatSDKError code cause.
Proof.
  unfold rejectRequest.
  destruct (MODELS_SYNC_API_KEY env) as [[|c k]|];
    try (intros [= <-]; eauto; fail).
  destruct (x_api_key request) as [key|]; [|intros [= <-]; eauto].
  destruct (jsstring_eqb key (c :: k)); [discriminate|intros [= <-]; eauto].
Qed.

(** The shape of every report [POST] returns. *)
Lemma postReport_counts (ms : list Db.Model) (r : UpdateResult.t) (ts : jsstring) :
  let report := postReport ms (sortModels ms) r ts in
  PostSummary.totalModels (PostReport.summary report) = List.length ms /\
  List.length (PostDetails.updated (PostReport.details report))
    = List.length (List.filter changed ms) /\
  PostSummary.unchanged (PostReport.summary report)
    = List.length (List.filter unchangedModel ms) /\
  PostSummary.notInMapping (PostReport.summary report)
    = List.length (List.filter unmapped ms) /\
  List.length (PostDetails.notInMapping (PostReport.details report))
    = Nat.min 20 (List.length (List.filter unmapped ms)).
Proof.
  cbv zeta.
  cbn [postReport PostReport.summary PostReport.details PostSummary.totalModels
       PostSummary.unchanged PostSummary.notInMapping PostDetails.updated
       PostDetails.notInMapping].
  rewrite copy_updates, sortModels_spec. cbn [updates unchanged notInMapping].
  rewrite length_firstn, !length_map. repeat split.
Qed.

Lemma filter_preview (f : PreviewEntry.t -> bool) (ms : list Db.Model) :
  List.filter f (List.map previewModel ms)
  = List.map previewModel (List.filter (fun m => f (previewModel m)) ms).
Proof.
  induction ms as [|m l IH]; [reflexivity|].
  cbn [List.map List.filter]. destruct (f (previewModel m)); cbn [List.map];
    rewrite IH; reflexivity.
Qed.

Section AnyStore.
Context {W : Type} {ops : Ops W}.

(** A report of [POST] is built from the models read and the answer of
    the bulk write, or from no write at all. *)
Lemma POST_report (env : ProcessEnv) (request : Request) (sys sys' : Sys W)
    (report : PostReport.t) :
  POST env request sys = (Json report, sys') ->
  exists ms result ts,
    getEnabledModels (world sys) = inr ms /\
    report = postReport ms (sortModels ms) result ts.
Proof.
  unfold POST. destruct (rejectRequest env request) as [response|] eqn:Hrej.
  { destruct (rejectRequest_error _ _ _ _ Hrej) as [code [cause ->]]. discriminate. }
  destruct (getEnabledModels (world sys)) as [error|ms] eqn:Hread.
  - unfold applySync, bind, awaitGetEnabledModels. rewrite Hread. discriminate.
  - rewrite (applySync_run sys ms Hread).
    destruct (List.filter changed ms).
    + intros [= <- _]. eauto.
    + destruct (bulkUpdateModelCapabilities _ _) as [[error|result] w'].
      * discriminate.
      * intros [= <- _]. eauto.
Qed.

Lemma GET_report (env : ProcessEnv) (request : Request) (sys sys' : Sys W)
    (report : GetReport.t) :
  GET env request sys = (Json report, sys') ->
  exists ms ts,
    getEnabledModels (world sys) = inr ms /\
    report = getReport (List.map previewModel ms) ts.
Proof.
  unfold GET. destruct (rejectRequest env request) as [response|] eqn:Hrej.
  { destruct (rejectRequest_error _ _ _ _ Hrej) as [code [cause ->]]. discriminate. }
  unfold previewSync, bind, awaitGetEnabledModels, now, ret.
  destruct (getEnabledModels (world sys)) as [error|ms] eqn:Hread.
  - discriminate.
  - rewrite previewModels_map. intros [= <- _]. eauto.
Qed.

(** X1. Without a configured key (unset or empty), or with a request key
    that is not the configured one, [POST] and [GET] answer with the same
    error and neither reads nor writes the store. The configuration is
    checked first: an empty configured key turns away even a request
    that presents an empty key. *)
Theorem rejected_request_touches_nothing
    (env : ProcessEnv) (request : Request) (sys : Sys W) :
  MODELS_SYNC_API_KEY env = None \/ MODELS_SYNC_API_KEY env = Some [] \/
  x_api_key request <> MODELS_SYNC_API_KEY env ->
  exists code cause,
    POST env request sys = (ChatSDKError code cause, sys) /\
    GET env request sys = (ChatSDKError code cause, sys) /\
    match MODELS_SYNC_API_KEY env with
    | None | Some [] =>
        code = js "bad_request:api" /\ cause = js "MODELS_SYNC_API_KEY not configured"
    | Some (_ :: _) =>
        code = js "unauthorized:api" /\ cause = js "Invalid API key"
    end.
Proof.
  intros H. unfold POST, GET.
  rewrite (rejectRequest_cases PostReport.t env request H).
  rewrite (rejectRequest_cases GetReport.t env request H).
  destruct (MODELS_SYNC_API_KEY env) as [[|c k]|]; eauto 10.
Qed.

(** X2. When the read of the models fails, [POST] and [GET] answer with a
    [bad_request:api] error that carries the message of the failure; no
    report is returned and the bulk write is not called. *)
Theorem failing_read_is_reported
    (env : ProcessEnv) (request : Request) (sys : Sys W) (error : thrown) :
  authorized env request = true ->
  getEnabledModels (world sys) = inl error ->
  POST env request sys
    = (ChatSDKError (js "bad_request:api")
         (js "Failed to sync capabilities: " ++ messageOf error), sys) /\
  GET env request sys
    = (ChatSDKError (js "bad_request:api")
         (js "Failed to preview capabilities: " ++ messageOf error), sys).
Proof.
  intros Ha Hread. split.
  - rewrite (POST_run _ _ _ Ha).
    unfold applySync, bind, awaitGetEnabledModels. rewrite Hread. reflexivity.
  - unfold GET. rewrite (authorized_passes _ _ _ Ha).
    unfold previewSync, bind, awaitGetEnabledModels. rewrite Hread. reflexivity.
Qed.

(** X3. When the bulk write itself fails, [POST] answers with a
    [bad_request:api] error and no report, although the batch was handed
    over and the store is in whatever state the failed write left. *)
Theorem failing_write_is_reported
    (env : ProcessEnv) (request : Request) (sys : Sys W) (ms : list Db.Model)
    (error : thrown) (w' : W) :
  authorized env request = true ->
  getEnabledModels (world sys) = inr ms ->
  List.filter changed ms <> [] ->
  bulkUpdateModelCapabilities (List.map desiredUpdate (List.filter changed ms))
                              (world sys) = (inl error, w') ->
  POST env request sys
    = (ChatSDKError (js "bad_request:api")
         (js "Failed to sync capabilities: " ++ messageOf error),
       {| world := w';
          bulkCalls := bulkCalls sys
                         ++ [List.map desiredUpdate (List.filter changed ms)] |}).
Proof.
  intros Ha Hread Hne Hbulk. rewrite (POST_run _ _ _ Ha).
  rewrite (applySync_run sys ms Hread), sortModels_spec. cbn [updates].
  rewrite Hbulk. destruct (List.filter changed ms); [contradiction|reflexivity].
Qed.

(** X4. [GET] is free of effects: whatever the request and whatever the
    store answers, the state behind the queries and the list of bulk
    writes are after the call what they were before. *)
Theorem preview_never_writes
    (env : ProcessEnv) (request : Request) (sys : Sys W) :
  snd (GET env request sys) = sys.
Proof.
  unfold GET. destruct (rejectRequest env request); [reflexivity|].
  unfold previewSync, bind, awaitGetEnabledModels, now, ret.
  destruct (getEnabledModels (world sys)); reflexivity.
Qed.

(** X5. One call of [POST] hands at most one batch to the bulk write. It
    hands none, and leaves the store alone, unless the request is let
    through and some model read differs from what the read of the
    mapping gives for it, as every model named after an inherited
    member does; the batch is then not empty, holds one record for each
    such model in the order read, and every record carries the prices
    read off the mapping. *)
Theorem apply_writes_at_most_once
    (env : ProcessEnv) (request : Request) (sys : Sys W) :
  snd (POST env request sys) = sys \/
  exists ms us,
    getEnabledModels (world sys) = inr ms /\
    us = List.map desiredUpdate (List.filter changed ms) /\
    us <> [] /\
    Forall carriesDesired us /\
    List.map Update.id us = List.map Db.id (List.filter changed ms) /\
    snd (POST env request sys)
      = {| world := snd (bulkUpdateModelCapabilities us (world sys));
           bulkCalls := bulkCalls sys ++ [us] |}.
Proof.
  unfold POST. destruct (rejectRequest env request); [left; reflexivity|].
  destruct (getEnabledModels (world sys)) as [error|ms] eqn:Hread.
  - left. unfold applySync, bind, awaitGetEnabledModels. rewrite Hread. reflexivity.
  - rewrite (applySync_run sys ms Hread), sortModels_spec. cbn [updates].
    destruct (List.filter changed ms) as [|m l] eqn:Hch; [left; reflexivity|].
    right. exists ms, (List.map desiredUpdate (m :: l)).
    split; [reflexivity|]. split; [rewrite Hch; reflexivity|].
    split; [discriminate|]. split.
    { apply Forall_forall. intros u Hu. apply in_map_iff in Hu.
      destruct Hu as [x [<- _]]. apply desiredUpdate_carries. }
    split.
    { rewrite Hch, map_map. reflexivity. }
    destruct (bulkUpdateModelCapabilities _ _) as [[error|result] w']; reflexivity.
Qed.

(** X6. In every report of [POST] each model read is counted once, as a
    record of [details.updated] or as unchanged; the models outside the
    mapping are counted among these, and [details.notInMapping] lists
    twenty of them at most. *)
Theorem apply_report_counts_every_model
    (env : ProcessEnv) (request : Request) (sys sys' : Sys W)
    (report : PostReport.t) :
  POST env request sys = (Json report, sys') ->
  PostReport.success report = true /\
  PostSummary.totalModels (PostReport.summary report)
    = List.length (PostDetails.updated (PostReport.details report))
      + PostSummary.unchanged (PostReport.summary report) /\
  PostSummary.notInMapping (PostReport.summary report)
    <= PostSummary.totalModels (PostReport.summary report) /\
  List.length (PostDetails.notInMapping (PostReport.details report))
    = Nat.min 20 (PostSummary.notInMapping (PostReport.summary report)).
Proof.
  intros Hrun. destruct (POST_report _ _ _ _ _ Hrun) as [ms [result [ts [_ ->]]]].
  destruct (postReport_counts ms result ts) as [Ht [Hu [Hn [Hm Hd]]]].
  cbv zeta in Ht, Hu, Hn, Hm, Hd. rewrite Ht, Hu, Hn, Hm, Hd.
  split; [reflexivity|]. split.
  { rewrite <- (filter_length changed ms). reflexivity. }
  split; [apply filter_length_le|reflexivity].
Qed.

(** X7. In every report of [GET] the preview has one entry for each model
    read, and the summary splits them twice: into those that will update
    and those that will not, and into those in the mapping and those
    outside it. *)
Theorem preview_report_counts_every_model
    (env : ProcessEnv) (request : Request) (sys sys' : Sys W)
    (report : GetReport.t) :
  GET env request sys = (Json report, sys') ->
  GetSummary.total (GetReport.summary report)
    = List.length (GetReport.preview report) /\
  GetSummary.willUpdate (GetReport.summary report)
    + GetSummary.unchanged (GetReport.summary report)
    = GetSummary.total (GetReport.summary report) /\
  GetSummary.inMapping (GetReport.summary report)
    + GetSummary.notInMapping (GetReport.summary report)
    = GetSummary.total (GetReport.summary report) /\
  GetSummary.willUpdate (GetReport.summary report)
    = List.length (List.filter PreviewEntry.willUpdate (GetReport.preview report)).
Proof.
  intros Hrun. destruct (GET_report _ _ _ _ _ Hrun) as [ms [ts [_ ->]]].
  cbn. split; [reflexivity|]. split; [apply filter_length|].
  split; [apply filter_length|reflexivity].
Qed.

(** X8. On the same store the summary of [GET] foretells that of [POST]:
    as many models in all, as many to update as [POST] lists in
    [details.updated], as many unchanged and as many outside the
    mapping. *)
Theorem preview_predicts_apply
    (env : ProcessEnv) (request : Request) (sys : Sys W)
    (applied : PostReport.t) (previewed : GetReport.t) (sys1 sys2 : Sys W) :
  POST env request sys = (Json applied, sys1) ->
  GET env request sys = (Json previewed, sys2) ->
  GetSummary.total (GetReport.summary previewed)
    = PostSummary.totalModels (PostReport.summary applied) /\
  GetSummary.willUpdate (GetReport.summary previewed)
    = List.length (PostDetails.updated (PostReport.details applied)) /\
  GetSummary.unchanged (GetReport.summary previewed)
    = PostSummary.unchanged (PostReport.summary applied) /\
  GetSummary.notInMapping (GetReport.summary previewed)
    = PostSummary.notInMapping (PostReport.summary applied) /\
  List.map PreviewEntry.id
           (List.filter PreviewEntry.willUpdate (GetReport.preview previewed))
    = List.map Update.id (PostDetails.updated (PostReport.details applied)).
Proof.
  intros Hpost Hget.
  destruct (POST_report _ _ _ _ _ Hpost) as [ms [result [ts [Hread ->]]]].
  destruct (GET_report _ _ _ _ _ Hget) as [ms' [ts' [Hread' ->]]].
  rewrite Hread in Hread'. injection Hread' as <-.
  destruct (postReport_counts ms result ts) as [Ht [Hu [Hn [Hm _]]]].
  cbv zeta in Ht, Hu, Hn, Hm. rewrite Ht, Hu, Hn, Hm.
  pose proof (fun f => filter_preview f ms) as Hf.
  cbn [GetReport.summary GetReport.preview getReport GetSummary.total
       GetSummary.willUpdate GetSummary.unchanged GetSummary.notInMapping].
  rewrite !Hf, !length_map.
  split; [reflexivity|]. split; [reflexivity|]. split; [reflexivity|].
  split; [reflexivity|].
  cbn [PostReport.details postReport PostDetails.updated].
  rewrite copy_updates, sortModels_spec. cbn [updates].
  rewrite !map_map. reflexivity.
Qed.

End AnyStore.

(** X9. A model without an entry in the mapping. When its id names no
    inherited member either, it is counted as not in the mapping, is
    submitted with both prices cleared as soon as the store holds a
    price for it, and is left unchanged with no price stored. When its
    id names an inherited member, such as [constructor], it is not
    counted as not in the mapping and is submitted with both prices
    [undefined], whatever the store holds for it. *)
Theorem unlisted_model_is_cleared (ms : list Db.Model) (m : Db.Model) :
  In m ms ->
  lookup MODEL_CAPABILITIES (Db.id m) = None ->
  (~ In (Db.id m) inheritedKeys ->
   In (Db.id m) (notInMapping (sortModels ms)) /\
   (Db.pricingImageGen m <> None \/ Db.pricingWebSearch m <> None ->
    In {| Update.id := Db.id m; Update.pricingImageGen := Known None;
          Update.pricingWebSearch := Known None |} (updates (sortModels ms))) /\
   (Db.pricingImageGen m = None -> Db.pricingWebSearch m = None ->
    In (Db.id m) (unchanged (sortModels ms)))) /\
  (In (Db.id m) inheritedKeys ->
   ~ In (Db.id m) (notInMapping (sortModels ms)) /\
   In {| Update.id := Db.id m; Update.pricingImageGen := Undefined;
         Update.pricingWebSearch := Undefined |} (updates (sortModels ms)) /\
   ~ In (Db.id m) (unchanged (sortModels ms))).
Proof.
  intros Hin Hno. rewrite sortModels_spec. cbn [updates unchanged notInMapping].
  split.
  - intros Hord.
    assert (Hun : unmapped m = true) by (apply unmapped_iff; tauto).
    assert (Hcaps : getModelCapabilities (Db.id m)
                    = {| Prices.pricingImageGen := Known None;
                         Prices.pricingWebSearch := Known None |}).
    { unfold unmapped, inMapping in Hun. unfold getModelCapabilities.
      destruct (readMapping (Db.id m)); try discriminate. reflexivity. }
    split.
    { apply in_map. apply filter_In. split; [exact Hin | exact Hun]. }
    split.
    + intros Hprice. apply in_map_iff. exists m. split.
      * unfold desiredUpdate. rewrite Hcaps. reflexivity.
      * apply filter_In. split; [exact Hin|].
        unfold changed. rewrite Hcaps. cbn.
        destruct (Db.pricingImageGen m), (Db.pricingWebSearch m); try reflexivity.
        destruct Hprice; contradiction.
    + intros Hi Hw. apply in_map. apply filter_In. split; [exact Hin|].
      unfold unchangedModel, changed. rewrite Hcaps, Hi, Hw. reflexivity.
  - intros Hinh.
    destruct (inherited_name_is_always_changed m Hinh) as [Hch [_ Hup]].
    split.
    { intros H. apply in_map_iff in H. destruct H as [m' [Hid H]].
      apply filter_In in H. destruct H as [_ H]. apply unmapped_iff in H.
      rewrite Hid in H. tauto. }
    split.
    + apply in_map_iff. exists m. split; [exact Hup|].
      apply filter_In. split; [exact Hin | exact Hch].
    + intros H. apply in_map_iff in H. destruct H as [m' [Hid H]].
      apply filter_In in H. destruct H as [_ H]. unfold unchangedModel in H.
      rewrite <- Hid in Hinh.
      rewrite (proj1 (inherited_name_is_always_changed m' Hinh)) in H.
      discriminate.
Qed.

Lemma rejected_request_touches_nothing_witness :
  exists code cause,
    POST {| MODELS_SYNC_API_KEY := Some [] |} {| x_api_key := Some [] |}
         (start (Scenario.store [Scenario.gpt4o] Scenario.accepting))
      = (ChatSDKError code cause,
         start (Scenario.store [Scenario.gpt4o] Scenario.accepting)) /\
    GET {| MODELS_SYNC_API_KEY := Some [] |} {| x_api_key := Some [] |}
        (start (Scenario.store [Scenario.gpt4o] Scenario.accepting))
      = (ChatSDKError code cause,
         start (Scenario.store [Scenario.gpt4o] Scenario.accepting)) /\
    code = js "bad_request:api" /\ cause = js "MODELS_SYNC_API_KEY not configured".
Proof.
  apply (rejected_request_touches_nothing
           {| MODELS_SYNC_API_KEY := Some [] |} {| x_api_key := Some [] |}
           (start (Scenario.store [Scenario.gpt4o] Scenario.accepting))).
  right. left. reflexivity.
Defined.

Lemma failing_read_is_reported_witness :
  POST Scenario.env Scenario.request (start Scenario.down)
    = (ChatSDKError (js "bad_request:api")
         (js "Failed to sync capabilities: connection refused"),
       start Scenario.down) /\
  GET Scenario.env Scenario.request (start Scenario.down)
    = (ChatSDKError (js "bad_request:api")
         (js "Failed to preview capabilities: connection refused"),
       start Scenario.down).
Proof.
  apply (failing_read_is_reported Scenario.env Scenario.request
           (start Scenario.down) (Error (js "connection refused"))); reflexivity.
Defined.

Lemma failing_write_is_reported_witness :
  @POST _ Scenario.readOnly Scenario.env Scenario.request (start [Scenario.gpt4o])
    = (ChatSDKError (js "bad_request:api")
         (js "Failed to sync capabilities: cannot execute UPDATE in a read-only transaction"),
       {| world := [Scenario.gpt4o];
          bulkCalls := [] ++ [List.map desiredUpdate
                                (List.filter changed [Scenario.gpt4o])] |}).
Proof.
  apply (@failing_write_is_reported _ Scenario.readOnly Scenario.env Scenario.request
           (start [Scenario.gpt4o]) [Scenario.gpt4o]
           (Error (js "cannot execute UPDATE in a read-only transaction"))
           [Scenario.gpt4o]);
    [reflexivity | reflexivity | vm_compute; discriminate | reflexivity].
Defined.

Lemma apply_report_counts_every_model_witness :
  exists report sys',
    POST Scenario.env Scenario.request
         (start (Scenario.store Scenario.threeStale Scenario.rejectingSonar))
      = (Json report, sys') /\
    PostReport.success report = true /\
    PostSummary.totalModels (PostReport.summary report)
      = List.length (PostDetails.updated (PostReport.details report))
        + PostSummary.unchanged (PostReport.summary report) /\
    PostSummary.notInMapping (PostReport.summary report)
      <= PostSummary.totalModels (PostReport.summary report) /\
    List.length (PostDetails.notInMapping (PostReport.details report))
      = Nat.min 20 (PostSummary.notInMapping (PostReport.summary report)).
Proof.
  destruct (POST Scenario.env Scenario.request
              (start (Scenario.store Scenario.threeStale Scenario.rejectingSonar)))
    as [[report|code cause] sys'] eqn:E; [|vm_compute in E; discriminate].
  exists report, sys'. split; [reflexivity|].
  exact (apply_report_counts_every_model _ _ _ _ _ E).
Defined.

Lemma preview_report_counts_every_model_witness :
  exists report sys',
    GET Scenario.env Scenario.request
        (start (Scenario.store Scenario.threeStale Scenario.accepting))
      = (Json report, sys') /\
    GetSummary.total (GetReport.summary report)
      = List.length (GetReport.preview report) /\
    GetSummary.willUpdate (GetReport.summary report)
      + GetSummary.unchanged (GetReport.summary report)
      = GetSummary.total (GetReport.summary report) /\
    GetSummary.inMapping (GetReport.summary report)
      + GetSummary.notInMapping (GetReport.summary report)
      = GetSummary.total (GetReport.summary report) /\
    GetSummary.willUpdate (GetReport.summary report)
      = List.length (List.filter PreviewEntry.willUpdate (GetReport.preview report)).
Proof.
  destruct (GET Scenario.env Scenario.request
              (start (Scenario.store Scenario.threeStale Scenario.accepting)))
    as [[report|code cause] sys'] eqn:E; [|vm_compute in E; discriminate].
  exists report, sys'. split; [reflexivity|].
  exact (preview_report_counts_every_model _ _ _ _ _ E).
Defined.

Lemma preview_predicts_apply_witness :
  exists applied previewed sys1 sys2,
    POST Scenario.env Scenario.request
         (start (Scenario.store (Scenario.retired :: Scenario.threeStale)
                                Scenario.accepting))
      = (Json applied, sys1) /\
    GET Scenario.env Scenario.request
        (start (Scenario.store (Scenario.retired :: Scenario.threeStale)
                               Scenario.accepting))
      = (Json previewed, sys2) /\
    GetSummary.total (GetReport.summary previewed)
      = PostSummary.totalModels (PostReport.summary applied) /\
    GetSummary.willUpdate (GetReport.summary previewed)
      = List.length (PostDetails.updated (PostReport.details applied)) /\
    GetSummary.unchanged (GetReport.summary previewed)
      = PostSummary.unchanged (PostReport.summary applied) /\
    GetSummary.notInMapping (GetReport.summary previewed)
      = PostSummary.notInMapping (PostReport.summary applied) /\
    List.map PreviewEntry.id
             (List.filter PreviewEntry.willUpdate (GetReport.preview previewed))
      = List.map Update.id (PostDetails.updated (PostReport.details applied)).
Proof.
  destruct (POST Scenario.env Scenario.request
              (start (Scenario.store (Scenario.retired :: Scenario.threeStale)
                                     Scenario.accepting)))
    as [[applied|code cause] sys1] eqn:E1; [|vm_compute in E1; discriminate].
  destruct (GET Scenario.env Scenario.request
              (start (Scenario.store (Scenario.retired :: Scenario.threeStale)
                                     Scenario.accepting)))
    as [[previewed|code cause] sys2] eqn:E2; [|vm_compute in E2; discriminate].
  exists applied, previewed, sys1, sys2.
  split; [reflexivity|]. split; [reflexivity|].
  exact (preview_predicts_apply _ _ _ _ _ _ _ E1 E2).
Defined.

(** One model priced in the store without an entry in the mapping, and
    one named after an inherited member. *)
Lemma unlisted_model_is_cleared_witness :
  (In (js "local/retired")
      (notInMapping (sortModels (Scenario.retired :: Scenario.prototypeRows))) /\
   In {| Update.id := js "local/retired"; Update.pricingImageGen := Known None;
         Update.pricingWebSearch := Known None |}
      (updates (sortModels (Scenario.retired :: Scenario.prototypeRows)))) /\
  (~ In (js "constructor")
        (notInMapping (sortModels (Scenario.retired :: Scenario.prototypeRows))) /\
   In {| Update.id := js "constructor"; Update.pricingImageGen := Undefined;
         Update.pricingWebSearch := Undefined |}
      (updates (sortModels (Scenario.retired :: Scenario.prototypeRows))) /\
   ~ In (js "constructor")
        (unchanged (sortModels (Scenario.retired :: Scenario.prototypeRows)))).
Proof.
  split.
  - destruct (unlisted_model_is_cleared (Scenario.retired :: Scenario.prototypeRows)
                Scenario.retired) as [[Hn [Hu _]] _];
      [left; reflexivity | reflexivity | |].
    + intros H. apply isInherited_In in H. vm_compute in H. discriminate.
    + split; [exact Hn|]. apply Hu. left. discriminate.
  - destruct (unlisted_model_is_cleared (Scenario.retired :: Scenario.prototypeRows)
                Scenario.constructorRow) as [_ H];
      [right; left; reflexivity | reflexivity |].
    apply H. apply isInherited_In. vm_compute. reflexivity.
Defined.

End RouteProperties.
(* ------------------------------------------------------------------ *)
(** ** The static mapping: lookups and listings                         *)
(* ------------------------------------------------------------------ *)

Module MappingProperties.
Import JS Capabilities NumberFacts MappingFacts.

(** With distinct keys, an entry of an object is what a lookup of its key
    finds. *)
Lemma In_lookup (A : Type) (o : list (jsstring * A)) (key : jsstring) (v : A) :
  NoDup (List.map fst o) -> In (key, v) o -> lookup o key = Some v.
Proof.
  induction o as [|[k x] o IH]; [intros _ []|].
  cbn [List.map fst lookup]. intros Hnd [Heq | Hin].
  - injection Heq as -> ->. rewrite jsstring_eqb_refl. reflexivity.
  - destruct (jsstring_eqb k key) eqn:E.
    + apply jsstring_eqb_eq in E. subst k. apply NoDup_cons_iff in Hnd.
      destruct Hnd as [Hk _]. exfalso. apply Hk.
      apply in_map_iff. exists (key, v). split; [reflexivity | exact Hin].
    + apply NoDup_cons_iff in Hnd. apply IH; tauto.
Qed.

Lemma NoDup_keys_filter (A : Type) (f : jsstring * A -> bool)
    (o : list (jsstring * A)) :
  NoDup (List.map fst o) -> NoDup (List.map fst (List.filter f o)).
Proof.
  induction o as [|e o IH]; [intros _; constructor|].
  cbn [List.map List.filter]. intros Hnd. apply NoDup_cons_iff in Hnd.
  destruct Hnd as [Hk Ho]. destruct (f e); [|auto].
  cbn [List.map]. constructor; [|auto].
  intros Hin. apply Hk. apply in_map_iff in Hin. destruct Hin as [e' [<- He']].
  apply filter_In in He'. apply in_map. tauto.
Qed.

(** An id is listed for a capability exactly when its lookup gives a
    number for the capability. *)
Lemma listed_iff_priced (c : capability) (modelId : jsstring) :
  In modelId (getModelsWithCapability c) <->
  exists x,
    match c with
    | imageGen => Prices.pricingImageGen (getModelCapabilities modelId)
    | webSearch => Prices.pricingWebSearch (getModelCapabilities modelId)
    end = Known (Some x).
Proof.
  unfold getModelsWithCapability, getModelCapabilities. split.
  - intros Hin. apply in_map_iff in Hin. destruct Hin as [[k e] [Hk He]].
    cbn [fst] in Hk. subst k. apply filter_In in He. destruct He as [Hin Hf].
    unfold readMapping. rewrite (In_lookup _ _ _ _ mapping_keys_distinct Hin).
    cbn [snd] in Hf. destruct c; cbn [Prices.pricingImageGen Prices.pricingWebSearch].
    + destruct (pricingImageGen e) as [x|]; [exists x; reflexivity|discriminate].
    + destruct (pricingWebSearch e) as [x|]; [exists x; reflexivity|discriminate].
  - unfold readMapping.
    destruct (lookup MODEL_CAPABILITIES modelId) as [e|] eqn:E.
    + intros [x Hp]. apply in_map_iff. exists (modelId, e). split; [reflexivity|].
      apply filter_In. split; [apply lookup_In, E|]. cbn [snd].
      destruct c; cbn [Prices.pricingImageGen Prices.pricingWebSearch] in Hp.
      * destruct (pricingImageGen e); [reflexivity|discriminate].
      * destruct (pricingWebSearch e); [reflexivity|discriminate].
    + destruct (isInherited modelId); destruct c; cbn; intros [x Hp]; discriminate.
Qed.

(** X10. [getModelsWithCapability] and [getModelCapabilities] agree on
    numbers: an id is listed for a capability exactly when its lookup
    gives a number as the price of that capability, and no id is listed
    twice. They do not agree on absence: for the name of an inherited
    member, such as [constructor], the lookup gives [undefined], which
    is not [null], and the id is not listed. *)
Theorem capability_listing_agrees_with_lookup (c : capability) :
  (forall modelId : jsstring,
     In modelId (getModelsWithCapability c) <->
     exists x,
       match c with
       | imageGen => Prices.pricingImageGen (getModelCapabilities modelId)
       | webSearch => Prices.pricingWebSearch (getModelCapabilities modelId)
       end = Known (Some x)) /\
  NoDup (getModelsWithCapability c) /\
  (forall modelId : jsstring,
     In modelId inheritedKeys ->
     ~ In modelId (getModelsWithCapability c) /\
     match c with
     | imageGen => Prices.pricingImageGen (getModelCapabilities modelId)
     | webSearch => Prices.pricingWebSearch (getModelCapabilities modelId)
     end = Undefined).
Proof.
  split; [exact (listed_iff_priced c)|].
  split; [apply NoDup_keys_filter, mapping_keys_distinct|].
  intros modelId Hin. apply isInherited_In in Hin.
  pose proof (getModelCapabilities_inherited modelId Hin) as Hcaps. split.
  - intros Hl. apply listed_iff_priced in Hl. destruct Hl as [x Hx].
    rewrite Hcaps in Hx. destruct c; discriminate.
  - rewrite Hcaps. destruct c; reflexivity.
Qed.

(** X11. Whatever the id, a number [getModelCapabilities] gives as a
    price is finite and other than zero, never [NaN]. The lookup gives
    the default, [null] twice, exactly for the ids that are neither a
    key of the mapping nor the name of an inherited member, since every
    entry prices something; and it gives [undefined] twice exactly for
    the names of the inherited members, [constructor], [toString],
    [__proto__] and the like. *)
Theorem lookup_gives_usable_prices (modelId : jsstring) :
  (forall x, Prices.pricingImageGen (getModelCapabilities modelId) = Known (Some x) ->
             finiteNonZero x = true /\ Number_isNaN x = false) /\
  (forall x, Prices.pricingWebSearch (getModelCapabilities modelId) = Known (Some x) ->
             finiteNonZero x = true /\ Number_isNaN x = false) /\
  (getModelCapabilities modelId
     = {| Prices.pricingImageGen := Known None;
          Prices.pricingWebSearch := Known None |} <->
   lookup MODEL_CAPABILITIES modelId = None /\ ~ In modelId inheritedKeys) /\
  (getModelCapabilities modelId
     = {| Prices.pricingImageGen := Undefined;
          Prices.pricingWebSearch := Undefined |} <->
   In modelId inheritedKeys) /\
  (forall c, lookup MODEL_CAPABILITIES modelId = Some c ->
     getModelCapabilities modelId
       = {| Prices.pricingImageGen := Known (pricingImageGen c);
            Prices.pricingWebSearch := Known (pricingWebSearch c) |}).
Proof.
  destruct (getModelCapabilities_priced modelId) as [Hi Hw].
  split; [|split; [|split; [|split]]].
  - intros x Hx. specialize (Hi x Hx). destruct x; try discriminate. split; reflexivity.
  - intros x Hx. specialize (Hw x Hx). destruct x; try discriminate. split; reflexivity.
  - rewrite <- isInherited_In. unfold getModelCapabilities.
    destruct (readMapping_cases modelId)
      as [[e [He [-> _]]] | [[He [Hinh ->]] | [He [Hn ->]]]].
    + split; [|intros [H _]; congruence]. intros Hd. exfalso.
      apply lookup_In in He.
      assert (Hall : forallb (fun e => match pricingImageGen (snd e),
                                             pricingWebSearch (snd e) with
                                       | None, None => false
                                       | _, _ => true
                                       end) MODEL_CAPABILITIES = true)
        by (vm_compute; reflexivity).
      rewrite forallb_forall in Hall. specialize (Hall _ He). cbn [snd] in Hall.
      injection Hd as H1 H2. rewrite H1, H2 in Hall. discriminate.
    + split; [discriminate | intros [_ H]; congruence].
    + split; [intros _; split; [exact He | congruence] | reflexivity].
  - rewrite <- isInherited_In. unfold getModelCapabilities.
    destruct (readMapping_cases modelId)
      as [[e [He [-> _]]] | [[He [Hinh ->]] | [He [Hn ->]]]].
    + split; [discriminate|]. intros H.
      rewrite (keys_not_inherited _ _ He) in H. discriminate.
    + split; [intros _; exact Hinh | reflexivity].
    + split; [discriminate | congruence].
  - intros c Hc. unfold getModelCapabilities, readMapping. rewrite Hc. reflexivity.
Qed.

End MappingProperties.
(* ------------------------------------------------------------------ *)
(** ** Patterns of one character: searching and replacing               *)
(* ------------------------------------------------------------------ *)

Module ReplaceFacts.
Import JS RegexFacts.

(** The first character of a text that passes a test, if any does. *)
Lemma first_hit (p : N -> bool) (s : jsstring) :
  Forall (fun x => p x = false) s \/
  exists pre x post,
    s = pre ++ x :: post /\ Forall (fun x => p x = false) pre /\ p x = true.
Proof.
  induction s as [|c s IH]; [left; constructor|].
  destruct (p c) eqn:E.
  - right. exists [], c, s. repeat split; [constructor | exact E].
  - destruct IH as [IH | [pre [x [post [-> [Hpre Hx]]]]]].
    + left. constructor; assumption.
    + right. exists (c :: pre), x, post. repeat split; [constructor; assumption | exact Hx].
Qed.

Section OneCharacter.
Variable fl : flags.
Variable r : regex.
Variable p : N -> bool.

(** The pattern takes one character, one that passes the test [p]. *)
Hypothesis one_character :
  forall (s : jsstring) (caps : captures) (k : cont (jsstring * captures)),
    matcher fl r s caps k = single p s caps k.

Lemma match_here_one (s : jsstring) :
  match_here fl r s
  = match s with
    | x :: t => if p x then Some (t, []) else None
    | [] => None
    end.
Proof. unfold match_here. rewrite one_character. destruct s; reflexivity. Qed.

Lemma search_one_none (s : jsstring) :
  Forall (fun x => p x = false) s -> search fl r s = None.
Proof.
  induction 1 as [|x s Hx Hs IH]; rewrite search_eq, match_here_one; [reflexivity|].
  rewrite Hx, IH. reflexivity.
Qed.

Lemma search_one_some (pre : jsstring) (x : N) (post : jsstring) :
  Forall (fun x => p x = false) pre -> p x = true ->
  search fl r (pre ++ x :: post)
  = Some {| before := pre; matched := [x]; groups := []; after := post |}.
Proof.
  intros Hpre Hx. induction Hpre as [|c pre Hc Hpre IH];
    cbn [app]; rewrite search_eq, match_here_one.
  - rewrite Hx. cbn [List.length]. rewrite Nat.sub_succ_l, Nat.sub_diag by lia.
    reflexivity.
  - rewrite Hc, IH. reflexivity.
Qed.

(** Replacing every match is replacing every character that passes the
    test, one by one. *)
Lemma replaceAll_one (by_ : jsstring) (fuel : nat) (s : jsstring) :
  List.length s < fuel ->
  replaceAll_from fuel fl r by_ s
  = List.flat_map (fun x => if p x then by_ else [x]) s.
Proof.
  revert s. induction fuel as [|fuel IH]; intros s Hlen; [lia|].
  cbn [replaceAll_from].
  destruct (first_hit p s) as [Hnone | [pre [x [post [-> [Hpre Hx]]]]]].
  - rewrite (search_one_none s Hnone).
    induction Hnone as [|c s Hc Hs IHs]; [reflexivity|].
    cbn [List.flat_map]. rewrite Hc. cbn [app]. f_equal. apply IHs.
    cbn [List.length] in Hlen. lia.
  - rewrite (search_one_some pre x post Hpre Hx). cbn [matched before after].
    rewrite flat_map_app. cbn [List.flat_map]. rewrite Hx.
    rewrite IH by (rewrite length_app in Hlen; cbn [List.length] in Hlen; lia).
    f_equal. clear Hlen. induction Hpre as [|c pre Hc Hpre IHp]; [reflexivity|].
    cbn [List.flat_map]. rewrite Hc, <- IHp. reflexivity.
Qed.

End OneCharacter.

(** Removing every character of a class keeps the others, in order. *)
Lemma replaceAll_class_remove (fl : flags) (invert : bool) (items : list cls)
    (s : jsstring) :
  replaceAll fl (RClass invert items) [] s
  = List.filter (fun x => negb (xorb invert (existsb (cls_match fl x) items))) s.
Proof.
  unfold replaceAll.
  rewrite (replaceAll_one fl (RClass invert items)
             (fun x => xorb invert (existsb (cls_match fl x) items)))
    by (reflexivity || lia).
  induction s as [|c s IH]; [reflexivity|].
  cbn [List.flat_map List.filter].
  destruct (xorb invert (existsb (cls_match fl c) items)); cbn [negb app];
    rewrite IH; reflexivity.
Qed.

(** Replacing a character by itself changes nothing. *)
Lemma replaceAll_char_by_itself (fl : flags) (c : N) (s : jsstring) :
  ignoreCase fl = false -> replaceAll fl (RChar c) [c] s = s.
Proof.
  intros Hcase. unfold replaceAll.
  rewrite (replaceAll_one fl (RChar c)
             (fun x => (canonicalize fl c =? canonicalize fl x)%N))
    by (reflexivity || lia).
  unfold canonicalize. rewrite Hcase. cbn [andb].
  induction s as [|x s IH]; [reflexivity|].
  cbn [List.flat_map]. rewrite IH.
  destruct (c =? x)%N eqn:E; [|reflexivity].
  apply N.eqb_eq in E. subst x. reflexivity.
Qed.

End ReplaceFacts.
(* ------------------------------------------------------------------ *)
(** ** What a capturing group holds                                     *)
(* ------------------------------------------------------------------ *)

Module CaptureFacts.
Import JS RegexFacts.

(** [t] is a stretch of [w]. *)
Local Abbreviation stretch t w := (exists a b : jsstring, w = a ++ t ++ b).

Lemma stretch_left (new : captures) (w1 w2 : jsstring) :
  Forall (fun c => stretch (snd c) w1) new ->
  Forall (fun c => stretch (snd c) (w1 ++ w2)) new.
Proof.
  intros H. eapply Forall_impl; [|exact H].
  intros c [a [b ->]]. exists a, (b ++ w2). rewrite <- !app_assoc. reflexivity.
Qed.

Lemma stretch_right (new : captures) (w1 w2 : jsstring) :
  Forall (fun c => stretch (snd c) w2) new ->
  Forall (fun c => stretch (snd c) (w1 ++ w2)) new.
Proof.
  intros H. eapply Forall_impl; [|exact H].
  intros c [a [b ->]]. exists (w1 ++ a), b. rewrite <- !app_assoc. reflexivity.
Qed.

Section Captures.
Variable fl : flags.
Variable R : Type.

(** The matcher only adds captures, and each capture it adds is a
    stretch of the text it took. *)
Local Abbreviation captures_at r mr :=
  (forall (s : jsstring) (caps : captures) (k : cont R) (x : R),
     mr s caps k = Some x ->
     exists w s' new,
       s = w ++ s' /\ Lang fl r w /\
       Forall (fun c => stretch (snd c) w) new /\
       k s' (new ++ caps) = Some x).

Lemma repeat_captures (r : regex) (greedy : bool) :
  captures_at r (matcher fl (R:=R) r) ->
  forall fuel, captures_at (RStar greedy r) (repeat (matcher fl r) greedy fuel).
Proof.
  intros Hr fuel; induction fuel as [|fuel IH]; intros s caps k x; simpl.
  - intros H. exists [], s, []. repeat split; [constructor | constructor | exact H].
  - assert (Hagain :
      matcher fl r s caps
        (fun s' caps' =>
           if (List.length s' <? List.length s)%nat
           then repeat (matcher fl r) greedy fuel s' caps' k else None) = Some x ->
      exists w s' new, s = w ++ s' /\ Lang fl (RStar greedy r) w /\
        Forall (fun c => stretch (snd c) w) new /\ k s' (new ++ caps) = Some x).
    { intros H. apply Hr in H as [w1 [s1 [n1 [-> [Hw1 [Hn1 H]]]]]].
      destruct (List.length s1 <? List.length (w1 ++ s1))%nat; [|discriminate].
      apply IH in H as [w2 [s2 [n2 [-> [Hw2 [Hn2 H]]]]]].
      exists (w1 ++ w2), s2, (n2 ++ n1). rewrite <- !app_assoc.
      repeat split; [constructor; assumption | | exact H].
      apply Forall_app. split; [apply stretch_right | apply stretch_left]; assumption. }
    assert (Hleave : k s caps = Some x ->
      exists w s' new, s = w ++ s' /\ Lang fl (RStar greedy r) w /\
        Forall (fun c => stretch (snd c) w) new /\ k s' (new ++ caps) = Some x).
    { intros H. exists [], s, []. repeat split; [constructor | constructor | exact H]. }
    destruct greedy.
    + destruct (matcher fl r s caps _) eqn:E.
      * intros [= <-]. apply Hagain. reflexivity.
      * exact Hleave.
    + destruct (k s caps) eqn:E.
      * intros [= <-]. apply Hleave. reflexivity.
      * exact Hagain.
Qed.

Lemma matcher_captures (r : regex) : captures_at r (matcher fl (R:=R) r).
Proof.
  induction r as [|c| |invert items|r1 IH1 r2 IH2|r1 IH1 r2 IH2
                  |greedy r IH|greedy r IH|greedy r IH|n r IH];
    intros s caps k x; cbn [matcher].
  - intros H. exists [], s, []. repeat split; [constructor | constructor | exact H].
  - intros H. apply single_sound in H as [a [s' [-> [Ha H]]]].
    exists [a], s', []. repeat split; [|constructor|exact H].
    constructor. apply N.eqb_eq. exact Ha.
  - intros H. apply single_sound in H as [a [s' [-> [Ha H]]]].
    exists [a], s', []. repeat split; [constructor; exact Ha | constructor | exact H].
  - intros H. apply single_sound in H as [a [s' [-> [Ha H]]]].
    exists [a], s', []. repeat split; [constructor; exact Ha | constructor | exact H].
  - intros H. apply IH1 in H as [w1 [s1 [n1 [-> [Hw1 [Hn1 H]]]]]].
    apply IH2 in H as [w2 [s2 [n2 [-> [Hw2 [Hn2 H]]]]]].
    exists (w1 ++ w2), s2, (n2 ++ n1). rewrite <- !app_assoc.
    repeat split; [constructor; assumption | | exact H].
    apply Forall_app. split; [apply stretch_right | apply stretch_left]; assumption.
  - destruct (matcher fl r1 s caps k) eqn:E.
    + intros [= <-]. apply IH1 in E as [w [s' [n' [-> [Hw [Hn H]]]]]].
      exists w, s', n'. repeat split; [apply LAltL; exact Hw | exact Hn | exact H].
    + intros H. apply IH2 in H as [w [s' [n' [-> [Hw [Hn H]]]]]].
      exists w, s', n'. repeat split; [apply LAltR; exact Hw | exact Hn | exact H].
  - apply (repeat_captures r greedy IH).
  - intros H. apply IH in H as [w1 [s1 [n1 [-> [Hw1 [Hn1 H]]]]]].
    apply (repeat_captures r greedy IH) in H as [w2 [s2 [n2 [-> [Hw2 [Hn2 H]]]]]].
    exists (w1 ++ w2), s2, (n2 ++ n1). rewrite <- !app_assoc.
    repeat split; [constructor; assumption | | exact H].
    apply Forall_app. split; [apply stretch_right | apply stretch_left]; assumption.
  - assert (Honce :
      matcher fl r s caps
        (fun s' caps' =>
           if (List.length s' <? List.length s)%nat then k s' caps' else None) = Some x ->
      exists w s' new, s = w ++ s' /\ Lang fl (ROpt greedy r) w /\
        Forall (fun c => stretch (snd c) w) new /\ k s' (new ++ caps) = Some x).
    { intros H. apply IH in H as [w [s' [n' [-> [Hw [Hn H]]]]]].
      destruct (List.length s' <? List.length (w ++ s'))%nat; [|discriminate].
      exists w, s', n'. repeat split; [apply LOptSome; exact Hw | exact Hn | exact H]. }
    assert (Hleave : k s caps = Some x ->
      exists w s' new, s = w ++ s' /\ Lang fl (ROpt greedy r) w /\
        Forall (fun c => stretch (snd c) w) new /\ k s' (new ++ caps) = Some x).
    { intros H. exists [], s, []. repeat split; [constructor | constructor | exact H]. }
    destruct greedy.
    + destruct (matcher fl r s caps _) eqn:E.
      * intros [= <-]. apply Honce. reflexivity.
      * exact Hleave.
    + destruct (k s caps) eqn:E.
      * intros [= <-]. apply Hleave. reflexivity.
      * exact Honce.
  - intros H. apply IH in H as [w [s' [n' [-> [Hw [Hn H]]]]]].
    exists w, s', ((n, w) :: n'). repeat split; [constructor; exact Hw | |].
    + constructor; [|exact Hn]. exists [], []. cbn [snd app]. rewrite app_nil_r. reflexivity.
    + rewrite length_app, Nat.add_sub, firstn_app, Nat.sub_diag, firstn_all in H.
      cbn [firstn] in H. rewrite app_nil_r in H. exact H.
Qed.

End Captures.

(** A match found by [search] starts at the head of some rest of the
    text. *)
Lemma search_here (fl : flags) (r : regex) (s : jsstring) (m : match_result) :
  search fl r s = Some m ->
  exists s0,
    match_here fl r s0 = Some (after m, groups m) /\
    matched m = firstn (List.length s0 - List.length (after m)) s0.
Proof.
  revert m. induction s as [|c s IH]; intros m; rewrite search_eq;
    destruct (match_here fl r _) as [[rest caps]|] eqn:E.
  - intros [= <-]. exists []. split; [exact E | reflexivity].
  - discriminate.
  - intros [= <-]. exists (c :: s). split; [exact E | reflexivity].
  - destruct (search fl r s) as [m'|]; [|discriminate].
    intros [= <-]. exact (IH m' eq_refl).
Qed.

(** Whatever a group of a match holds is a stretch of the matched
    text. *)
Lemma group_in_match (fl : flags) (r : regex) (s : jsstring) (m : match_result)
    (n : nat) :
  search fl r s = Some m -> stretch (group m n) (matched m).
Proof.
  intros Hm. apply search_here in Hm as [s0 [Hhere Hw]].
  unfold match_here in Hhere.
  apply matcher_captures in Hhere as [w [s' [new [-> [_ [Hnew [= Hs Hg]]]]]]].
  rewrite app_nil_r in Hg. rewrite Hw, <- Hs.
  rewrite length_app, Nat.add_sub, firstn_app, Nat.sub_diag, firstn_all.
  cbn [firstn]. rewrite app_nil_r.
  unfold group. rewrite <- Hg.
  match goal with
  | |- context [match ?f with Some _ => _ | None => _ end] =>
      destruct f as [p|] eqn:E
  end.
  - apply find_some in E as [Hin _].
    rewrite Forall_forall in Hnew. exact (Hnew p Hin).
  - exists [], w. reflexivity.
Qed.

(** A pattern mentioned in a stretch of a text is mentioned in the
    text. *)
Lemma mentions_stretch (fl : flags) (r : regex) (t w : jsstring) :
  stretch t w -> mentions fl r t -> mentions fl r w.
Proof.
  intros [a [b ->]] [x [v [y [-> Hv]]]].
  exists (a ++ x), v, (y ++ b). rewrite <- !app_assoc. split; [reflexivity | exact Hv].
Qed.

End CaptureFacts.
(* ------------------------------------------------------------------ *)
(** ** The scraper: prices, providers, rows, payloads                   *)
(* ------------------------------------------------------------------ *)

Module ScraperProperties.
Import JS Scraper NumberFacts RegexFacts ScraperFacts ReplaceFacts CaptureFacts.

(** The characters [parsePricing] keeps: all but [$], [,] and white
    space. *)
Local Abbreviation kept :=
  (fun x : N => negb ((x =? 36)%N || (x =? 44)%N || isWhiteSpace x)).

Lemma cleaned_is_filtered (s : jsstring) :
  replaceAll {| ignoreCase := false; dotAll := false |} currencyNoise [] s
  = List.filter kept s.
Proof.
  unfold currencyNoise. rewrite replaceAll_class_remove.
  apply filter_ext. intros x.
  cbn [xorb existsb cls_match]. unfold canonicalize. cbn [ignoreCase andb].
  rewrite orb_false_r, (N.eqb_sym 36 x), (N.eqb_sym 44 x), orb_assoc. reflexivity.
Qed.

(** X12. [parsePricing] reads a text as if every [$], every [,] and
    every white space were taken out of it, wherever they stand: adding
    or removing one changes nothing. A comma is thus no decimal mark:
    [1,5] reads as fifteen. *)
Theorem parsePricing_ignores_currency_noise :
  (forall s : jsstring,
     parsePricing (VString s)
     = if Number_isNaN (parseFloat (List.filter kept s)) then None
       else Some (parseFloat (List.filter kept s))) /\
  (forall (a b : jsstring) (x : N),
     kept x = false ->
     parsePricing (VString (a ++ x :: b)) = parsePricing (VString (a ++ b))) /\
  parsePricing (VString (js "1,5")) = Some (lit "15") /\
  parsePricing (VString (js "$ 1 000")) = Some (lit "1000").
Proof.
  assert (H : forall s : jsstring,
            parsePricing (VString s)
            = if Number_isNaN (parseFloat (List.filter kept s)) then None
              else Some (parseFloat (List.filter kept s))).
  { intros s. cbn [parsePricing]. rewrite cleaned_is_filtered. reflexivity. }
  split; [exact H|]. split.
  - intros a b x Hx. rewrite !H, filter_app. cbn [List.filter]. rewrite Hx.
    rewrite <- filter_app. reflexivity.
  - rewrite !H. split; vm_compute; reflexivity.
Qed.

(** The model name [inferModelId] builds is the slug: replacing each
    hyphen by a hyphen changes nothing. *)
Lemma modelName_is_slug (slug : jsstring) :
  replaceAll {| ignoreCase := false; dotAll := false |} (RChar 45) (js "-") slug = slug.
Proof. apply (replaceAll_char_by_itself _ 45 slug). reflexivity. Qed.

Lemma inferModelId_eq (slug rowHtml : jsstring) :
  inferModelId slug rowHtml
  = match List.find (fun p => test flags_i (fst p) rowHtml) providerPatterns with
    | Some (_, provider) => Some (provider ++ js "/" ++ slug)
    | None =>
        if startsWith slug (js "gpt-") then Some (js "openai/" ++ slug)
        else if startsWith slug (js "claude-") then Some (js "anthropic/" ++ slug)
        else if startsWith slug (js "gemini-") then Some (js "google/" ++ slug)
        else if startsWith slug (js "grok-") then Some (js "xai/" ++ slug)
        else None
    end.
Proof. unfold inferModelId. rewrite modelName_is_slug. reflexivity. Qed.

Lemma inferModelId_provider (slug rowHtml modelId : jsstring) :
  inferModelId slug rowHtml = Some modelId ->
  exists provider,
    In provider (List.map snd providerPatterns) /\
    modelId = provider ++ js "/" ++ slug.
Proof.
  rewrite inferModelId_eq.
  destruct (List.find _ providerPatterns) as [[pattern provider]|] eqn:E.
  - intros [= <-]. exists provider. split; [|reflexivity].
    apply find_some in E as [Hin _].
    apply in_map_iff. exists (pattern, provider). split; [reflexivity | exact Hin].
  - destruct (startsWith slug (js "gpt-")).
    { intros [= <-]. exists (js "openai"). split; [cbn; tauto | reflexivity]. }
    destruct (startsWith slug (js "claude-")).
    { intros [= <-]. exists (js "anthropic"). split; [cbn; tauto | reflexivity]. }
    destruct (startsWith slug (js "gemini-")).
    { intros [= <-]. exists (js "google"). split; [cbn; tauto | reflexivity]. }
    destruct (startsWith slug (js "grok-")); [|discriminate].
    intros [= <-]. exists (js "xai"). split; [cbn; tauto | reflexivity].
Qed.

(** X13. An id [inferModelId] answers with is the slug, unchanged, behind
    the name of one of the seven providers and a slash. *)
Theorem inferred_id_names_a_known_provider (slug rowHtml modelId : jsstring) :
  inferModelId slug rowHtml = Some modelId ->
  exists provider,
    In provider (List.map snd providerPatterns) /\
    modelId = provider ++ js "/" ++ slug.
Proof. apply inferModelId_provider. Qed.

Lemma find_first (A : Type) (f : A -> bool) (pre : list A) (p : A) (post : list A) :
  (forall q, In q pre -> f q = false) -> f p = true ->
  List.find f (pre ++ p :: post) = Some p.
Proof.
  intros Hpre Hp. induction pre as [|q pre IH]; cbn [app List.find].
  - rewrite Hp. reflexivity.
  - rewrite (Hpre q) by (left; reflexivity). apply IH.
    intros q' Hq'. apply Hpre. right. exact Hq'.
Qed.

(** X14. The first pattern of the list that the row mentions decides the
    provider, whatever the slug: a row that mentions [gpt] anywhere puts
    even a slug that starts with [claude-] under [openai]. *)
Theorem first_keyword_in_the_row_wins
    (pre : list (regex * jsstring)) (p : regex * jsstring)
    (post : list (regex * jsstring)) (slug rowHtml : jsstring) :
  providerPatterns = pre ++ p :: post ->
  (forall q, In q pre -> ~ mentions flags_i (fst q) rowHtml) ->
  mentions flags_i (fst p) rowHtml ->
  inferModelId slug rowHtml = Some (snd p ++ js "/" ++ slug).
Proof.
  intros Hlist Hpre Hp. rewrite inferModelId_eq, Hlist.
  rewrite (find_first _ (fun p => test flags_i (fst p) rowHtml) pre p post).
  - destruct p; reflexivity.
  - intros q Hq. apply test_false_not_mentions, Hpre, Hq.
  - apply test_mentions, Hp.
Qed.

Lemma first_keyword_in_the_row_wins_witness :
  inferModelId (js "claude-3") (js "<td>chatGPT rival</td>")
  = Some (js "openai" ++ js "/" ++ js "claude-3").
Proof.
  apply (first_keyword_in_the_row_wins []
           (keywords "openai" "gpt", js "openai")
           (List.tl providerPatterns) (js "claude-3") (js "<td>chatGPT rival</td>")).
  - reflexivity.
  - intros q [].
  - apply test_mentions. vm_compute. reflexivity.
Defined.

Lemma inferred_id_names_a_known_provider_witness :
  exists provider,
    In provider (List.map snd providerPatterns) /\
    js "xai/grok-4" = provider ++ js "/" ++ js "grok-4".
Proof.
  apply (inferred_id_names_a_known_provider (js "grok-4") (js "<td>fast</td>")).
  vm_compute. reflexivity.
Defined.

(** X15. [inferModelId] answers [null], and the row is dropped, exactly
    when the row mentions none of the seven patterns and the slug starts
    with none of [gpt-], [claude-], [gemini-] and [grok-]. *)
Theorem row_without_provider_is_dropped (slug rowHtml : jsstring) :
  (inferModelId slug rowHtml = None <->
   (forall p, In p providerPatterns -> ~ mentions flags_i (fst p) rowHtml) /\
   startsWith slug (js "gpt-") = false /\
   startsWith slug (js "claude-") = false /\
   startsWith slug (js "gemini-") = false /\
   startsWith slug (js "grok-") = false) /\
  (rowRecord slug rowHtml = None <-> inferModelId slug rowHtml = None).
Proof.
  split.
  - rewrite inferModelId_eq.
    destruct (List.find _ providerPatterns) as [[pattern provider]|] eqn:E.
    + split; [discriminate|]. intros [Hno _]. exfalso.
      apply find_some in E as [Hin Ht]. apply (Hno _ Hin).
      apply test_mentions. exact Ht.
    + assert (Hno : forall p, In p providerPatterns -> ~ mentions flags_i (fst p) rowHtml).
      { intros p Hin Hm. apply test_mentions in Hm.
        pose proof (find_none _ _ E p Hin) as Hf. cbv beta in Hf. congruence. }
      destruct (startsWith slug (js "gpt-")); [split; [discriminate|intros [_ [? _]]; discriminate]|].
      destruct (startsWith slug (js "claude-")); [split; [discriminate|intros [_ [_ [? _]]]; discriminate]|].
      destruct (startsWith slug (js "gemini-")); [split; [discriminate|intros [_ [_ [_ [? _]]]]; discriminate]|].
      destruct (startsWith slug (js "grok-")); [split; [discriminate|intros [_ [_ [_ [_ ?]]]]; discriminate]|].
      split; [intros _; repeat split; auto | reflexivity].
  - unfold rowRecord. destruct (inferModelId slug rowHtml); split; congruence.
Qed.

Lemma Lang_RLit (fl : flags) (t : jsstring) : Lang fl (RLit t) t.
Proof.
  induction t as [|c t IH]; [constructor|].
  destruct t as [|d t]; [constructor; reflexivity|].
  change (c :: d :: t) with ([c] ++ d :: t). cbn [RLit].
  apply (@LSeq fl (RChar c) (RLit (d :: t)) [c] (d :: t)); [constructor; reflexivity | exact IH].
Qed.

Lemma startsWith_app (s p : jsstring) :
  startsWith s p = true -> exists t, s = p ++ t.
Proof.
  revert s. induction p as [|c p IH]; intros s; [exists s; reflexivity|].
  destruct s as [|x s]; [discriminate|]. cbn [startsWith].
  intros H. apply andb_true_iff in H as [Hc Hp]. apply N.eqb_eq in Hc. subst x.
  destruct (IH s Hp) as [t ->]. exists t. reflexivity.
Qed.

(** A slug that starts with a keyword and a hyphen mentions the pattern
    of that keyword. *)
Lemma prefix_mentions (fl : flags) (a b : string) (slug : jsstring) (w tail : jsstring) :
  js b = w -> startsWith slug (w ++ tail) = true ->
  mentions fl (keywords a b) slug.
Proof.
  intros <- H. apply startsWith_app in H as [t ->].
  exists [], (js b), (tail ++ t). rewrite <- app_assoc. split; [reflexivity|].
  apply LAltR, Lang_RLit.
Qed.

(** X16. For a row that [extractFromHTML] finds, the slug is part of the
    row, so the patterns searched in the row see it too: the provider
    always comes from the first pattern the row mentions, and the
    prefixes of the slug that [inferModelId] falls back on never decide
    anything. *)
Theorem slug_prefix_never_decides (html : jsstring) (m : match_result) :
  search flags_i modelRowRegex html = Some m ->
  (exists a b, matched m = a ++ group m 1 ++ b) /\
  inferModelId (group m 1) (matched m)
  = match List.find (fun p => test flags_i (fst p) (matched m)) providerPatterns with
    | Some p => Some (snd p ++ js "/" ++ group m 1)
    | None => None
    end.
Proof.
  intros Hm. pose proof (group_in_match _ _ _ _ 1 Hm) as Hin.
  split; [exact Hin|]. rewrite inferModelId_eq.
  destruct (List.find _ providerPatterns) as [[pattern provider]|] eqn:E; [reflexivity|].
  assert (Hno : forall a b w tail,
            In (keywords a b, js a) providerPatterns -> js b = w ->
            startsWith (group m 1) (w ++ tail) = false).
  { intros a b w tail Hp Hw.
    destruct (startsWith (group m 1) (w ++ tail)) eqn:Hs; [|reflexivity].
    exfalso. pose proof (find_none _ _ E _ Hp) as Hf. cbv beta in Hf. cbn [fst] in Hf.
    assert (Ht : test flags_i (keywords a b) (matched m) = true).
    { apply test_mentions. apply (mentions_stretch _ _ (group m 1)); [exact Hin|].
      exact (prefix_mentions _ a b _ w tail Hw Hs). }
    congruence. }
  rewrite (Hno "openai" "gpt" (js "gpt") (js "-") ltac:(cbn; tauto) eq_refl
            : startsWith (group m 1) (js "gpt-") = false)%string.
  rewrite (Hno "anthropic" "claude" (js "claude") (js "-") ltac:(cbn; tauto) eq_refl
            : startsWith (group m 1) (js "claude-") = false)%string.
  rewrite (Hno "google" "gemini" (js "gemini") (js "-") ltac:(cbn; tauto) eq_refl
            : startsWith (group m 1) (js "gemini-") = false)%string.
  rewrite (Hno "xai" "grok" (js "grok") (js "-") ltac:(cbn; tauto) eq_refl
            : startsWith (group m 1) (js "grok-") = false)%string.
  reflexivity.
Qed.

Lemma slug_prefix_never_decides_witness :
  exists m,
    search flags_i modelRowRegex Scenario.geminiRow = Some m /\
    (exists a b, matched m = a ++ group m 1 ++ b) /\
    inferModelId (group m 1) (matched m)
    = match List.find (fun p => test flags_i (fst p) (matched m)) providerPatterns with
      | Some p => Some (snd p ++ js "/" ++ group m 1)
      | None => None
      end.
Proof.
  destruct (search flags_i modelRowRegex Scenario.geminiRow) as [m|] eqn:E;
    [|vm_compute in E; discriminate].
  exists m. split; [reflexivity|]. exact (slug_prefix_never_decides _ _ E).
Defined.

(** The two prices of a record are those of [extractPricingFromRow], or
    [null]. *)
Lemma rowRecord_prices (slug rowHtml : jsstring) (r : ScrapedModelCapabilities) :
  rowRecord slug rowHtml = Some r ->
  inferModelId slug rowHtml = Some match id r with VString s => s | _ => [] end /\
  (exists s, id r = VString s) /\
  pricingImageGen r
  = (if test flags_i imageGenRegex rowHtml && negb (test flags_i negationRegex rowHtml)
     then extractPricingFromRow rowHtml (js "Image Gen") else None) /\
  pricingWebSearch r
  = (if test flags_i webSearchRegex rowHtml && negb (test flags_i negationRegex rowHtml)
     then extractPricingFromRow rowHtml (js "Web Search") else None).
Proof.
  unfold rowRecord. destruct (inferModelId slug rowHtml) as [modelId|]; [|discriminate].
  intros [= <-]. cbn [id pricingImageGen pricingWebSearch]. eauto.
Qed.

(** X17. A row that contains an em dash, or the letters [no] in either
    case, yields a record without any price, whatever else it says; the
    slug is part of the row, so a model whose slug contains [no], such
    as [gpt-5-nano], never gets a price from the table. *)
Theorem negation_anywhere_blanks_both_prices
    (html : jsstring) (m : match_result) (r : ScrapedModelCapabilities) :
  search flags_i modelRowRegex html = Some m ->
  mentions flags_i negationRegex (group m 1) \/
  mentions flags_i negationRegex (matched m) ->
  rowRecord (group m 1) (matched m) = Some r ->
  pricingImageGen r = None /\ pricingWebSearch r = None.
Proof.
  intros Hm Hneg Hr.
  assert (Ht : test flags_i negationRegex (matched m) = true).
  { apply test_mentions. destruct Hneg as [Hs | Hrow]; [|exact Hrow].
    exact (mentions_stretch _ _ _ _ (group_in_match _ _ _ _ 1 Hm) Hs). }
  apply rowRecord_prices in Hr as [_ [_ [Hi Hw]]].
  rewrite Hi, Hw, Ht. cbn [negb]. rewrite !andb_false_r. split; reflexivity.
Qed.

Lemma negation_anywhere_blanks_both_prices_witness :
  exists m r,
    search flags_i modelRowRegex Scenario.nanoRow = Some m /\
    group m 1 = js "gpt-5-nano" /\
    rowRecord (group m 1) (matched m) = Some r /\
    pricingImageGen r = None /\ pricingWebSearch r = None.
Proof.
  destruct (search flags_i modelRowRegex Scenario.nanoRow) as [m|] eqn:E;
    [|vm_compute in E; discriminate].
  assert (Hg : group m 1 = js "gpt-5-nano").
  { vm_compute in E. injection E as <-. reflexivity. }
  destruct (rowRecord (group m 1) (matched m)) as [r|] eqn:Er.
  - exists m, r. split; [reflexivity|]. split; [exact Hg|]. split; [exact Er|].
    apply (negation_anywhere_blanks_both_prices Scenario.nanoRow m r E); [|exact Er].
    left. rewrite Hg. apply test_mentions. vm_compute. reflexivity.
  - exfalso. vm_compute in E. injection E as <-. vm_compute in Er. discriminate.
Defined.

(** A record of the table comes from a match of the row pattern. *)
Lemma loop_In (fuel : nat) (html : jsstring) (models : list ScrapedModelCapabilities)
    (r : ScrapedModelCapabilities) :
  In r (extractFromHTML_loop fuel html models) ->
  In r models \/
  exists s0 m, search flags_i modelRowRegex s0 = Some m /\
               rowRecord (group m 1) (matched m) = Some r.
Proof.
  revert html models. induction fuel as [|fuel IH]; intros html models;
    cbn [extractFromHTML_loop]; [tauto|].
  destruct (search flags_i modelRowRegex html) as [m|] eqn:E; [|tauto].
  intros H. apply IH in H as [H | H]; [|right; exact H].
  destruct (rowRecord (group m 1) (matched m)) as [record|] eqn:Er; [|left; exact H].
  apply in_app_or in H as [H | [<- | []]]; [left; exact H|].
  right. exists html, m. split; assumption.
Qed.

Lemma extractPricingFromRow_number (rowHtml capability : jsstring) (x : number) :
  extractPricingFromRow rowHtml capability = Some x -> Number_isNaN x = false.
Proof.
  unfold extractPricingFromRow.
  destruct (search flags_i priceRegex rowHtml) as [m|]; [|discriminate].
  destruct (group m 1); [discriminate|].
  destruct (Number_isNaN (parseFloat _)) eqn:E; [discriminate|].
  intros [= <-]. exact E.
Qed.

(** X18. Every record [extractFromHTML] returns has a string for id, the
    slug of its row behind the name of one of the seven providers; a
    price it carries is never [NaN]; and when it carries both prices
    they are the same number, the first price of the row. *)
Theorem table_records_are_well_formed
    (html : jsstring) (r : ScrapedModelCapabilities) :
  In r (extractFromHTML html) ->
  (exists provider slug,
     In provider (List.map snd providerPatterns) /\
     id r = VString (provider ++ js "/" ++ slug)) /\
  (forall x, pricingImageGen r = Some x -> Number_isNaN x = false) /\
  (forall x, pricingWebSearch r = Some x -> Number_isNaN x = false) /\
  (forall a b, pricingImageGen r = Some a -> pricingWebSearch r = Some b -> a = b).
Proof.
  intros Hin. apply loop_In in Hin as [[] | [s0 [m [_ Hr]]]].
  apply rowRecord_prices in Hr as [Hid [[s Hs] [Hi Hw]]]. rewrite Hs in Hid |- *.
  split.
  { apply inferModelId_provider in Hid as [provider [Hp ->]].
    exists provider, (group m 1). split; [exact Hp | reflexivity]. }
  assert (Hsame : extractPricingFromRow (matched m) (js "Image Gen")
                  = extractPricingFromRow (matched m) (js "Web Search")) by reflexivity.
  split; [|split].
  - intros x Hx. rewrite Hx in Hi.
    destruct (_ && _) in Hi; [|discriminate].
    symmetry in Hi. exact (extractPricingFromRow_number _ _ _ Hi).
  - intros x Hx. rewrite Hx in Hw.
    destruct (_ && _) in Hw; [|discriminate].
    symmetry in Hw. exact (extractPricingFromRow_number _ _ _ Hw).
  - intros a b Ha Hb. rewrite Ha in Hi. rewrite Hb in Hw.
    destruct (_ && _) in Hi; [|discriminate].
    destruct (_ && _) in Hw; [|discriminate].
    congruence.
Qed.

Lemma table_records_are_well_formed_witness :
  (exists provider slug,
     In provider (List.map snd providerPatterns) /\
     id Scenario.geminiRecord = VString (provider ++ js "/" ++ slug)) /\
  (forall x, pricingImageGen Scenario.geminiRecord = Some x -> Number_isNaN x = false) /\
  (forall x, pricingWebSearch Scenario.geminiRecord = Some x -> Number_isNaN x = false) /\
  (forall a b, pricingImageGen Scenario.geminiRecord = Some a ->
               pricingWebSearch Scenario.geminiRecord = Some b -> a = b).
Proof.
  apply (table_records_are_well_formed Scenario.geminiRow Scenario.geminiRecord).
  vm_compute. left. reflexivity.
Defined.

Lemma Lang_seq_inv (fl : flags) (r1 r2 : regex) (w : jsstring) :
  Lang fl (RSeq r1 r2) w ->
  exists w1 w2, w = w1 ++ w2 /\ Lang fl r1 w1 /\ Lang fl r2 w2.
Proof. intros H. inversion H; subst. eauto. Qed.

Lemma mentions_app_r (fl : flags) (r : regex) (w1 w2 : jsstring) :
  mentions fl r w2 -> mentions fl r (w1 ++ w2).
Proof.
  intros [x [w [y [-> Hw]]]]. exists (w1 ++ x), w, y.
  rewrite <- app_assoc. split; [reflexivity | exact Hw].
Qed.

(** Every row the pattern matches holds the start of a link to a model. *)
Lemma row_has_link (w : jsstring) :
  Lang flags_i modelRowRegex w ->
  mentions flags_i (RLit (js "href=" ++ quot :: js "/ai-gateway/models/")) w.
Proof.
  unfold modelRowRegex, RCat. cbn [List.fold_right]. intros H.
  do 6 (apply Lang_seq_inv in H as [? [? [-> [_ H]]]]; apply mentions_app_r).
  apply Lang_seq_inv in H as [w7 [rest [-> [H7 _]]]].
  exists [], w7, rest. split; [reflexivity | exact H7].
Qed.

(** X19. A page that nowhere holds the text [href=Q/ai-gateway/models/]
    (Q for the double quote), in either case, yields no record at all;
    the empty page is one. *)
Theorem page_without_model_link_yields_nothing (html : jsstring) :
  ~ mentions flags_i (RLit (js "href=" ++ quot :: js "/ai-gateway/models/")) html ->
  extractFromHTML html = [].
Proof.
  intros Hno. unfold extractFromHTML. cbn [extractFromHTML_loop].
  destruct (search flags_i modelRowRegex html) as [m|] eqn:E; [|reflexivity].
  exfalso. apply Hno. apply search_parts in E as [-> Hw].
  apply mentions_app_r. apply row_has_link in Hw.
  destruct Hw as [x [w [y [-> Hw]]]]. exists x, w, (y ++ after m).
  rewrite <- !app_assoc. split; [reflexivity | exact Hw].
Qed.

Lemma page_without_model_link_yields_nothing_witness :
  extractFromHTML (js "<table><tr><td>soon</td></tr></table>") = [].
Proof.
  apply page_without_model_link_yields_nothing.
  intros Hm. apply test_mentions in Hm. vm_compute in Hm. discriminate.
Defined.

(** A record of the payload comes from an entry with a truthy id. *)
Lemma nextDataLoop_In (modelsData : list value)
    (models : list ScrapedModelCapabilities) (r : ScrapedModelCapabilities) :
  In r (nextDataLoop modelsData models) ->
  In r models \/
  exists modelData,
    In modelData modelsData /\ get modelData (js "id") = Some (id r) /\
    truthy (id r) = true.
Proof.
  revert models. induction modelsData as [|modelData rest IH]; intros models;
    cbn [nextDataLoop]; [tauto|].
  destruct (get modelData (js "id")) as [modelId|] eqn:Hid; [|tauto].
  destruct (truthy modelId) eqn:Ht; cbn [negb].
  - intros H. apply IH in H as [H | [e [He H]]].
    + apply in_app_or in H as [H | [<- | []]]; [left; exact H|].
      right. exists modelData. cbn [id]. split; [left; reflexivity|]. split; assumption.
    + right. exists e. split; [right; exact He | exact H].
  - intros H. apply IH in H as [H | [e [He H]]]; [left; exact H|].
    right. exists e. split; [right; exact He | exact H].
Qed.

Lemma nextDataLoop_length (modelsData : list value)
    (models : list ScrapedModelCapabilities) :
  List.length (nextDataLoop modelsData models)
  <= List.length models + List.length modelsData.
Proof.
  revert models. induction modelsData as [|modelData rest IH]; intros models;
    cbn [nextDataLoop List.length]; [lia|].
  destruct (get modelData (js "id")) as [modelId|]; [|lia].
  destruct (truthy modelId); cbn [negb].
  - match goal with
    | |- context [nextDataLoop rest ?acc] => specialize (IH acc)
    end.
    rewrite length_app in IH. cbn [List.length] in IH. lia.
  - specialize (IH models). lia.
Qed.

(** X20. Every record [extractFromNextData] returns, whatever the
    payload, carries a truthy id: an entry without id, or with an empty,
    zero, [false] or [null] id, gives no record. For a payload with its
    entries at [props.pageProps.models] each record carries the id of
    one of the entries, and there are never more records than entries. *)
Theorem payload_records_carry_truthy_ids :
  (forall (nextData : value) (r : ScrapedModelCapabilities),
     In r (extractFromNextData nextData) -> truthy (id r) = true) /\
  (forall (items : list value),
     (forall r, In r (extractFromNextData (Scenario.pageWith items)) ->
        exists modelData,
          In modelData items /\ get modelData (js "id") = Some (id r)) /\
     List.length (extractFromNextData (Scenario.pageWith items))
       <= List.length items).
Proof.
  split.
  - intros nextData r. unfold extractFromNextData.
    destruct (negb (truthy _)); [intros []|].
    destruct (iterate _) as [items|]; [|intros []].
    intros Hr. apply nextDataLoop_In in Hr as [[] | [e [_ [_ Ht]]]]. exact Ht.
  - intros items.
    assert (E : extractFromNextData (Scenario.pageWith items) = nextDataLoop items [])
      by reflexivity.
    rewrite E. split.
    + intros r Hr. apply nextDataLoop_In in Hr as [[] | [e [He [Hid _]]]].
      exists e. split; assumption.
    + apply (nextDataLoop_length items []).
Qed.

(** X21. A [null] entry ends the payload: reading its id throws, the
    throw is swallowed, and the records built so far are returned, so
    every entry after it is lost without a trace. *)
Theorem null_entry_ends_the_payload (pre post : list value) (entry : value) :
  nullish entry = true ->
  extractFromNextData (Scenario.pageWith (pre ++ entry :: post))
  = extractFromNextData (Scenario.pageWith pre).
Proof.
  intros Hnull.
  change (nextDataLoop (pre ++ entry :: post) [] = nextDataLoop pre []).
  generalize (@nil ScrapedModelCapabilities) as models.
  induction pre as [|modelData pre IH]; intros models; cbn [app nextDataLoop].
  - destruct entry; try discriminate; reflexivity.
  - destruct (get modelData (js "id")) as [modelId|]; [|reflexivity].
    destruct (truthy modelId); cbn [negb]; apply IH.
Qed.

Lemma null_entry_ends_the_payload_witness :
  extractFromNextData
    (Scenario.pageWith
       ([VObject [(js "id", VString (js "a/b"))]]
          ++ VNull :: [VObject [(js "id", VString (js "c/d"))]]))
  = extractFromNextData (Scenario.pageWith [VObject [(js "id", VString (js "a/b"))]]).
Proof.
  apply (null_entry_ends_the_payload
           [VObject [(js "id", VString (js "a/b"))]]
           [VObject [(js "id", VString (js "c/d"))]] VNull).
  reflexivity.
Defined.

Section Strategies.
Variable JSON_parse : jsstring -> jsstring + value.

(** X22. Whatever happens, the result holds at most one error. An error
    that says [Scraping failed] comes with no model; models come with no
    error, or with the one that says the payload could not be parsed:
    the page was then fetched and read, its payload was found and
    refused by [JSON.parse], and the models are those of the HTML table
    of that same page. *)
Theorem scrape_reports_at_most_one_error (fetched : thrown + Response) (now : N) :
  exists result,
    scrapeVercelModelsPage JSON_parse fetched now = inr result /\
    timestamp result = now /\
    (List.length (errors result) <= 1)%nat /\
    (errors result = [] \/
     (exists error, errors result = [js "Scraping failed: " ++ error] /\
                    models result = []) \/
     (exists response html m parseError,
        fetched = inr response /\
        ok response = true /\
        text response = inr html /\
        search {| ignoreCase := false; dotAll := true |} nextDataRegex html = Some m /\
        JSON_parse (group m 1) = inl parseError /\
        errors result = [js "Failed to parse Next.js data: "
                           ++ errorToString (js "SyntaxError") parseError] /\
        models result = extractFromHTML html)).
Proof.
  unfold scrapeVercelModelsPage, scrapeAttempt.
  destruct fetched as [error|response].
  { eexists. split; [reflexivity|]. split; [reflexivity|]. split; [cbn; lia|].
    right. left. eexists. split; reflexivity. }
  destruct (ok response) eqn:Hok; cbn [negb].
  2:{ eexists. split; [reflexivity|]. split; [reflexivity|]. split; [cbn; lia|].
      right. left. eexists. split; reflexivity. }
  destruct (text response) as [error|html] eqn:Htext.
  { eexists. split; [reflexivity|]. split; [reflexivity|]. split; [cbn; lia|].
    right. left. eexists. split; reflexivity. }
  destruct (search _ nextDataRegex html) as [m|] eqn:Hm.
  2:{ eexists. split; [reflexivity|]. split; [reflexivity|]. split; [cbn; lia|].
      left. reflexivity. }
  destruct (JSON_parse (group m 1)) as [parseError|nextData] eqn:Hparse.
  { eexists. split; [reflexivity|]. split; [reflexivity|]. split; [cbn; lia|].
    right. right. exists response, html, m, parseError.
    repeat split; try reflexivity; assumption. }
  destruct (0 <? List.length (extractFromNextData nextData))%nat;
    eexists; (split; [reflexivity|]); (split; [reflexivity|]);
    (split; [cbn; lia|]); left; reflexivity.
Qed.

(** X23. When the page carries a payload that parses and holds at least
    one record, the records of the payload are the result and the table
    of the page is not looked at. *)
Theorem payload_with_records_wins
    (response : Response) (html : jsstring) (m : match_result) (nextData : value)
    (now : N) :
  ok response = true ->
  text response = inr html ->
  search {| ignoreCase := false; dotAll := true |} nextDataRegex html = Some m ->
  JSON_parse (group m 1) = inr nextData ->
  extractFromNextData nextData <> [] ->
  scrapeVercelModelsPage JSON_parse (inr response) now
  = inr {| models := extractFromNextData nextData; errors := []; timestamp := now |}.
Proof.
  intros Hok Htext Hm Hparse Hsome.
  unfold scrapeVercelModelsPage, scrapeAttempt.
  rewrite Hok, Htext. cbn [negb]. rewrite Hm, Hparse.
  destruct (extractFromNextData nextData); [contradiction|reflexivity].
Qed.

(** X24. When the payload of the page does not parse, the failure is
    recorded as the one error of the result and the records are those of
    the table; when it parses to no record, or the page has no payload,
    the records are those of the table and there is no error. *)
Theorem table_is_the_fallback
    (response : Response) (html : jsstring) (now : N) :
  ok response = true ->
  text response = inr html ->
  (forall m parseError,
     search {| ignoreCase := false; dotAll := true |} nextDataRegex html = Some m ->
     JSON_parse (group m 1) = inl parseError ->
     scrapeVercelModelsPage JSON_parse (inr response) now
     = inr {| models := extractFromHTML html;
              errors := [js "Failed to parse Next.js data: "
                           ++ errorToString (js "SyntaxError") parseError];
              timestamp := now |}) /\
  (forall m nextData,
     search {| ignoreCase := false; dotAll := true |} nextDataRegex html = Some m ->
     JSON_parse (group m 1) = inr nextData ->
     extractFromNextData nextData = [] ->
     scrapeVercelModelsPage JSON_parse (inr response) now
     = inr {| models := extractFromHTML html; errors := []; timestamp := now |}) /\
  (search {| ignoreCase := false; dotAll := true |} nextDataRegex html = None ->
   scrapeVercelModelsPage JSON_parse (inr response) now
   = inr {| models := extractFromHTML html; errors := []; timestamp := now |}).
Proof.
  intros Hok Htext. unfold scrapeVercelModelsPage, scrapeAttempt.
  rewrite Hok, Htext. cbn [negb]. split; [|split].
  - intros m parseError -> ->. reflexivity.
  - intros m nextData -> -> ->. reflexivity.
  - intros ->. reflexivity.
Qed.

End Strategies.

Lemma payload_with_records_wins_witness :
  scrapeVercelModelsPage
    (fun _ => inr (Scenario.pageWith [VObject [(js "id", VString (js "a/b"))]]))
    (inr Scenario.payloadResponse) 0
  = inr {| models :=
             extractFromNextData
               (Scenario.pageWith [VObject [(js "id", VString (js "a/b"))]]);
           errors := []; timestamp := 0 |}.
Proof.
  destruct (search {| ignoreCase := false; dotAll := true |} nextDataRegex
              Scenario.payloadPage) as [m|] eqn:E; [|vm_compute in E; discriminate].
  apply (payload_with_records_wins
           (fun _ => inr (Scenario.pageWith [VObject [(js "id", VString (js "a/b"))]]))
           Scenario.payloadResponse Scenario.payloadPage m
           (Scenario.pageWith [VObject [(js "id", VString (js "a/b"))]]) 0);
    [reflexivity | reflexivity | exact E | reflexivity | vm_compute; discriminate].
Defined.

Lemma table_is_the_fallback_witness :
  scrapeVercelModelsPage (fun _ => inl (js "Unexpected end of JSON input"))
    (inr {| status := 200; statusText := js "OK"; text := inr Scenario.geminiRow |}) 0
  = inr {| models := extractFromHTML Scenario.geminiRow; errors := [];
           timestamp := 0 |}.
Proof.
  apply (table_is_the_fallback (fun _ => inl (js "Unexpected end of JSON input"))
           {| status := 200; statusText := js "OK"; text := inr Scenario.geminiRow |}
           Scenario.geminiRow 0); [reflexivity | reflexivity |].
  vm_compute. reflexivity.
Defined.

End ScraperProperties.
(* ------------------------------------------------------------------ *)
(** ** The models sync route and the capability buttons                 *)
(* ------------------------------------------------------------------ *)

Module ModelsRouteProperties.
Import JS NumberFacts RegexFacts ReplaceFacts.

Local Abbreviation kept :=
  (fun x : N => negb ((x =? 36)%N || (x =? 44)%N || isWhiteSpace x)).

Lemma filter_all (A : Type) (f : A -> bool) (l : list A) :
  Forall (fun x => f x = true) l -> List.filter f l = l.
Proof.
  induction 1 as [|x l Hx Hl IH]; [reflexivity|].
  cbn [List.filter]. rewrite Hx, IH. reflexivity.
Qed.

(** X25. The two readers of prices agree: on a text without [$], [,] and
    white space [parsePrice] of the models route and [parsePricing] of
    the scraper give the same answer, and a missing price is [null] for
    both. Neither ever answers [NaN]; the text [0] is the price zero,
    not a missing price, while the empty text is a missing one. *)
Theorem gateway_and_scraper_read_prices_alike :
  (forall s : jsstring,
     Forall (fun x => kept x = true) s ->
     ModelsRoute.parsePrice (Some s) = Scraper.parsePricing (VString s)) /\
  ModelsRoute.parsePrice None = Scraper.parsePricing VNull /\
  (forall price x, ModelsRoute.parsePrice price = Some x -> Number_isNaN x = false) /\
  ModelsRoute.parsePrice (Some (js "0")) = Some (S754_zero false) /\
  ModelsRoute.parsePrice (Some []) = None.
Proof.
  split; [|split; [reflexivity|split; [|split; reflexivity]]].
  - intros s Hs. cbn [Scraper.parsePricing]. unfold Scraper.currencyNoise.
    rewrite replaceAll_class_remove.
    rewrite (filter_ext _ kept).
    + rewrite (filter_all _ _ _ Hs). destruct s; reflexivity.
    + intros x. cbn [xorb existsb cls_match]. unfold canonicalize. cbn [ignoreCase andb].
      rewrite orb_false_r, (N.eqb_sym 36 x), (N.eqb_sym 44 x), orb_assoc. reflexivity.
  - intros [[|c s]|] x; cbn [ModelsRoute.parsePrice]; try discriminate.
    destruct (Number_isNaN (parseFloat (c :: s))) eqn:E; [discriminate|].
    intros [= <-]. exact E.
Qed.

Lemma firstSegment_split (s : jsstring) :
  exists rest,
    s = ModelsRoute.firstSegment s ++ rest /\
    ~ In 47%N (ModelsRoute.firstSegment s) /\
    match rest with [] => True | c :: _ => c = 47%N end.
Proof.
  induction s as [|c s [rest [Hs [Hno Hrest]]]]; cbn [ModelsRoute.firstSegment].
  - exists []. repeat split. intros [].
  - destruct (c =? 47)%N eqn:E.
    + apply N.eqb_eq in E. subst c. exists (47%N :: s). repeat split. intros [].
    + exists rest. split; [cbn [app]; f_equal; exact Hs|]. split; [|exact Hrest].
      intros [H | H]; [|exact (Hno H)]. subst c. discriminate.
Qed.

Lemma firstSegment_app (p rest : jsstring) :
  ~ In 47%N p -> ModelsRoute.firstSegment (p ++ 47%N :: rest) = p.
Proof.
  induction p as [|c p IH]; intros Hno; cbn [app ModelsRoute.firstSegment].
  - reflexivity.
  - destruct (c =? 47)%N eqn:E.
    + apply N.eqb_eq in E. exfalso. apply Hno. left. exact E.
    + f_equal. apply IH. intros H. apply Hno. right. exact H.
Qed.

(** X26. The provider of a row is the id up to its first slash: the id
    starts with it, it holds no slash, and what follows in the id, if
    anything, starts with a slash. For an id the scraper inferred it is
    the provider the scraper put in front of the slug. *)
Theorem provider_is_the_first_segment :
  (forall m : Gateway.Model,
     exists rest,
       Gateway.id m = ModelRow.provider (ModelsRoute.toRow m) ++ rest /\
       ~ In 47%N (ModelRow.provider (ModelsRoute.toRow m)) /\
       match rest with [] => True | c :: _ => c = 47%N end) /\
  (forall slug rowHtml modelId,
     Scraper.inferModelId slug rowHtml = Some modelId ->
     In (ModelsRoute.firstSegment modelId) (List.map snd Scraper.providerPatterns) /\
     modelId = ModelsRoute.firstSegment modelId ++ js "/" ++ slug).
Proof.
  split.
  - intros m. exact (firstSegment_split (Gateway.id m)).
  - intros slug rowHtml modelId Hid.
    apply ScraperProperties.inferModelId_provider in Hid as [provider [Hp ->]].
    assert (Hno : ~ In 47%N provider).
    { assert (Hall : forallb (fun p => negb (existsb (N.eqb 47) (snd p)))
                             Scraper.providerPatterns = true) by (vm_compute; reflexivity).
      rewrite forallb_forall in Hall. apply in_map_iff in Hp as [p [<- Hp]].
      specialize (Hall p Hp). cbv beta in Hall.
      intros Hin. assert (existsb (N.eqb 47) (snd p) = true) as Hx
        by (apply existsb_exists; exists 47%N; split; [exact Hin | apply N.eqb_refl]).
      unfold jsstring in Hx. rewrite Hx in Hall. discriminate. }
    change (js "/" ++ slug) with (47%N :: slug).
    rewrite (firstSegment_app provider slug Hno). split; [exact Hp | reflexivity].
Qed.

(** What [toRow] makes of a language model. *)
Lemma toRow_language (m : Gateway.Model) :
  ModelsRoute.isLanguage m = true ->
  ModelRow.modelType (ModelsRoute.toRow m) = js "language".
Proof.
  unfold ModelsRoute.isLanguage, ModelsRoute.toRow. cbn [ModelRow.modelType].
  destruct (Gateway.modelType m) as [t|]; [|discriminate].
  intros H. apply jsstring_eqb_eq in H. exact H.
Qed.

(** X27. The rows built from the models of the gateway are those of its
    language models, in the order of the gateway and with their ids and
    names; every row is enabled, has type [language], no context window
    and no [NaN] for a price. *)
Theorem rows_are_the_language_models (models : list Gateway.Model) :
  List.map ModelRow.id (ModelsRoute.languageModels models)
    = List.map Gateway.id (List.filter ModelsRoute.isLanguage models) /\
  List.map ModelRow.name (ModelsRoute.languageModels models)
    = List.map Gateway.name (List.filter ModelsRoute.isLanguage models) /\
  List.length (ModelsRoute.languageModels models) <= List.length models /\
  Forall (fun row =>
            ModelRow.isEnabled row = true /\
            ModelRow.modelType row = js "language" /\
            ModelRow.contextWindow row = None /\
            ModelRow.provider row = ModelsRoute.firstSegment (ModelRow.id row) /\
            ModelRow.pricingInput row <> Some NaN /\
            ModelRow.pricingOutput row <> Some NaN /\
            ModelRow.pricingImageGen row <> Some NaN /\
            ModelRow.pricingWebSearch row <> Some NaN)
         (ModelsRoute.languageModels models).
Proof.
  unfold ModelsRoute.languageModels. rewrite !map_map, length_map.
  split; [reflexivity|]. split; [reflexivity|]. split; [apply filter_length_le|].
  apply Forall_forall. intros row Hrow. apply in_map_iff in Hrow as [m [<- Hm]].
  apply filter_In in Hm as [_ Hm].
  assert (Hnan : forall price, ModelsRoute.parsePrice price <> Some NaN).
  { intros [[|c s]|]; cbn [ModelsRoute.parsePrice]; try discriminate.
    destruct (parseFloat (c :: s)); cbn; discriminate. }
  split; [reflexivity|]. split; [exact (toRow_language m Hm)|].
  split; [reflexivity|]. split; [reflexivity|].
  repeat split; apply Hnan.
Qed.

Section AnyGateway.
Context {W : Type} {ops : ModelsRoute.Ops W}.

(** X28. A request that is let through makes one call of [upsertModels],
    with the rows of the language models the gateway lists, even when
    there is none, and answers with their number; when the gateway
    cannot list its models nothing is written and the answer is a
    [bad_request:api] error with the message of the failure. *)
Theorem models_sync_upserts_once
    (env : ModelsRoute.ProcessEnv) (request : SyncRoute.Request)
    (sys : ModelsRoute.Sys W) :
  SyncRoute.authorized
    {| SyncRoute.MODELS_SYNC_API_KEY := ModelsRoute.MODELS_SYNC_API_KEY env |}
    request = true ->
  let apiKey :=
    match ModelsRoute.AI_GATEWAY_API_KEY env with Some key => key | None => [] end in
  (forall models w',
     ModelsRoute.getAvailableModels apiKey (ModelsRoute.world sys) = inr models ->
     ModelsRoute.upsertModels (ModelsRoute.languageModels models) (ModelsRoute.world sys)
       = (None, w') ->
     ModelsRoute.POST env request sys
     = (SyncRoute.Json
          {| ModelsRoute.success := true;
             ModelsRoute.count :=
               List.length (List.filter ModelsRoute.isLanguage models) |},
        {| ModelsRoute.world := w';
           ModelsRoute.upserts :=
             ModelsRoute.upserts sys ++ [ModelsRoute.languageModels models] |})) /\
  (forall failure,
     ModelsRoute.getAvailableModels apiKey (ModelsRoute.world sys) = inl failure ->
     ModelsRoute.POST env request sys
     = (SyncRoute.ChatSDKError (js "bad_request:api")
          (js "Failed to sync models from gateway: " ++ messageOf failure), sys)).
Proof.
  intros Ha apiKey. unfold ModelsRoute.POST.
  rewrite (SyncFacts.authorized_passes _ _ _ Ha).
  unfold ModelsRoute.syncModels. fold apiKey. split.
  - intros models w' -> ->. unfold ModelsRoute.languageModels.
    rewrite length_map. reflexivity.
  - intros failure ->. reflexivity.
Qed.

End AnyGateway.

Lemma models_sync_upserts_once_witness :
  @ModelsRoute.POST _ Scenario.gateway Scenario.modelsEnv Scenario.request
     (ModelsRoute.start [])
  = (SyncRoute.Json {| ModelsRoute.success := true; ModelsRoute.count := 2 |},
     {| ModelsRoute.world := ModelsRoute.languageModels Scenario.catalogue;
        ModelsRoute.upserts := [] ++ [ModelsRoute.languageModels Scenario.catalogue] |}).
Proof.
  destruct (@models_sync_upserts_once _ Scenario.gateway Scenario.modelsEnv
              Scenario.request (ModelsRoute.start []) eq_refl) as [Hok _].
  exact (Hok Scenario.catalogue (ModelsRoute.languageModels Scenario.catalogue)
             eq_refl eq_refl).
Defined.

End ModelsRouteProperties.
(** The capability buttons against the mapping. *)
Module ButtonProperties.
Import JS NumberFacts MappingFacts MappingProperties SyncFacts MultimodalInput.
Import Capabilities(getModelsWithCapability, getModelCapabilities).

(** X29. A selected id that the list of models does not hold, or a list
    that is not loaded yet, counts as supporting both capabilities. For
    a model of the list whose row carries the prices of the mapping, as
    after a sync, a capability counts as supported exactly when
    [getModelsWithCapability] lists the id for it. *)
Theorem buttons_follow_the_synced_prices :
  (forall models selectedModelId,
     selectedModel models selectedModelId = None ->
     supportsWebSearch models selectedModelId = true /\
     supportsImageGen models selectedModelId = true) /\
  (forall models selectedModelId m,
     selectedModel (Some models) selectedModelId = Some m ->
     SyncRoute.changed m = false ->
     (supportsWebSearch (Some models) selectedModelId = true <->
      In selectedModelId (getModelsWithCapability Capabilities.webSearch)) /\
     (supportsImageGen (Some models) selectedModelId = true <->
      In selectedModelId (getModelsWithCapability Capabilities.imageGen))).
Proof.
  split.
  - intros models selectedModelId Hnone. unfold supportsWebSearch, supportsImageGen.
    rewrite Hnone. split; reflexivity.
  - intros models selectedModelId m Hsel Hsame.
    unfold supportsWebSearch, supportsImageGen. rewrite Hsel.
    cbn [selectedModel] in Hsel. apply find_some in Hsel as [_ Hid].
    apply jsstring_eqb_eq in Hid. subst selectedModelId.
    apply changed_false_iff in Hsame as [Hi Hw].
    rewrite (listed_iff_priced Capabilities.webSearch),
            (listed_iff_priced Capabilities.imageGen).
    cbv beta iota. rewrite <- Hi, <- Hw.
    split.
    + destruct (Db.pricingWebSearch m) as [x|]; split.
      * intros _. exists x. reflexivity.
      * reflexivity.
      * discriminate.
      * intros [x Hx]. discriminate.
    + destruct (Db.pricingImageGen m) as [x|]; split.
      * intros _. exists x. reflexivity.
      * reflexivity.
      * discriminate.
      * intros [x Hx]. discriminate.
Qed.

(** X30. A selected id that contains [reasoning] or [think] keeps both
    buttons disabled, whatever the status and the prices. Of the ids
    the mapping prices for web search, [perplexity/sonar-reasoning] and
    [perplexity/sonar-reasoning-pro] are the two this holds for: their
    web search can be priced and synced, and never switched on. *)
Theorem reasoning_models_keep_buttons_disabled :
  (forall s models selectedModelId,
     isReasoningModel selectedModelId = true ->
     webSearchDisabled s models selectedModelId = true /\
     imageGenDisabled s models selectedModelId = true) /\
  (forall selectedModelId,
     In selectedModelId (getModelsWithCapability Capabilities.webSearch) ->
     ((forall s models, webSearchDisabled s models selectedModelId = true) <->
      selectedModelId = js "perplexity/sonar-reasoning" \/
      selectedModelId = js "perplexity/sonar-reasoning-pro")).
Proof.
  split.
  - intros s models selectedModelId Hr. unfold webSearchDisabled, imageGenDisabled.
    rewrite Hr, !orb_true_r. split; reflexivity.
  - intros selectedModelId Hin.
    assert (Hiff : (forall s models, webSearchDisabled s models selectedModelId = true)
                   <-> isReasoningModel selectedModelId = true).
    { split.
      - intros H. specialize (H ready None). exact H.
      - intros Hr s models. unfold webSearchDisabled. rewrite Hr. apply orb_true_r. }
    rewrite Hiff. clear Hiff.
    assert (Hlist : getModelsWithCapability Capabilities.webSearch
                    = List.map js ["openai/gpt-5"; "openai/gpt-5-chat";
                                   "openai/gpt-5-mini"; "openai/gpt-5.2";
                                   "xai/grok-3"; "xai/grok-3-fast"; "xai/grok-3-mini";
                                   "xai/grok-4"; "perplexity/sonar";
                                   "perplexity/sonar-pro"; "perplexity/sonar-reasoning";
                                   "perplexity/sonar-reasoning-pro"]%string)
      by (vm_compute; reflexivity).
    rewrite Hlist in Hin. cbn [List.map In] in Hin.
    repeat (destruct Hin as [<- | Hin];
            [split; [intros H; vm_compute in H; try discriminate; tauto
                    |intros [H | H]; try (vm_compute in H; discriminate);
                     vm_compute; reflexivity]|]).
    destruct Hin.
Qed.

End ButtonProperties.
